(** * FHEVM client and meta-transaction manager: a shallow embedding

    The development follows the TypeScript sources of the front end:
    - [fhevm.ts] (the SDK loader, [PublicKeyStorage], [FHEVMClient],
      [createFhevmInstance]),
    - [fhevm-meta.ts] ([FHEVMMetaManager]),
    - [hooks/useFHEVMMetaTransactions.ts] (the React hook),
    - [providers/FHEVMProvider.tsx] (the effect that creates the client).

    JavaScript values are modelled as follows.  A [number] that the code
    treats as an integer is a [Z]; a string is a [string]; a byte array
    (and the [DataHexString] that ethers prints for it) is a
    [list byte], rendered by [hexlify]; [undefined]/[null] are the [None]
    of an option; a thrown [Error] is the [Throw] of [result], carrying
    its message.  Asynchronous code is sequential state passing: every
    [await] is a bind of the monad [M]. *)

From Stdlib Require Import ZArith Lia List String Ascii DecimalString.
From Stdlib.Strings Require Import Byte.
From stdpp Require Import gmap strings.
Import ListNotations.

Local Open Scope string_scope.
Local Open Scope list_scope.
Local Open Scope Z_scope.

(** ** Bytes and hexadecimal text *)

Module Hex.

Definition byte_of_Z (z : Z) : byte :=
  match Byte.of_N (Z.to_N (z mod 256)) with
  | Some b => b
  | None => x00
  end.

Definition Z_of_byte (b : byte) : Z := Z.of_N (Byte.to_N b).

Definition digit (n : Z) : ascii :=
  if n <? 10 then ascii_of_N (Z.to_N (48 + n))
  else ascii_of_N (Z.to_N (87 + n)).

(** Value of a hexadecimal digit, either case. *)
Definition digit_value (c : ascii) : option Z :=
  let n := Z.of_N (N_of_ascii c) in
  if (48 <=? n) && (n <=? 57) then Some (n - 48)
  else if (97 <=? n) && (n <=? 102) then Some (n - 87)
  else if (65 <=? n) && (n <=? 70) then Some (n - 55)
  else None.

Fixpoint digits (bs : list byte) : string :=
  match bs with
  | [] => EmptyString
  | b :: bs' =>
      String (digit (Z_of_byte b / 16))
        (String (digit (Z_of_byte b mod 16)) (digits bs'))
  end.

Fixpoint parse (s : string) : option (list byte) :=
  match s with
  | EmptyString => Some []
  | String hi (String lo rest) =>
      match digit_value hi, digit_value lo, parse rest with
      | Some h, Some l, Some bs => Some (byte_of_Z (16 * h + l) :: bs)
      | _, _, _ => None
      end
  | String _ EmptyString => None
  end.

(** Big-endian bytes of a non-negative integer, without leading zero
    bytes; [fuel] bounds the number of bytes. *)
Fixpoint be_bytes (fuel : nat) (z : Z) (acc : list byte) : list byte :=
  match fuel with
  | O => acc
  | S fuel' =>
      if z <=? 0 then acc
      else be_bytes fuel' (z / 256) (byte_of_Z z :: acc)
  end.

Fixpoint be_value (bs : list byte) (acc : Z) : Z :=
  match bs with
  | [] => acc
  | b :: bs' => be_value bs' (256 * acc + Z_of_byte b)
  end.

End Hex.

(** ** Keccak-256, as computed by [ethers.keccak256] *)

Module Keccak.

Definition mask64 : Z := 2 ^ 64 - 1.

Definition rotl (x : Z) (n : Z) : Z :=
  Z.land (Z.lor (Z.shiftl x n) (Z.shiftr x (64 - n))) mask64.

Definition lane (st : list Z) (x y : nat) : Z :=
  nth ((x mod 5) + 5 * (y mod 5))%nat st 0.

Definition rotation_offsets : list Z :=
  [ 0;  1; 62; 28; 27;
   36; 44;  6; 55; 20;
    3; 10; 43; 25; 39;
   41; 45; 15; 21;  8;
   18;  2; 61; 56; 14].

Definition round_constants : list Z :=
  [0x0000000000000001; 0x0000000000008082; 0x800000000000808A;
   0x8000000080008000; 0x000000000000808B; 0x0000000080000001;
   0x8000000080008081; 0x8000000000008009; 0x000000000000008A;
   0x0000000000000088; 0x0000000080008009; 0x000000008000000A;
   0x000000008000808B; 0x800000000000008B; 0x8000000000008089;
   0x8000000000008003; 0x8000000000008002; 0x8000000000000080;
   0x000000000000800A; 0x800000008000000A; 0x8000000080008081;
   0x8000000000008080; 0x0000000080000001; 0x8000000080008008].

Definition coords : list (nat * nat) :=
  flat_map (fun y => map (fun x => (x, y)) (seq 0 5)) (seq 0 5).

Definition theta (st : list Z) : list Z :=
  let c x := fold_left Z.lxor (map (fun y => lane st x y) (seq 0 5)) 0 in
  let d x := Z.lxor (c (x + 4)%nat) (rotl (c (x + 1)%nat) 1) in
  map (fun '(x, y) => Z.lxor (lane st x y) (d x)) coords.

(** rho and pi: the lane at (x, y) moves to (y, 2x + 3y), rotated. *)
Definition rho_pi (st : list Z) : list Z :=
  map (fun '(x, y) =>
         let sx := ((x + 3 * y) mod 5)%nat in
         let sy := x in
         rotl (lane st sx sy) (nth (sx + 5 * sy)%nat rotation_offsets 0))
      coords.

Definition chi (st : list Z) : list Z :=
  map (fun '(x, y) =>
         Z.lxor (lane st x y)
           (Z.land (Z.lxor (lane st (x + 1) y) mask64) (lane st (x + 2) y)))
      coords.

Definition iota (rc : Z) (st : list Z) : list Z :=
  match st with
  | [] => []
  | a :: rest => Z.lxor a rc :: rest
  end.

Definition round (st : list Z) (rc : Z) : list Z :=
  iota rc (chi (rho_pi (theta st))).

Definition permute (st : list Z) : list Z :=
  fold_left round round_constants st.

Definition rate : nat := 136.

(** Multi-rate padding with the Keccak domain byte 0x01. *)
Definition pad (msg : list byte) : list byte :=
  let fill := (rate - 1 - (length msg mod rate))%nat in
  match fill with
  | O => msg ++ [x81]
  | S k => msg ++ [x01] ++ repeat x00 k ++ [x80]
  end.

Fixpoint le_value (bs : list byte) : Z :=
  match bs with
  | [] => 0
  | b :: bs' => Hex.Z_of_byte b + 256 * le_value bs'
  end.

Fixpoint lanes_of (n : nat) (bs : list byte) : list Z :=
  match n with
  | O => []
  | S n' => le_value (firstn 8 bs) :: lanes_of n' (skipn 8 bs)
  end.

Fixpoint xor_into (st blk : list Z) : list Z :=
  match st, blk with
  | a :: st', b :: blk' => Z.lxor a b :: xor_into st' blk'
  | _, [] => st
  | [], _ => []
  end.

Fixpoint absorb (fuel : nat) (st : list Z) (msg : list byte) : list Z :=
  match fuel with
  | O => st
  | S fuel' =>
      match msg with
      | [] => st
      | _ =>
          absorb fuel'
            (permute (xor_into st (lanes_of 17 (firstn rate msg))))
            (skipn rate msg)
      end
  end.

Definition lane_bytes (l : Z) : list byte :=
  [Hex.byte_of_Z l; Hex.byte_of_Z (Z.shiftr l 8);
   Hex.byte_of_Z (Z.shiftr l 16); Hex.byte_of_Z (Z.shiftr l 24);
   Hex.byte_of_Z (Z.shiftr l 32); Hex.byte_of_Z (Z.shiftr l 40);
   Hex.byte_of_Z (Z.shiftr l 48); Hex.byte_of_Z (Z.shiftr l 56)].

Definition squeeze (st : list Z) : list byte :=
  lane_bytes (nth 0 st 0) ++ lane_bytes (nth 1 st 0)
    ++ lane_bytes (nth 2 st 0) ++ lane_bytes (nth 3 st 0).

Definition keccak256 (msg : list byte) : list byte :=
  let padded := pad msg in
  squeeze (absorb (length padded) (repeat 0 25) padded).

End Keccak.

Definition ascii_bytes (s : string) : list byte := list_byte_of_string s.

Example keccak_empty :
  Hex.digits (Keccak.keccak256 [])
  = "c5d2460186f7233c927e7db2dcc703c0e500b653ca82273b7bfad8045d85a470".
Proof. vm_compute. reflexivity. Qed.

Example keccak_abc :
  Hex.digits (Keccak.keccak256 (ascii_bytes "abc"))
  = "4e03657aea45a94fc7d47ba826c8d667c0d1e6e33a64a036ec44f58fa12d6c45".
Proof. vm_compute. reflexivity. Qed.

(** ** Results of fallible code *)

(** A JavaScript computation either returns or throws an [Error]; only
    the message of the error is kept. *)
Inductive result (A : Type) : Type :=
| Ok (a : A)
| Throw (message : string).
Arguments Ok {A} a.
Arguments Throw {A} message.

Definition is_ok {A} (r : result A) : bool :=
  match r with Ok _ => true | Throw _ => false end.

Definition rbind {A B} (r : result A) (k : A -> result B) : result B :=
  match r with
  | Ok a => k a
  | Throw e => Throw e
  end.

Declare Scope result_scope.
Delimit Scope result_scope with result.
Notation "x <-? r ; k" := (rbind r (fun x => k))
  (at level 100, r at next level, right associativity) : result_scope.

(** Decimal text of an integer, as a template literal prints it. *)
Definition string_of_Z (z : Z) : string := NilZero.string_of_int (Z.to_int z).

(** ** The ethers v6 utilities used by the sources

    ethers is a dependency of the repository, not part of it.  The
    functions below follow its documented behaviour on the arguments the
    sources pass.  Two things are left out: ICAP ("XE..") addresses,
    which [getAddress] here refuses, and the exact text of the messages
    of the errors ethers throws. *)

Module Ethers.
Local Open Scope result_scope.

Definition MAX_SAFE_INTEGER : Z := 2 ^ 53 - 1.

Definition ZeroAddress : string := "0x0000000000000000000000000000000000000000".

(** [getUint] on a JavaScript number. *)
Definition getUint (v : Z) : result Z :=
  if (v <? - MAX_SAFE_INTEGER) || (MAX_SAFE_INTEGER <? v) then Throw "overflow"
  else if v <? 0 then Throw "unsigned value cannot be negative"
  else Ok v.

(** [toBeHex(value)]: an even number of hex digits, "0x00" for zero. *)
Definition toBeHex (v : Z) : result (list byte) :=
  n <-? getUint v;
  Ok (if n =? 0 then [x00] else Hex.be_bytes 8 n []).

Definition zeroPadValue (data : list byte) (len : nat) : result (list byte) :=
  if (len <? length data)%nat then Throw "padding exceeds data length"
  else Ok (repeat x00 (len - length data) ++ data).

Definition hexlify (bs : list byte) : string := "0x" +:+ Hex.digits bs.

(** [getBytes] on a string: "0x" (either case) and pairs of hex digits. *)
Definition getBytes (s : string) : result (list byte) :=
  match s with
  | String "0" (String x rest) =>
      if (Ascii.eqb x "x" || Ascii.eqb x "X")%bool then
        match Hex.parse rest with
        | Some bs => Ok bs
        | None => Throw "invalid BytesLike value"
        end
      else Throw "invalid BytesLike value"
  | _ => Throw "invalid BytesLike value"
  end.

(** [isHexString(value, length)]: "0x" and exactly [len] bytes of hex
    digits, either case. *)
Definition isHexString (s : string) (len : nat) : bool :=
  match s with
  | String c0 (String c1 rest) =>
      Ascii.eqb c0 "0" && Ascii.eqb c1 "x" &&
      match Hex.parse rest with
      | Some bs => (length bs =? len)%nat
      | None => false
      end
  | _ => false
  end.

Definition toUtf8Bytes (s : string) : list byte := ascii_bytes s.

Definition keccak256 (data : list byte) : list byte := Keccak.keccak256 data.

Definition is_hex_digit (c : ascii) : bool :=
  match Hex.digit_value c with Some _ => true | None => false end.

Definition is_upper_hex (c : ascii) : bool :=
  let n := Z.of_N (N_of_ascii c) in (65 <=? n) && (n <=? 70).

Definition is_lower_hex (c : ascii) : bool :=
  let n := Z.of_N (N_of_ascii c) in (97 <=? n) && (n <=? 102).

Definition to_lower (c : ascii) : ascii :=
  let n := N_of_ascii c in
  if ((65 <=? n) && (n <=? 90))%N then ascii_of_N (n + 32) else c.

Definition to_upper (c : ascii) : ascii :=
  let n := N_of_ascii c in
  if ((97 <=? n) && (n <=? 122))%N then ascii_of_N (n - 32) else c.

Fixpoint checksum_chars (chars : list ascii) (hashed : list byte) : list ascii :=
  match chars, hashed with
  | c1 :: c2 :: rest, h :: hs =>
      (if 8 <=? Hex.Z_of_byte h / 16 then to_upper c1 else c1)
        :: (if 8 <=? Hex.Z_of_byte h mod 16 then to_upper c2 else c2)
        :: checksum_chars rest hs
  | _, _ => chars
  end.

(** [getChecksumAddress] on "0x" followed by 40 hex digits. *)
Definition getChecksumAddress (body : string) : string :=
  let chars := map to_lower (list_ascii_of_string body) in
  let hashed := keccak256 (map byte_of_ascii chars) in
  "0x" +:+ string_of_list_ascii (checksum_chars chars hashed).

Definition strip_0x (s : string) : string :=
  match s with
  | String "0" (String "x" rest) => rest
  | _ => s
  end.

Definition getAddress (s : string) : result string :=
  let body := strip_0x s in
  let chars := list_ascii_of_string body in
  if (length chars =? 40)%nat && forallb is_hex_digit chars then
    let checksummed := getChecksumAddress body in
    if existsb is_upper_hex chars && existsb is_lower_hex chars
       && negb (String.eqb checksummed ("0x" +:+ body))
    then Throw "bad address checksum"
    else Ok checksummed
  else Throw "invalid address".

Definition isAddress (s : string) : bool := is_ok (getAddress s).

(** *** The ABI coder, on the static types the sources use *)

Inductive abi_type := bytes32 | address | uint (bits : Z) | bool_t | string_t.

(** Arguments as the sources give them: a hex string (by its bytes), a
    string holding an address, a number, a boolean. *)
Inductive abi_arg :=
| ArgHex (bs : list byte)
| ArgString (s : string)
| ArgNumber (z : Z)
| ArgBool (b : bool).

Inductive abi_value :=
| ValBytes32 (bs : list byte)
| ValAddress (a : string)
| ValUint (z : Z)
| ValBool (b : bool).

(** A 32-byte big-endian word. *)
Definition word (z : Z) : list byte :=
  let bs := Hex.be_bytes 32 z [] in
  repeat x00 (32 - length bs) ++ bs.

Definition encode_one (t : abi_type) (a : abi_arg) : result (list byte) :=
  match t, a with
  | bytes32, ArgHex bs =>
      if (length bs =? 32)%nat then Ok bs else Throw "incorrect data length"
  | address, ArgString s =>
      checksummed <-? getAddress s;
      bs <-? getBytes checksummed;
      Ok (repeat x00 12 ++ bs)
  | uint bits, ArgNumber z =>
      if (z <? - MAX_SAFE_INTEGER) || (MAX_SAFE_INTEGER <? z) then Throw "overflow"
      else if (z <? 0) || (2 ^ bits - 1 <? z) then Throw "value out-of-bounds"
      else Ok (word z)
  | bool_t, ArgBool b => Ok (word (if b then 1 else 0))
  | _, _ => Throw "invalid type"
  end.

(** One argument: its bytes, and whether they go to the tail (a
    [string], preceded by its length and padded to whole words). *)
Definition encode_part (t : abi_type) (a : abi_arg) : result (bool * list byte) :=
  match t, a with
  | string_t, ArgString s =>
      let bs := toUtf8Bytes s in
      Ok (true, word (Z.of_nat (length bs)) ++ bs
                  ++ repeat x00 ((32 - length bs mod 32) mod 32)%nat)
  | string_t, _ => Throw "invalid type"
  | _, _ => w <-? encode_one t a; Ok (false, w)
  end.

Fixpoint encode_parts (ts : list abi_type) (args : list abi_arg)
    : result (list (bool * list byte)) :=
  match ts, args with
  | [], [] => Ok []
  | t :: ts', a :: args' =>
      p <-? encode_part t a;
      rest <-? encode_parts ts' args';
      Ok (p :: rest)
  | _, _ => Throw "types/values length mismatch"
  end.

(** Heads and tails: a tail part leaves its offset in the head. *)
Fixpoint layout (parts : list (bool * list byte)) (offset : Z)
    : list byte * list byte :=
  match parts with
  | [] => ([], [])
  | (false, w) :: rest =>
      let '(heads, tails) := layout rest offset in (w ++ heads, tails)
  | (true, d) :: rest =>
      let '(heads, tails) := layout rest (offset + Z.of_nat (length d)) in
      (word offset ++ heads, d ++ tails)
  end.

Definition encode (ts : list abi_type) (args : list abi_arg) : result (list byte) :=
  parts <-? encode_parts ts args;
  let '(heads, tails) := layout parts (32 * Z.of_nat (length parts)) in
  Ok (heads ++ tails).

Definition is_static (t : abi_type) : bool :=
  match t with
  | string_t => false
  | _ => true
  end.

Definition decode_one (t : abi_type) (w : list byte) : result abi_value :=
  match t with
  | bytes32 => Ok (ValBytes32 w)
  | address =>
      let v := Hex.be_value w 0 in
      if 2 ^ 160 <=? v then Throw "value exceeds width"
      else
        a <-? getAddress (hexlify (skipn 12 w));
        Ok (ValAddress a)
  | uint bits => Ok (ValUint (Hex.be_value w 0 mod 2 ^ bits))
  | bool_t => Ok (ValBool (negb (Hex.be_value w 0 =? 0)))
  | string_t => Throw "dynamic type"
  end.

Fixpoint decode (ts : list abi_type) (data : list byte) : result (list abi_value) :=
  match ts with
  | [] => Ok []
  | t :: ts' =>
      if (length data <? 32)%nat then Throw "data out-of-bounds"
      else
        v <-? decode_one t (firstn 32 data);
        rest <-? decode ts' (skipn 32 data);
        Ok (v :: rest)
  end.

End Ethers.

Example toBeHex_5 : Ethers.toBeHex 5 = Ok [x05].
Proof. reflexivity. Qed.

Example toBeHex_0 : Ethers.toBeHex 0 = Ok [x00].
Proof. reflexivity. Qed.

Example toBeHex_256 : Ethers.toBeHex 256 = Ok [x01; x00].
Proof. reflexivity. Qed.

Example toBeHex_negative : Ethers.toBeHex (-1) = Throw "unsigned value cannot be negative".
Proof. reflexivity. Qed.

(** The checksummed address of EIP-55's first test vector. *)
Example getAddress_eip55 :
  Ethers.getAddress "0x5aaeb6053f3e94c9b9a09f33669435e7ef1beaed"
  = Ok "0x5aAeb6053F3E94C9b9A09f33669435E7Ef1BeAed".
Proof. vm_compute. reflexivity. Qed.

Example getAddress_bad_checksum :
  Ethers.getAddress "0x5AAeb6053F3E94C9b9A09f33669435E7Ef1BeAed"
  = Throw "bad address checksum".
Proof. vm_compute. reflexivity. Qed.

Example encode_minimal :
  Ethers.encode [Ethers.uint 256; Ethers.address]
    [Ethers.ArgNumber 5; Ethers.ArgString "0xaaaaaaaaaaaaaaaaaaaaaaaaaaaaaaaaaaaaaaaa"]
  = Ok (repeat x00 31 ++ [x05] ++ repeat x00 12 ++ repeat xaa 20).
Proof. vm_compute. reflexivity. Qed.

(** ** The browser: environment and state *)

Inductive fhe_type := euint32 | ebool | euint64.

(** The status of a meta transaction. *)
Inductive TxStatus := pending | processing | completed | failed.

Inductive Provider :=
| RpcUrl (url : string)      (* a JSON-RPC URL *)
| BrowserProvider.           (* an ethers.BrowserProvider over the wallet *)

(** What the engine adds to an input session. *)
Inductive added_value := Add32 (v : Z) | AddBool (b : bool).

(** The object [encrypt()] resolves to: [handles[0]] is [undefined] when
    the list is empty, [inputProof] may be [undefined]. *)
Record Encrypted := {
  handles : list string;
  inputProof : option string
}.

Record FhevmStoredPublicKey := {
  publicKeyId : string;
  publicKey : list byte
}.

Record FhevmStoredPublicParams := {
  publicParamsId : string;
  publicParams : list byte
}.

(** A property of a JavaScript object: missing, [null], or a value. *)
Inductive js_field (A : Type) : Type :=
| Absent
| Null
| Present (a : A).
Arguments Absent {A}.
Arguments Null {A}.
Arguments Present {A} a.

Record PublicKeyEntry := {
  id : string;
  data : list byte
}.

(** What [PublicKeyStorage.get] resolves to; [cached_publicParams] is the
    object stored under the key "2048", or [null]. *)
Record CachedKeys := {
  cached_publicKey : js_field PublicKeyEntry;
  cached_publicParams : option FhevmStoredPublicParams
}.

(** An engine instance, by what its methods answer.  [encrypt_input t
    contractAddress userAddress added] stands for
    [createEncryptedInput(..)], the [add32]/[addBool] calls and
    [encrypt()], asked at the moment [t]; a [Throw] is an exception from
    any of the three. *)
Record FhevmInstance := {
  encrypt_input : nat -> string -> string -> list added_value -> result Encrypted;
  getPublicKey : option FhevmStoredPublicKey;
  getPublicParams : option FhevmStoredPublicParams
}.

(** [window.relayerSDK], as far as the loader looks at it. *)
Record RelayerSDK := {
  has_initSDK : bool;
  has_createInstance : bool;
  has_SepoliaConfig : bool;
  initialized_flag : option bool;      (* [__initialized__], when present *)
  aclContractAddress : string
}.

Record IdbStatus := {
  opens : bool;               (* [openDB] and [db.transaction] succeed *)
  key_request_ok : bool;      (* the [publicKeyStore] request succeeds *)
  params_request_ok : bool;   (* the [paramsStore] request succeeds *)
  commits : bool              (* the read-write transaction completes *)
}.

(** The receipt [tx.wait()] resolves to. *)
Record Receipt := {
  receipt_blockNumber : Z;
  receipt_gasUsed : option Z;      (* [None]: the field is missing *)
  receipt_status : Z;
  receipt_to : string
}.

(** Everything the code asks of the outside, indexed by the moment
    ([tick]) at which it asks. *)
Record Env := {
  dateNow : nat -> Z;                          (* [Date.now()] *)
  randomNonce : nat -> Z;                      (* [Math.floor(Math.random() * 1000000)] *)
  signerAddress : nat -> result string;        (* [(await provider.getSigner()).getAddress()] *)
  networkChainId : nat -> result Z;            (* [Number((await provider.getNetwork()).chainId)] *)
  abortTime : option nat;                      (* when [signal] is aborted, if ever *)
  scriptLoad : nat -> result (option RelayerSDK);  (* what loading the SDK script leaves on [window] *)
  initSDK : nat -> result unit;
  createInstance : nat -> CachedKeys -> result FhevmInstance;  (* [relayerSDK.createInstance(config)] *)
  idb : nat -> IdbStatus;
  contractHas : string -> bool;                (* [contract[functionName]] is defined *)
  sendTransaction : nat -> string -> list string -> result string;
                                               (* [contract[functionName](...txParams)], the hash *)
  waitReceipt : nat -> result Receipt;         (* [tx.wait()] *)
  getTransactionReceipt : nat -> result (option Receipt);
  getBlockNumber : nat -> result Z;
  randomId : nat -> string                     (* [Math.random().toString(36).substr(2, 9)] *)
}.

Record World := {
  tick : nat;                                   (* questions asked so far *)
  network_calls : list string;                  (* requests to wallet or node, latest first *)
  publicKeyStore : gmap string FhevmStoredPublicKey;
  paramsStore : gmap string FhevmStoredPublicParams;
  relayerSDK : option RelayerSDK;               (* [window.relayerSDK] *)
  script_tag : bool;                            (* the SDK script element is in the document *)
  status_writes : list (string * TxStatus)      (* every assignment to the [status] of a
                                                   meta transaction, by its id, latest first *)
}.

(** The environment with one answer changed. *)

Definition with_abortTime (t : option nat) (e : Env) : Env :=
  {| dateNow := dateNow e; randomNonce := randomNonce e;
     signerAddress := signerAddress e; networkChainId := networkChainId e;
     abortTime := t;
     scriptLoad := scriptLoad e; initSDK := initSDK e;
     createInstance := createInstance e; idb := idb e;
     contractHas := contractHas e; sendTransaction := sendTransaction e;
     waitReceipt := waitReceipt e;
     getTransactionReceipt := getTransactionReceipt e;
     getBlockNumber := getBlockNumber e; randomId := randomId e |}.




(** ** Sequential code over a state

    [ST S A] is a computation that reads and changes a state [S] and
    returns an [A] or throws; the state reached at a throw is kept, as
    the side effects of JavaScript code are. *)

Definition ST (S A : Type) : Type := S -> result A * S.

Definition ret {S A} (a : A) : ST S A := fun s => (Ok a, s).

Definition throw {S A} (message : string) : ST S A := fun s => (Throw message, s).

Definition bind {S A B} (m : ST S A) (k : A -> ST S B) : ST S B :=
  fun s =>
    match m s with
    | (Ok a, s') => k a s'
    | (Throw e, s') => (Throw e, s')
    end.

(** [try { m } catch (error) { h error.message }]. *)
Definition try_catch {S A} (m : ST S A) (h : string -> ST S A) : ST S A :=
  fun s =>
    match m s with
    | (Ok a, s') => (Ok a, s')
    | (Throw e, s') => h e s'
    end.

Definition lift {S A} (r : result A) : ST S A := fun s => (r, s).

(** [Promise.all] of two: both are started, the first failure wins. *)
Definition all2 {S A B} (m1 : ST S A) (m2 : ST S B) : ST S (A * B) :=
  fun s =>
    let '(r1, s1) := m1 s in
    let '(r2, s2) := m2 s1 in
    (match r1, r2 with
     | Ok a, Ok b => Ok (a, b)
     | Throw e, _ => Throw e
     | _, Throw e => Throw e
     end, s2).

Definition get_state {S} : ST S S := fun s => (Ok s, s).

Definition modify {S} (f : S -> S) : ST S unit := fun s => (Ok tt, f s).

Declare Scope monad_scope.
Delimit Scope monad_scope with monad.
Notation "x <- m ;; k" := (bind m (fun x => k))
  (at level 100, m at next level, right associativity) : monad_scope.
Notation "m ;; k" := (bind m (fun _ => k))
  (at level 100, right associativity) : monad_scope.

Definition M (A : Type) : Type := ST World A.

Definition next (w : World) : World :=
  {| tick := S (tick w); network_calls := network_calls w;
     publicKeyStore := publicKeyStore w; paramsStore := paramsStore w;
     relayerSDK := relayerSDK w; script_tag := script_tag w;
       status_writes := status_writes w |}.

Definition request (name : string) (w : World) : World :=
  {| tick := tick w; network_calls := name :: network_calls w;
     publicKeyStore := publicKeyStore w; paramsStore := paramsStore w;
     relayerSDK := relayerSDK w; script_tag := script_tag w;
       status_writes := status_writes w |}.

(** Ask the environment: the answer is the oracle's at the current tick. *)
Definition ask {A} (oracle : nat -> A) : M A :=
  fun w => (Ok (oracle (tick w)), next w).

Definition ask_result {A} (oracle : nat -> result A) : M A :=
  fun w => (oracle (tick w), next w).

(** The same, for a question that goes to the wallet or the node. *)
Definition rpc {A} (name : string) (oracle : nat -> result A) : M A :=
  fun w => (oracle (tick w), next (request name w)).

(** JavaScript truthiness of an optional string. *)
Definition truthy (s : option string) : bool :=
  match s with
  | Some s' => negb (String.eqb s' "")
  | None => false
  end.

(** ** [FHEVMClient] (fhevm.ts) *)

Record EncryptedInput := {
  handle : string;
  proof : string
}.

Record FHEVMClient := {
  provider : Provider;
  chainId : Z;
  fhevmInstance : option FhevmInstance
}.

Module Client.
Local Open Scope monad_scope.

Definition SEPOLIA : Z := 11155111.
Definition HARDHAT : Z := 31337.

(** The user address, as both encoders obtain it. *)
Definition userAddressOf (env : Env) (c : FHEVMClient) : M string :=
  match provider c with
  | RpcUrl _ => ret Ethers.ZeroAddress
  | BrowserProvider => rpc "getSigner" (signerAddress env)
  end.

(** [value ? 1 : 0] and [Boolean(value)]. *)
Definition truthy_number (value : Z) : bool := negb (value =? 0).

(** The bytes hashed into the handle of the [euint32] branch. *)
Definition euint32_preimage (contractAddress userAddress : string)
    (value timestamp nonce : Z) : result (list byte) :=
  (hexValue <-? Ethers.toBeHex value;
   valueBytes <-? Ethers.zeroPadValue hexValue 32;
   contractBytes <-? Ethers.getBytes contractAddress;
   userBytes <-? Ethers.getBytes userAddress;
   hexTimestamp <-? Ethers.toBeHex timestamp;
   timestampBytes <-? Ethers.zeroPadValue hexTimestamp 8;
   hexNonce <-? Ethers.toBeHex nonce;
   nonceBytes <-? Ethers.zeroPadValue hexNonce 8;
   Ok (Ethers.toUtf8Bytes "FHEVM_EUINT32" ++ contractBytes ++ userBytes
         ++ valueBytes ++ timestampBytes ++ nonceBytes))%result.

(** The bytes hashed into the handle of the other branch. *)
Definition ebool_preimage (contractAddress userAddress : string)
    (boolValue timestamp : Z) : result (list byte) :=
  (hexValue <-? Ethers.toBeHex boolValue;
   valueBytes <-? Ethers.zeroPadValue hexValue 32;
   contractBytes <-? Ethers.getBytes contractAddress;
   userBytes <-? Ethers.getBytes userAddress;
   hexTimestamp <-? Ethers.toBeHex timestamp;
   timestampBytes <-? Ethers.zeroPadValue hexTimestamp 8;
   Ok (Ethers.toUtf8Bytes "FHEVM_EBOOL" ++ contractBytes ++ userBytes
         ++ valueBytes ++ timestampBytes))%result.

Definition euint32_proof_types : list Ethers.abi_type :=
  [Ethers.bytes32; Ethers.address; Ethers.address; Ethers.uint 32;
   Ethers.uint 256; Ethers.bytes32].

Definition ebool_proof_types : list Ethers.abi_type :=
  [Ethers.bytes32; Ethers.address; Ethers.address; Ethers.bool_t;
   Ethers.uint 256; Ethers.bytes32].

(** The body of the [try] of [createCompatibleEncryptedInput], once the
    user address, the timestamp and the nonce are known. *)
Definition compatibleEncoding (contractAddress userAddress : string)
    (value : Z) (type : fhe_type) (timestamp nonce : Z) : result EncryptedInput :=
  match type with
  | euint32 =>
      (preimage <-? euint32_preimage contractAddress userAddress value timestamp nonce;
       let handleData := Ethers.keccak256 preimage in
       proofData <-? Ethers.encode euint32_proof_types
         [Ethers.ArgHex handleData;
          Ethers.ArgString contractAddress;
          Ethers.ArgString userAddress;
          Ethers.ArgNumber value;
          Ethers.ArgNumber timestamp;
          Ethers.ArgHex (Ethers.keccak256 (Ethers.toUtf8Bytes
            ("proof_" +:+ string_of_Z value +:+ "_" +:+ string_of_Z timestamp
               +:+ "_" +:+ string_of_Z nonce)))];
       Ok {| handle := Ethers.hexlify handleData;
             proof := Ethers.hexlify proofData |})%result
  | _ =>
      let boolValue := if truthy_number value then 1 else 0 in
      (preimage <-? ebool_preimage contractAddress userAddress boolValue timestamp;
       let handleData := Ethers.keccak256 preimage in
       proofData <-? Ethers.encode ebool_proof_types
         [Ethers.ArgHex handleData;
          Ethers.ArgString contractAddress;
          Ethers.ArgString userAddress;
          Ethers.ArgBool (truthy_number value);
          Ethers.ArgNumber timestamp;
          Ethers.ArgHex (Ethers.keccak256 (Ethers.toUtf8Bytes
            ("bool_proof_" +:+ string_of_Z boolValue +:+ "_"
               +:+ string_of_Z timestamp)))];
       Ok {| handle := Ethers.hexlify handleData;
             proof := Ethers.hexlify proofData |})%result
  end.

(** The body of the [catch] of [createCompatibleEncryptedInput]. *)
Definition minimalEncoding (contractAddress : string) (value : Z)
    : result EncryptedInput :=
  (hexValue <-? Ethers.toBeHex value;
   simpleHandle <-? Ethers.zeroPadValue hexValue 32;
   simpleProof <-? Ethers.encode [Ethers.uint 256; Ethers.address]
     [Ethers.ArgNumber value; Ethers.ArgString contractAddress];
   Ok {| handle := Ethers.hexlify simpleHandle;
         proof := Ethers.hexlify simpleProof |})%result.

(** The [try] of [createCompatibleEncryptedInput]. *)
Definition compatiblePath (env : Env) (c : FHEVMClient)
    (contractAddress : string) (value : Z) (type : fhe_type) : M EncryptedInput :=
  userAddress <- userAddressOf env c;;
  now <- ask (dateNow env);;
  let timestamp := now / 1000 in
  nonce <- ask (randomNonce env);;
  lift (compatibleEncoding contractAddress userAddress value type timestamp nonce).

Definition createCompatibleEncryptedInput (env : Env) (c : FHEVMClient)
    (contractAddress : string) (value : Z) (type : fhe_type) : M EncryptedInput :=
  try_catch
    (compatiblePath env c contractAddress value type)
    (fun _ => lift (minimalEncoding contractAddress value)).

(** What the primary path adds to the session, by type. *)
Definition added (value : Z) (type : fhe_type) : list added_value :=
  match type with
  | euint32 => [Add32 value]
  | ebool => [AddBool (truthy_number value)]
  | euint64 => []
  end.

(** The inner [try] of the primary path, on what the engine answered. *)
Definition sdkEncoding (answer : result Encrypted) : result EncryptedInput :=
  match answer with
  | Ok encrypted =>
      let handle := head (handles encrypted) in
      let proof := inputProof encrypted in
      if negb (truthy handle) || negb (truthy proof)
      then Throw "fhevmjs SDK failed: Encrypted input missing handle or proof"
      else
        match handle, proof with
        | Some h, Some p => Ok {| handle := h; proof := p |}
        | _, _ => Throw "fhevmjs SDK failed: Encrypted input missing handle or proof"
        end
  | Throw message => Throw ("fhevmjs SDK failed: " +:+ message)
  end.

(** The branch of [createEncryptedInput] for Sepolia with an instance. *)
Definition sdkPath (env : Env) (c : FHEVMClient) (instance : FhevmInstance)
    (contractAddress : string) (value : Z) (type : fhe_type) : M EncryptedInput :=
  userAddress <- userAddressOf env c;;
  ask_result (fun t =>
    sdkEncoding (encrypt_input instance t contractAddress userAddress
                   (added value type))).

Definition createEncryptedInput (env : Env) (c : FHEVMClient)
    (contractAddress : string) (value : Z) (type : fhe_type) : M EncryptedInput :=
  try_catch
    (match fhevmInstance c with
     | Some instance =>
         if chainId c =? SEPOLIA
         then sdkPath env c instance contractAddress value type
         else createCompatibleEncryptedInput env c contractAddress value type
     | None => createCompatibleEncryptedInput env c contractAddress value type
     end)
    (fun _ => createCompatibleEncryptedInput env c contractAddress value type).

Definition createEncryptedBoolInput (env : Env) (c : FHEVMClient)
    (contractAddress : string) (value : bool) : M EncryptedInput :=
  createEncryptedInput env c contractAddress (if value then 1 else 0) ebool.

Definition isReady (c : FHEVMClient) : bool :=
  (chainId c =? SEPOLIA) || (chainId c =? HARDHAT).

Definition isFHEVMSupported (chain : Z) : bool :=
  (chain =? SEPOLIA) || (chain =? HARDHAT).

(** [checkIsAddress]; [None] is a value that is not a string. *)
Definition checkIsAddress (a : option string) : bool :=
  match a with
  | Some s => Ethers.isAddress s
  | None => false
  end.

(** The variables of [process.env] that [getSystemContracts] reads. *)
Record ProcessEnv := {
  REACT_APP_FHEVM_EXECUTOR_CONTRACT : option string;
  REACT_APP_ACL_CONTRACT : option string;
  REACT_APP_FHEVM_GATEWAY_CONTRACT : option string;
  REACT_APP_KMS_VERIFIER_CONTRACT : option string
}.

Record SystemContracts := {
  FHEVM_EXECUTOR : string;
  ACL_CONTRACT : string;
  FHEVM_GATEWAY : string;
  KMS_VERIFIER : string;
  ZAMA_ACL : string;
  ZAMA_GATEWAY : string
}.

(** [variable || fallback] on an optional string. *)
Definition or_else (variable : option string) (fallback : string) : string :=
  match variable with
  | Some s => if String.eqb s "" then fallback else s
  | None => fallback
  end.

Definition getSystemContracts (process_env : ProcessEnv) (chain : Z)
    : option SystemContracts :=
  if chain =? 11155111 then
    Some {| FHEVM_EXECUTOR :=
              or_else (REACT_APP_FHEVM_EXECUTOR_CONTRACT process_env)
                "0x848B0066793BcC60346Da1F49049357399B8D595";
            ACL_CONTRACT :=
              or_else (REACT_APP_ACL_CONTRACT process_env)
                "0x687820221192C5B662b25367F70076A37bc79b6c";
            FHEVM_GATEWAY :=
              or_else (REACT_APP_FHEVM_GATEWAY_CONTRACT process_env)
                "0x7b5F3C3eB8c7E8C1C6a3a1bB7a9c5b5e3b3a5a4a";
            KMS_VERIFIER :=
              or_else (REACT_APP_KMS_VERIFIER_CONTRACT process_env)
                "0x44b5Cc2Dd05AD5BBD48e5c3E8B3A5c4A2B5C8Ff5";
            ZAMA_ACL := "0x687820221192C5B662b25367F70076A37bc79b6c";
            ZAMA_GATEWAY := "0x848B0066793BcC60346Da1F49049357399B8D595" |}
  else None.

End Client.

(** ** [PublicKeyStorage] (fhevm.ts) *)

Module PublicKeyStorage.
Local Open Scope monad_scope.

Definition get (env : Env) (aclAddress : string) : M CachedKeys :=
  fun w =>
    let st := idb env (tick w) in
    if opens st then
      let storedPublicKey :=
        if key_request_ok st then publicKeyStore w !! aclAddress else None in
      let storedPublicParams :=
        if params_request_ok st then paramsStore w !! aclAddress else None in
      let publicKey :=
        match storedPublicKey with
        | Some stored =>
            if negb (String.eqb (publicKeyId stored) "")
            then Present {| id := publicKeyId stored; data := publicKey stored |}
            else Absent
        | None => Absent
        end in
      (Ok {| cached_publicKey := publicKey;
             cached_publicParams := storedPublicParams |}, next w)
    else
      (Ok {| cached_publicKey := Null; cached_publicParams := None |}, next w).

Definition put_all (aclAddress : string)
    (publicKey : option FhevmStoredPublicKey)
    (publicParams : option FhevmStoredPublicParams) (w : World) : World :=
  {| tick := tick w; network_calls := network_calls w;
     publicKeyStore :=
       match publicKey with
       | Some pk => <[aclAddress := pk]> (publicKeyStore w)
       | None => publicKeyStore w
       end;
     paramsStore :=
       match publicParams with
       | Some pp => <[aclAddress := pp]> (paramsStore w)
       | None => paramsStore w
       end;
     relayerSDK := relayerSDK w; script_tag := script_tag w;
     status_writes := status_writes w |}.

Definition set (env : Env) (aclAddress : string)
    (publicKey : option FhevmStoredPublicKey)
    (publicParams : option FhevmStoredPublicParams) : M unit :=
  fun w =>
    let st := idb env (tick w) in
    if opens st && commits st
    then (Ok tt, next (put_all aclAddress publicKey publicParams w))
    else (Ok tt, next w).

End PublicKeyStorage.

(** ** The SDK loader and [createFhevmInstance] (fhevm.ts) *)

Module Loader.
Local Open Scope monad_scope.

Definition isFhevmRelayerSDKType (o : RelayerSDK) : bool :=
  has_initSDK o && has_createInstance o && has_SepoliaConfig o.

Definition isValidRelayerSDK (w : World) : bool :=
  match relayerSDK w with
  | Some o => isFhevmRelayerSDKType o
  | None => false
  end.

Definition install (o : option RelayerSDK) (w : World) : World :=
  {| tick := tick w; network_calls := network_calls w;
     publicKeyStore := publicKeyStore w; paramsStore := paramsStore w;
     relayerSDK := o; script_tag := true;
     status_writes := status_writes w |}.

Definition load (env : Env) : M unit :=
  fun w =>
    match relayerSDK w with
    | Some o =>
        if isFhevmRelayerSDKType o then (Ok tt, w)
        else (Throw "RelayerSDKLoader: Unable to load FHEVM Relayer SDK", w)
    | None =>
        if script_tag w then
          (Throw "RelayerSDKLoader: window object does not contain a valid relayerSDK object.", w)
        else
          match scriptLoad env (tick w) with
          | Ok o =>
              let w' := next (install o w) in
              if isValidRelayerSDK w' then (Ok tt, w')
              else (Throw "RelayerSDKLoader: the window.relayerSDK object is invalid.", w')
          | Throw _ =>
              (Throw "RelayerSDKLoader: Failed to load Relayer SDK", next (install None w))
          end
    end.

End Loader.

Module Factory.
Local Open Scope monad_scope.

Definition CANCELLED : string := "FHEVM operation was cancelled".

Definition aborted (env : Env) (t : nat) : bool :=
  match abortTime env with
  | Some n => (n <=? t)%nat
  | None => false
  end.

Definition throwIfAborted (env : Env) : M unit :=
  fun w => if aborted env (tick w) then (Throw CANCELLED, w) else (Ok tt, w).

(** The module-level [getChainId]. *)
Definition getChainId (env : Env) (p : Provider) : M Z :=
  match p with
  | RpcUrl _ => rpc "getNetwork" (networkChainId env)
  | BrowserProvider =>
      try_catch (rpc "getNetwork" (networkChainId env))
                (fun _ => rpc "eth_chainId" (networkChainId env))
  end.

(** [encrypt()] of the mock instance. *)
Definition mockEncrypt (now : Z) (contractAddress userAddress : string)
    : result Encrypted :=
  (contractBytes <-? Ethers.getBytes contractAddress;
   userBytes <-? Ethers.getBytes userAddress;
   hexNow <-? Ethers.toBeHex now;
   nowBytes <-? Ethers.zeroPadValue hexNow 8;
   inputProof <-? Ethers.encode
     [Ethers.string_t; Ethers.address; Ethers.address; Ethers.uint 256]
     [Ethers.ArgString "MOCK_PROOF"; Ethers.ArgString contractAddress;
      Ethers.ArgString userAddress; Ethers.ArgNumber now];
   Ok {| handles :=
           [Ethers.hexlify (Ethers.keccak256
              (Ethers.toUtf8Bytes "MOCK_HANDLE" ++ contractBytes ++ userBytes
                 ++ nowBytes))];
         inputProof := Some (Ethers.hexlify inputProof) |})%result.

Definition mockInstance (env : Env) : FhevmInstance :=
  {| encrypt_input := fun t contractAddress userAddress _ =>
       mockEncrypt (dateNow env t) contractAddress userAddress;
     getPublicKey :=
       Some {| publicKeyId := "mock-dev"; publicKey := repeat x00 32 |};
     getPublicParams :=
       Some {| publicParamsId := "mock-params"; publicParams := repeat x00 2048 |} |}.

Definition default_mockChains : gmap Z string :=
  {[ 31337 := "http://localhost:8545" ]}.

Definition createFhevmInstance (env : Env) (providerOrUrl : Provider)
    (mockChains : gmap Z string) : M FhevmInstance :=
  chain <- getChainId env providerOrUrl;;
  let _mockChains := mockChains ∪ default_mockChains in
  let isMock := bool_decide (is_Some (_mockChains !! chain)) in
  let rpcUrl :=
    match providerOrUrl with
    | RpcUrl url => Some url
    | BrowserProvider => _mockChains !! chain
    end in
  if isMock && truthy rpcUrl then
    throwIfAborted env;;
    ret (mockInstance env)
  else
    throwIfAborted env;;
    w <- get_state;;
    (if negb (Loader.isValidRelayerSDK w)
     then Loader.load env;; throwIfAborted env
     else ret tt);;
    w <- get_state;;
    match relayerSDK w with
    | None => throw "Cannot read properties of undefined"
    | Some sdk =>
        match initialized_flag sdk with
        | Some true => ret tt
        | _ => ask_result (initSDK env);; throwIfAborted env
        end;;
        let aclAddress := aclContractAddress sdk in
        if negb (Ethers.isAddress aclAddress)
        then throw ("Invalid ACL address: " +:+ aclAddress)
        else
          cached <- PublicKeyStorage.get env aclAddress;;
          throwIfAborted env;;
          try_catch
            (instance <- ask_result (fun t => createInstance env t cached);;
             PublicKeyStorage.set env aclAddress
               (getPublicKey instance) (getPublicParams instance);;
             throwIfAborted env;;
             ret instance)
            (fun message => throw message)
    end.

(** The signal of an [AbortController] nobody aborts. *)
Definition never_aborted (env : Env) : Env := with_abortTime None env.

(** [FHEVMClient.initialize]: the signal is that of a fresh
    [AbortController]. *)
Definition initialize (env : Env) (c : FHEVMClient) : M FHEVMClient :=
  try_catch
    (instance <- createFhevmInstance (never_aborted env) (provider c)
                   default_mockChains;;
     ret {| provider := provider c; chainId := chainId c;
            fhevmInstance := Some instance |})
    (fun _ =>
       ret {| provider := provider c; chainId := chainId c;
              fhevmInstance := None |}).

Definition createFHEVMClient (env : Env) (providerOrUrl : Provider) : M FHEVMClient :=
  chain <- getChainId env providerOrUrl;;
  initialize env {| provider := providerOrUrl; chainId := chain;
                    fhevmInstance := None |}.

End Factory.

(** ** [FHEVMMetaManager] (fhevm-meta.ts) *)

(** A parameter value: [number | boolean]. *)
Inductive js_scalar := JNumber (z : Z) | JBool (b : bool).

Record Param := {
  param_name : string;
  param_value : js_scalar;
  param_type : fhe_type
}.

Record EncryptedParameter := {
  ep_name : string;
  ep_type : fhe_type;
  ep_handle : string;
  ep_proof : string;
  ep_originalValue : js_scalar
}.

Record FHEMetaTransaction := {
  tx_id : string;
  tx_contractAddress : string;
  tx_functionName : string;
  tx_encryptedParams : list EncryptedParameter;
  tx_userAddress : string;
  tx_timestamp : Z;
  tx_chainId : Z;
  tx_status : TxStatus;
  tx_txHash : option string;
  tx_blockNumber : option Z;
  tx_gasUsed : option string
}.

#[global] Instance fhe_type_eq_dec : EqDecision fhe_type.
Proof. solve_decision. Defined.
#[global] Instance TxStatus_eq_dec : EqDecision TxStatus.
Proof. solve_decision. Defined.
#[global] Instance js_scalar_eq_dec : EqDecision js_scalar.
Proof. solve_decision. Defined.
#[global] Instance EncryptedParameter_eq_dec : EqDecision EncryptedParameter.
Proof. solve_decision. Defined.
#[global] Instance FHEMetaTransaction_eq_dec : EqDecision FHEMetaTransaction.
Proof. solve_decision. Defined.

Record FHEVMMetaManager := {
  m_fhevmClient : option FHEVMClient;
  m_chainId : Z;
  m_contractAddress : string;
  m_isInitialized : bool
}.

Record TransactionStatus := {
  confirmed : bool;
  ts_blockNumber : option Z;
  confirmations : Z;
  ts_gasUsed : option string
}.

Record Verification := {
  isValid : bool;
  v_blockNumber : option Z;
  v_gasUsed : option string;
  v_status : option Z;
  v_contractAddress : option string
}.

Module Manager.
Local Open Scope monad_scope.

Definition NOT_INITIALIZED : string := "FHEVMMetaManager not initialized".

Definition new (chain : Z) (contractAddress : string) : FHEVMMetaManager :=
  {| m_fhevmClient := None; m_chainId := chain;
     m_contractAddress := contractAddress; m_isInitialized := false |}.

Definition initialize (env : Env) (m : FHEVMMetaManager) : M FHEVMMetaManager :=
  try_catch
    (client <- Factory.createFHEVMClient env BrowserProvider;;
     ret {| m_fhevmClient := Some client; m_chainId := m_chainId m;
            m_contractAddress := m_contractAddress m; m_isInitialized := true |})
    (fun message =>
       throw ("FHEVM Meta Manager initialization failed: " +:+ message)).

Definition createFHEVMMetaManager (env : Env) (chain : Z) (contractAddress : string)
    : M FHEVMMetaManager :=
  initialize env (new chain contractAddress).

(** [Boolean(v)] and [Number(v)]. *)
Definition to_boolean (v : js_scalar) : bool :=
  match v with
  | JNumber z => Client.truthy_number z
  | JBool b => b
  end.

Definition to_number (v : js_scalar) : Z :=
  match v with
  | JNumber z => z
  | JBool b => if b then 1 else 0
  end.

Definition encryptParam (env : Env) (client : FHEVMClient)
    (contractAddress : string) (param : Param) : M EncryptedParameter :=
  try_catch
    (encryptedInput <-
       match param_type param with
       | ebool =>
           Client.createEncryptedBoolInput env client contractAddress
             (to_boolean (param_value param))
       | type =>
           Client.createEncryptedInput env client contractAddress
             (to_number (param_value param)) type
       end;;
     ret {| ep_name := param_name param; ep_type := param_type param;
            ep_handle := handle encryptedInput; ep_proof := proof encryptedInput;
            ep_originalValue := param_value param |})
    (fun message =>
       throw ("Failed to encrypt parameter " +:+ param_name param +:+ ": " +:+ message)).

Fixpoint encryptAll (env : Env) (client : FHEVMClient) (contractAddress : string)
    (params : list Param) : M (list EncryptedParameter) :=
  match params with
  | [] => ret []
  | param :: rest =>
      p <- encryptParam env client contractAddress param;;
      ps <- encryptAll env client contractAddress rest;;
      ret (p :: ps)
  end.

Definition createEncryptedParams (env : Env) (m : FHEVMMetaManager)
    (functionName : string) (params : list Param) : M (list EncryptedParameter) :=
  match m_fhevmClient m with
  | Some client =>
      if m_isInitialized m
      then encryptAll env client (m_contractAddress m) params
      else throw NOT_INITIALIZED
  | None => throw NOT_INITIALIZED
  end.

(** An assignment to [metaTx.status] (the initial one included). *)
Definition write_status (txId : string) (s : TxStatus) : M unit :=
  modify (fun w =>
    {| tick := tick w; network_calls := network_calls w;
       publicKeyStore := publicKeyStore w; paramsStore := paramsStore w;
       relayerSDK := relayerSDK w; script_tag := script_tag w;
       status_writes := (txId, s) :: status_writes w |}).

Definition with_receipt (metaTx : FHEMetaTransaction) (s : TxStatus)
    (txHash : string) (blockNumber : Z) (gasUsed : string) : FHEMetaTransaction :=
  {| tx_id := tx_id metaTx; tx_contractAddress := tx_contractAddress metaTx;
     tx_functionName := tx_functionName metaTx;
     tx_encryptedParams := tx_encryptedParams metaTx;
     tx_userAddress := tx_userAddress metaTx;
     tx_timestamp := tx_timestamp metaTx; tx_chainId := tx_chainId metaTx;
     tx_status := s; tx_txHash := Some txHash;
     tx_blockNumber := Some blockNumber; tx_gasUsed := Some gasUsed |}.

(** The arguments of the call: handle and proof of every parameter. *)
Definition txParamsOf (encryptedParams : list EncryptedParameter) : list string :=
  flat_map (fun param => [ep_handle param; ep_proof param]) encryptedParams.

Definition executeMetaTransaction (env : Env) (m : FHEVMMetaManager)
    (functionName : string) (encryptedParams : list EncryptedParameter)
    : M FHEMetaTransaction :=
  match m_fhevmClient m with
  | None => throw NOT_INITIALIZED
  | Some _ =>
      if negb (m_isInitialized m) then throw NOT_INITIALIZED
      else
        userAddress <- rpc "getSigner" (signerAddress env);;
        idNow <- ask (dateNow env);;
        idRandom <- ask (randomId env);;
        let transactionId :=
          "fhe_meta_" +:+ string_of_Z idNow +:+ "_" +:+ idRandom in
        timestamp <- ask (dateNow env);;
        let metaTx :=
          {| tx_id := transactionId;
             tx_contractAddress := m_contractAddress m;
             tx_functionName := functionName;
             tx_encryptedParams := encryptedParams;
             tx_userAddress := userAddress;
             tx_timestamp := timestamp;
             tx_chainId := m_chainId m;
             tx_status := pending;
             tx_txHash := None; tx_blockNumber := None; tx_gasUsed := None |} in
        write_status transactionId pending;;
        try_catch
          (_ <- rpc "getSigner" (signerAddress env);;
           if negb (contractHas env functionName)
           then throw ("Function " +:+ functionName +:+ " not found in contract")
           else
             let txParams := txParamsOf encryptedParams in
             write_status transactionId processing;;
             txHash <- rpc "sendTransaction"
                         (fun t => sendTransaction env t functionName txParams);;
             receipt <- rpc "wait" (waitReceipt env);;
             gasUsed <- match receipt_gasUsed receipt with
                        | Some g => ret (string_of_Z g)
                        | None => throw "Cannot read properties of undefined (reading 'toString')"
                        end;;
             let final := if receipt_status receipt =? 1 then completed else failed in
             write_status transactionId final;;
             ret (with_receipt metaTx final txHash
                    (receipt_blockNumber receipt) gasUsed))
          (fun message =>
             write_status transactionId failed;;
             throw ("Meta transaction failed: " +:+ message))
  end.

Definition no_verification : Verification :=
  {| isValid := false; v_blockNumber := None; v_gasUsed := None;
     v_status := None; v_contractAddress := None |}.

Definition verifyTransaction (env : Env) (txHash : string) : M Verification :=
  try_catch
    (receipt <- rpc "getTransactionReceipt" (getTransactionReceipt env);;
     match receipt with
     | None => ret no_verification
     | Some r =>
         match receipt_gasUsed r with
         | Some g =>
             ret {| isValid := true; v_blockNumber := Some (receipt_blockNumber r);
                    v_gasUsed := Some (string_of_Z g);
                    v_status := Some (receipt_status r);
                    v_contractAddress := Some (receipt_to r) |}
         | None => throw "Cannot read properties of undefined (reading 'toString')"
         end
     end)
    (fun _ => ret no_verification).

Definition getTransactionStatus (env : Env) (txHash : string) : M TransactionStatus :=
  answers <- all2 (rpc "getTransactionReceipt" (getTransactionReceipt env))
                  (rpc "getBlockNumber" (getBlockNumber env));;
  let '(receipt, currentBlock) := answers in
  match receipt with
  | None =>
      ret {| confirmed := false; ts_blockNumber := None; confirmations := 0;
             ts_gasUsed := None |}
  | Some r =>
      match receipt_gasUsed r with
      | Some g =>
          ret {| confirmed := receipt_status r =? 1;
                 ts_blockNumber := Some (receipt_blockNumber r);
                 confirmations := currentBlock - receipt_blockNumber r;
                 ts_gasUsed := Some (string_of_Z g) |}
      | None => throw "Cannot read properties of undefined (reading 'toString')"
      end
  end.

Definition isReady (m : FHEVMMetaManager) : bool :=
  m_isInitialized m &&
  match m_fhevmClient m with
  | Some client => Client.isReady client
  | None => false
  end.

Definition getSupportedNetworks : list Z := [11155111; 31337].

Definition isNetworkSupported (chain : Z) : bool :=
  existsb (Z.eqb chain) getSupportedNetworks.

(** [readEncryptedValue].  [call t functionName] is what
    [contract[functionName]()] resolves to when it is asked at [t]. *)
Definition readEncryptedValue {A} (env : Env) (call : nat -> string -> result A)
    (m : FHEVMMetaManager) (functionName : string) : M A :=
  if negb (m_isInitialized m) then throw NOT_INITIALIZED
  else
    try_catch
      (if negb (contractHas env functionName)
       then throw ("Function " +:+ functionName +:+ " not found in contract")
       else rpc "call" (fun t => call t functionName))
      (fun message => throw message).

Definition generateTransactionId (env : Env) : M string :=
  now <- ask (dateNow env);;
  random <- ask (randomId env);;
  ret ("fhe_meta_" +:+ string_of_Z now +:+ "_" +:+ random).

Definition getEtherscanUrl (chain : Z) (txHash : string) : string :=
  if chain =? 11155111 then "https://sepolia.etherscan.io/tx/" +:+ txHash
  else if chain =? 1 then "https://etherscan.io/tx/" +:+ txHash
  else "#".

End Manager.

(** ** The hook (hooks/useFHEVMMetaTransactions.ts) *)

Record FHEVMMetaHookState := {
  isInitialized : bool;
  isLoading : bool;
  error : option string;
  transactions : list FHEMetaTransaction;
  currentTransaction : option FHEMetaTransaction
}.

(** The hook: its React state and its two refs. *)
Record Hook := {
  state : FHEVMMetaHookState;
  metaManagerRef : option FHEVMMetaManager;
  chainIdRef : option Z
}.

Module HookActions.
Local Open Scope monad_scope.

(** The hook's code runs over its own state and the browser's. *)
Definition H (A : Type) : Type := ST (Hook * World) A.

Definition in_world {A} (m : M A) : H A :=
  fun '(h, w) => let '(r, w') := m w in (r, (h, w')).

Definition setState (f : FHEVMMetaHookState -> FHEVMMetaHookState) : H unit :=
  modify (fun '(h, w) =>
    ({| state := f (state h); metaManagerRef := metaManagerRef h;
        chainIdRef := chainIdRef h |}, w)).

Definition setManager (m : FHEVMMetaManager) : H unit :=
  modify (fun '(h, w) =>
    ({| state := state h; metaManagerRef := Some m; chainIdRef := chainIdRef h |}, w)).

Definition setChainId (chain : Z) : H unit :=
  modify (fun '(h, w) =>
    ({| state := state h; metaManagerRef := metaManagerRef h;
        chainIdRef := Some chain |}, w)).

Definition initialState : FHEVMMetaHookState :=
  {| isInitialized := false; isLoading := false; error := None;
     transactions := []; currentTransaction := None |}.

Definition initialHook : Hook :=
  {| state := initialState; metaManagerRef := None; chainIdRef := None |}.

Definition loading (s : FHEVMMetaHookState) : FHEVMMetaHookState :=
  {| isInitialized := isInitialized s; isLoading := true; error := None;
     transactions := transactions s; currentTransaction := currentTransaction s |}.

Definition initialized (s : FHEVMMetaHookState) : FHEVMMetaHookState :=
  {| isInitialized := true; isLoading := false; error := None;
     transactions := transactions s; currentTransaction := currentTransaction s |}.

Definition initialization_failed (message : string) (s : FHEVMMetaHookState)
    : FHEVMMetaHookState :=
  {| isInitialized := false; isLoading := false;
     error := Some ("Initialization failed: " +:+ message);
     transactions := transactions s; currentTransaction := currentTransaction s |}.

Definition transaction_failed (message : string) (s : FHEVMMetaHookState)
    : FHEVMMetaHookState :=
  {| isInitialized := isInitialized s; isLoading := false;
     error := Some ("Transaction failed: " +:+ message);
     transactions := transactions s; currentTransaction := currentTransaction s |}.

Definition transaction_done (metaTx : FHEMetaTransaction)
    (history : list FHEMetaTransaction) (s : FHEVMMetaHookState)
    : FHEVMMetaHookState :=
  {| isInitialized := isInitialized s; isLoading := false; error := None;
     transactions := metaTx :: history; currentTransaction := Some metaTx |}.

Definition with_transactions (txs : list FHEMetaTransaction)
    (s : FHEVMMetaHookState) : FHEVMMetaHookState :=
  {| isInitialized := isInitialized s; isLoading := isLoading s; error := error s;
     transactions := txs; currentTransaction := currentTransaction s |}.

(** [initialize]: every failure ends in the [error] of the state. *)
Definition initialize (env : Env) (contractAddress : string) : H unit :=
  try_catch
    (setState loading;;
     chain <- in_world (rpc "getNetwork" (networkChainId env));;
     setChainId chain;;
     if negb (Manager.isNetworkSupported chain)
     then throw ("Network " +:+ string_of_Z chain
                   +:+ " is not supported for FHEVM operations")
     else
       manager <- in_world (Manager.createFHEVMMetaManager env chain contractAddress);;
       setManager manager;;
       setState initialized)
    (fun message => setState (initialization_failed message)).

Definition NOT_INITIALIZED : string := "FHEVM Meta Manager not initialized".

(** [executeMetaTransaction].  [captured] is the [state] the callback
    closed over when it was created: its dependency list is
    [[updateState]], so it is the state of the first render. *)
Definition executeMetaTransaction (env : Env) (captured : FHEVMMetaHookState)
    (functionName : string) (params : list Param) : H FHEMetaTransaction :=
  hw <- get_state;;
  match metaManagerRef (fst hw) with
  | None => throw NOT_INITIALIZED
  | Some manager =>
      try_catch
        (setState loading;;
         encryptedParams <-
           in_world (Manager.createEncryptedParams env manager functionName params);;
         metaTx <-
           in_world (Manager.executeMetaTransaction env manager functionName
                       encryptedParams);;
         setState (transaction_done metaTx (transactions captured));;
         ret metaTx)
        (fun message =>
           setState (transaction_failed message);;
           throw message)
  end.

Definition getTransactionStatus (env : Env) (txHash : string) : H TransactionStatus :=
  hw <- get_state;;
  match metaManagerRef (fst hw) with
  | None => throw NOT_INITIALIZED
  | Some _ => in_world (Manager.getTransactionStatus env txHash)
  end.

Definition with_status (tx : FHEMetaTransaction) (s : TxStatus) : FHEMetaTransaction :=
  {| tx_id := tx_id tx; tx_contractAddress := tx_contractAddress tx;
     tx_functionName := tx_functionName tx;
     tx_encryptedParams := tx_encryptedParams tx;
     tx_userAddress := tx_userAddress tx;
     tx_timestamp := tx_timestamp tx; tx_chainId := tx_chainId tx;
     tx_status := s; tx_txHash := tx_txHash tx;
     tx_blockNumber := tx_blockNumber tx; tx_gasUsed := tx_gasUsed tx |}.

Definition is_terminal (s : TxStatus) : bool :=
  match s with
  | completed | failed => true
  | _ => false
  end.

(** One transaction of the refresh. *)
Definition refreshOne (env : Env) (tx : FHEMetaTransaction) : H FHEMetaTransaction :=
  if is_terminal (tx_status tx) || negb (truthy (tx_txHash tx)) then ret tx
  else
    match tx_txHash tx with
    | None => ret tx
    | Some txHash =>
        try_catch
          (status <- getTransactionStatus env txHash;;
           ret (with_status tx
                  (if confirmed status then completed else tx_status tx)))
          (fun _ => ret tx)
    end.

Fixpoint refreshAll (env : Env) (txs : list FHEMetaTransaction)
    : H (list FHEMetaTransaction) :=
  match txs with
  | [] => ret []
  | tx :: rest =>
      tx' <- refreshOne env tx;;
      rest' <- refreshAll env rest;;
      ret (tx' :: rest')
  end.

(** [updateTransactionStatuses], the body of the ten-second interval,
    over the [state] of the render that started the interval. *)
Definition updateTransactionStatuses (env : Env) (rendered : FHEVMMetaHookState)
    : H unit :=
  updatedTransactions <- refreshAll env (transactions rendered);;
  if bool_decide (updatedTransactions = transactions rendered) then ret tt
  else setState (with_transactions updatedTransactions).

(** [updateState({ error })]. *)
Definition with_error (e : option string) (s : FHEVMMetaHookState)
    : FHEVMMetaHookState :=
  {| isInitialized := isInitialized s; isLoading := isLoading s; error := e;
     transactions := transactions s; currentTransaction := currentTransaction s |}.

(** [updateState({ isLoading: false, error })]. *)
Definition settled (e : option string) (s : FHEVMMetaHookState)
    : FHEVMMetaHookState :=
  {| isInitialized := isInitialized s; isLoading := false; error := e;
     transactions := transactions s; currentTransaction := currentTransaction s |}.

(** [verifyTransaction]: [verification.isValid && verification.status === 1]. *)
Definition verifyTransaction (env : Env) (txHash : string) : H bool :=
  hw <- get_state;;
  match metaManagerRef (fst hw) with
  | None => throw NOT_INITIALIZED
  | Some _ =>
      try_catch
        (verification <- in_world (Manager.verifyTransaction env txHash);;
         ret (isValid verification &&
              match v_status verification with
              | Some status => status =? 1
              | None => false
              end))
        (fun message =>
           setState (with_error (Some ("Verification failed: " +:+ message)));;
           ret false)
  end.

Definition readEncryptedValue {A} (env : Env) (call : nat -> string -> result A)
    (functionName : string) : H A :=
  hw <- get_state;;
  match metaManagerRef (fst hw) with
  | None => throw NOT_INITIALIZED
  | Some manager =>
      try_catch
        (setState loading;;
         result <- in_world (Manager.readEncryptedValue env call manager functionName);;
         setState (settled None);;
         ret result)
        (fun message =>
           setState (settled (Some ("Read failed: " +:+ message)));;
           throw message)
  end.

Definition clearError : H unit := setState (with_error None).

(** [updateState({ transactions: [], currentTransaction: null })]. *)
Definition clearTransactions : H unit :=
  setState (fun s =>
    {| isInitialized := isInitialized s; isLoading := isLoading s; error := error s;
       transactions := []; currentTransaction := None |}).

End HookActions.

(** ** The contract of the engine

    The instance is not part of the repository.  Its interface promises
    [handles: bytes32[]]: whatever handle [encrypt()] returns is the hex
    text of 32 bytes. *)
Definition engine_contract (instance : FhevmInstance) : Prop :=
  forall t contractAddress userAddress added encrypted h,
    encrypt_input instance t contractAddress userAddress added = Ok encrypted ->
    In h (handles encrypted) ->
    Ethers.isHexString h 32 = true.

(** ** Where a result of the builder comes from *)

Inductive origin (c : FHEVMClient) (contractAddress : string) (value : Z)
    (type : fhe_type) (r : EncryptedInput) : Prop :=
| from_engine (instance : FhevmInstance) (t : nat) (userAddress : string)
    (encrypted : Encrypted) :
    fhevmInstance c = Some instance ->
    chainId c = Client.SEPOLIA ->
    encrypt_input instance t contractAddress userAddress (Client.added value type)
    = Ok encrypted ->
    head (handles encrypted) = Some (handle r) ->
    inputProof encrypted = Some (proof r) ->
    handle r <> "" -> proof r <> "" ->
    origin c contractAddress value type r
| from_fallback (userAddress : string) (timestamp nonce : Z) :
    Client.compatibleEncoding contractAddress userAddress value type timestamp nonce
    = Ok r ->
    origin c contractAddress value type r
| from_minimal_fallback :
    Client.minimalEncoding contractAddress value = Ok r ->
    origin c contractAddress value type r.

(** ** Well-typed inputs of the builder *)

(** An address written as "0x" and forty hex digits (with a valid
    checksum when in mixed case): both [getBytes] and the ABI coder
    accept it. *)
Definition hex_address (s : string) : bool :=
  Ethers.isAddress s && is_ok (Ethers.getBytes s).

(** A contract address the ABI coder accepts, and a value that is a
    non-negative integer [number]: every [uint32], and [0]/[1] for a
    boolean. *)
Definition well_typed (contractAddress : string) (value : Z) : Prop :=
  Ethers.isAddress contractAddress = true
  /\ 0 <= value <= Ethers.MAX_SAFE_INTEGER.

(** ** Reading an error message *)


(** ** What an operation does to the cache *)

Definition same_cache (w w' : World) : Prop :=
  publicKeyStore w' = publicKeyStore w /\ paramsStore w' = paramsStore w.


(** ** A store that works *)

Definition working (st : IdbStatus) : bool :=
  opens st && key_request_ok st && params_request_ok st && commits st.

(** ** The order of the lifecycle *)

Module Lifecycle.

(** pending < processing < {completed, failed}. *)
Definition rank (s : TxStatus) : nat :=
  match s with
  | pending => 0
  | processing => 1
  | completed | failed => 2
  end.

(** What may happen to a status: it stays, or it moves up the order. *)
Definition moves (s s' : TxStatus) : Prop :=
  s' = s \/ (rank s < rank s')%nat.


End Lifecycle.

(** ** A concrete run

    The end-to-end scenario: contract 0xAA..AA, user 0xBB..BB, a wallet
    on Sepolia, a working store, and an empty browser. *)

Module Scenario.

Definition contractAA : string := "0xAAAAAAAAAAAAAAAAAAAAAAAAAAAAAAAAAAAAAAAA".
Definition userBB : string := "0xBBBBBBBBBBBBBBBBBBBBBBBBBBBBBBBBBBBBBBBB".

Definition working_idb : IdbStatus :=
  {| opens := true; key_request_ok := true; params_request_ok := true;
     commits := true |}.

Definition broken_idb : IdbStatus :=
  {| opens := false; key_request_ok := false; params_request_ok := false;
     commits := false |}.

Definition receipt (status : Z) : Receipt :=
  {| receipt_blockNumber := 100; receipt_gasUsed := Some 21000;
     receipt_status := status; receipt_to := contractAA |}.

(** The environment, by the chain the wallet is on and the nonce the
    random generator gives. *)
Definition env (chain nonce : Z) : Env :=
  {| dateNow := fun _ => 1700000000123;
     randomNonce := fun _ => nonce;
     signerAddress := fun _ => Ok userBB;
     networkChainId := fun _ => Ok chain;
     abortTime := None;
     scriptLoad := fun _ => Throw "net::ERR_FAILED";
     initSDK := fun _ => Ok tt;
     createInstance := fun _ _ => Throw "relayer unreachable";
     idb := fun _ => working_idb;
     contractHas := fun _ => true;
     sendTransaction := fun _ _ _ => Ok "0x11";
     waitReceipt := fun _ => Ok (receipt 1);
     getTransactionReceipt := fun _ => Ok (Some (receipt 1));
     getBlockNumber := fun _ => Ok 101;
     randomId := fun _ => "k3j9x0q2a" |}.

Definition world0 : World :=
  {| tick := 0; network_calls := []; publicKeyStore := ∅; paramsStore := ∅;
     relayerSDK := None; script_tag := false; status_writes := [] |}.



Definition engine_key : FhevmStoredPublicKey :=
  {| publicKeyId := "key-1"; publicKey := [x01; x02] |}.

Definition engine_params : FhevmStoredPublicParams :=
  {| publicParamsId := "params-1"; publicParams := [x03] |}.



(** The call of the end-to-end scenario: vote(support = true). *)
Definition vote_params : list Param :=
  [{| param_name := "support"; param_value := JBool true; param_type := ebool |}].



(** A client on Sepolia without an engine instance. *)
Definition client_without_engine : FHEVMClient :=
  {| provider := BrowserProvider; chainId := 11155111; fhevmInstance := None |}.

(** A client on Sepolia holding the mock instance. *)
Definition client_with_engine : FHEVMClient :=
  {| provider := BrowserProvider; chainId := 11155111;
     fhevmInstance := Some (Factory.mockInstance (env 11155111 424242)) |}.

End Scenario.

(** ** Reading an encoding back *)

(** [represents t a v]: the decoded value [v] is the argument [a], read
    at type [t] (an address comes back checksummed). *)
Definition represents (t : Ethers.abi_type) (a : Ethers.abi_arg)
    (v : Ethers.abi_value) : Prop :=
  match t, a, v with
  | Ethers.bytes32, Ethers.ArgHex bs, Ethers.ValBytes32 bs' => bs' = bs
  | Ethers.address, Ethers.ArgString s, Ethers.ValAddress a' => Ethers.getAddress s = Ok a'
  | Ethers.uint _, Ethers.ArgNumber z, Ethers.ValUint z' => z' = z
  | Ethers.bool_t, Ethers.ArgBool b, Ethers.ValBool b' => b' = b
  | _, _, _ => False
  end.

(** ** What the key store shows, and what a parameter stands for *)

(** What [PublicKeyStorage.get] shows of a stored key: nothing when its
    id is the empty string. *)
Definition shown (stored : FhevmStoredPublicKey) : js_field PublicKeyEntry :=
  if String.eqb (publicKeyId stored) "" then Absent
  else Present {| id := publicKeyId stored; data := publicKey stored |}.

(** The number a parameter is encrypted as: 0 or 1 for an [ebool]. *)
Definition plain_value (p : Param) : Z :=
  match param_type p with
  | ebool => if Manager.to_boolean (param_value p) then 1 else 0
  | _ => Manager.to_number (param_value p)
  end.

(** What an encrypted parameter has to do with the parameter it was
    made from. *)
Definition encrypts (client : FHEVMClient) (contractAddress : string)
    (p : Param) (ep : EncryptedParameter) : Prop :=
  ep_name ep = param_name p /\ ep_type ep = param_type p
  /\ ep_originalValue ep = param_value p
  /\ origin client contractAddress (plain_value p) (param_type p)
       {| handle := ep_handle ep; proof := ep_proof ep |}.

(** ** The history of the hook *)

Definition same_history (h h' : Hook) : Prop :=
  transactions (state h') = transactions (state h)
  /\ currentTransaction (state h') = currentTransaction (state h).

(** A transaction the refresh has nothing to ask about. *)
Definition settled_tx (tx : FHEMetaTransaction) : Prop :=
  HookActions.is_terminal (tx_status tx) = true \/ truthy (tx_txHash tx) = false.

(** ** What a proof gives away *)

(** [reveals value type proof]: the proof is the hex text of an ABI
    encoding that decodes, under one of the three tuples the fallbacks
    use, with the value in clear among the fields. *)
Definition reveals (value : Z) (type : fhe_type) (proofText : string) : Prop :=
  exists pb,
    proofText = Ethers.hexlify pb
    /\ ((exists f0 f1 f2 f4 f5,
           Ethers.decode Client.euint32_proof_types pb
           = Ok [f0; f1; f2; Ethers.ValUint value; f4; f5])
        \/ (exists f0 f1 f2 f4 f5,
              type <> euint32
              /\ Ethers.decode Client.ebool_proof_types pb
                 = Ok [f0; f1; f2; Ethers.ValBool (Client.truthy_number value); f4; f5])
        \/ (exists contract,
              Ethers.decode [Ethers.uint 256; Ethers.address] pb
              = Ok [Ethers.ValUint value; Ethers.ValAddress contract])).

(** ** The FHEVM context provider (providers/FHEVMProvider.tsx) *)

(** The part of the provider's state that [initializeFHEVM] writes. *)
Record FHEVMContext := {
  ctx_isReady : bool;
  ctx_networkSupported : bool;
  ctx_fhevmClient : option FHEVMClient;
  ctx_sdkStatus : string
}.

Module ContextProvider.
Local Open Scope monad_scope.

Definition P (A : Type) : Type := ST (FHEVMContext * World) A.

Definition in_world {A} (m : M A) : P A :=
  fun '(c, w) => let '(r, w') := m w in (r, (c, w')).

Definition setNetworkSupported (b : bool) : P unit :=
  modify (fun '(c, w) =>
    ({| ctx_isReady := ctx_isReady c; ctx_networkSupported := b;
        ctx_fhevmClient := ctx_fhevmClient c; ctx_sdkStatus := ctx_sdkStatus c |}, w)).

Definition setIsReady (b : bool) : P unit :=
  modify (fun '(c, w) =>
    ({| ctx_isReady := b; ctx_networkSupported := ctx_networkSupported c;
        ctx_fhevmClient := ctx_fhevmClient c; ctx_sdkStatus := ctx_sdkStatus c |}, w)).

Definition setFhevmClient (client : option FHEVMClient) : P unit :=
  modify (fun '(c, w) =>
    ({| ctx_isReady := ctx_isReady c; ctx_networkSupported := ctx_networkSupported c;
        ctx_fhevmClient := client; ctx_sdkStatus := ctx_sdkStatus c |}, w)).

Definition setSdkStatus (status : string) : P unit :=
  modify (fun '(c, w) =>
    ({| ctx_isReady := ctx_isReady c; ctx_networkSupported := ctx_networkSupported c;
        ctx_fhevmClient := ctx_fhevmClient c; ctx_sdkStatus := status |}, w)).

(** Truthiness of [chainId: number | null]. *)
Definition truthy_chain (chain : option Z) : bool :=
  match chain with
  | Some c => negb (c =? 0)
  | None => false
  end.

(** [initializeFHEVM], the body of the effect; [hasProvider] says that
    the wallet context holds a [BrowserProvider]. *)
Definition initializeFHEVM (env : Env) (hasProvider : bool)
    (account : option string) (chain : option Z) : P unit :=
  match chain with
  | Some c =>
      if negb (truthy_chain chain) || negb hasProvider then
        setNetworkSupported false;; setIsReady false;; setFhevmClient None
      else
        let isSupported := (c =? 11155111) || (c =? 31337) in
        setNetworkSupported isSupported;;
        if isSupported && hasProvider && truthy account then
          try_catch
            (setSdkStatus "initializing";;
             client <- in_world (Factory.createFHEVMClient env BrowserProvider);;
             setFhevmClient (Some client);;
             setIsReady (Client.isReady client);;
             setSdkStatus "ready")
            (fun _ =>
               setSdkStatus "error";; setFhevmClient None;; setIsReady false)
        else
          setIsReady false;; setFhevmClient None;; setSdkStatus "idle"
  | None =>
      setNetworkSupported false;; setIsReady false;; setFhevmClient None
  end.

End ContextProvider.

(** * Properties *)

(** ** Bytes and hexadecimal text *)

Module HexFacts.
Import Hex.

Lemma Z_of_byte_range (b : byte) : 0 <= Z_of_byte b < 256.
Proof.
  unfold Z_of_byte. pose proof (Byte.to_N_bounded b). lia.
Qed.

Lemma Z_of_byte_of_Z (z : Z) : Z_of_byte (byte_of_Z z) = z mod 256.
Proof.
  unfold byte_of_Z, Z_of_byte.
  pose proof (Z.mod_pos_bound z 256 ltac:(lia)) as Hr.
  destruct (Byte.of_N (Z.to_N (z mod 256))) as [b|] eqn:E.
  - apply Byte.to_of_N in E. rewrite E. lia.
  - apply Byte.of_N_None_iff in E. lia.
Qed.

Lemma byte_of_Z_of_byte (b : byte) : byte_of_Z (Z_of_byte b) = b.
Proof.
  unfold byte_of_Z. rewrite Z.mod_small by apply Z_of_byte_range.
  unfold Z_of_byte. rewrite N2Z.id, Byte.of_to_N. reflexivity.
Qed.

Lemma digit_round_trip (b : byte) :
  digit_value (digit (Z_of_byte b / 16)) = Some (Z_of_byte b / 16)
  /\ digit_value (digit (Z_of_byte b mod 16)) = Some (Z_of_byte b mod 16)
  /\ byte_of_Z (16 * (Z_of_byte b / 16) + Z_of_byte b mod 16) = b.
Proof.
  rewrite <- Z.div_mod by lia. rewrite byte_of_Z_of_byte.
  destruct b; vm_compute; auto.
Qed.

Lemma digits_length (bs : list byte) :
  String.length (digits bs) = (2 * length bs)%nat.
Proof.
  induction bs as [|b bs IH]; simpl; [reflexivity|]. rewrite IH. lia.
Qed.

Lemma parse_digits (bs : list byte) : parse (digits bs) = Some bs.
Proof.
  induction bs as [|b bs IH]; [reflexivity|].
  destruct (digit_round_trip b) as (Hh & Hl & Hb).
  cbn [digits parse]. rewrite Hh, Hl, IH, Hb. reflexivity.
Qed.

Lemma parse_length_bounded (n : nat) :
  forall s bs, (String.length s <= n)%nat -> parse s = Some bs ->
    String.length s = (2 * length bs)%nat.
Proof.
  induction n as [|n IH]; intros s bs Hn H.
  - destruct s; [|cbn in Hn; lia]. cbn in H. injection H as <-. reflexivity.
  - destruct s as [|hi [|lo rest]]; cbn [parse] in H.
    + injection H as <-. reflexivity.
    + discriminate.
    + destruct (digit_value hi), (digit_value lo); try discriminate.
      destruct (parse rest) as [bs'|] eqn:E; [|discriminate].
      injection H as <-. cbn in *. rewrite (IH rest bs'); [lia|lia|exact E].
Qed.

Lemma parse_length (s : string) (bs : list byte) :
  parse s = Some bs -> String.length s = (2 * length bs)%nat.
Proof. apply (parse_length_bounded (String.length s)). lia. Qed.

Lemma be_value_app (a b : list byte) (acc : Z) :
  be_value (a ++ b) acc = be_value b (be_value a acc).
Proof.
  revert acc. induction a as [|x a IH]; intros acc; cbn; [reflexivity|apply IH].
Qed.

Lemma be_value_zeros (n : nat) (bs : list byte) :
  be_value (repeat x00 n ++ bs) 0 = be_value bs 0.
Proof.
  induction n as [|n IH]; cbn; [reflexivity|exact IH].
Qed.

Lemma be_value_bound (bs : list byte) (acc : Z) :
  0 <= acc -> 0 <= be_value bs acc < (acc + 1) * 256 ^ Z.of_nat (length bs).
Proof.
  revert acc. induction bs as [|b bs IH]; intros acc Hacc.
  - cbn. lia.
  - cbn [be_value length]. pose proof (Z_of_byte_range b) as Hb.
    specialize (IH (256 * acc + Z_of_byte b) ltac:(lia)).
    rewrite Nat2Z.inj_succ, Z.pow_succ_r by lia.
    assert (0 < 256 ^ Z.of_nat (length bs)) by (apply Z.pow_pos_nonneg; lia).
    nia.
Qed.

(** [be_bytes] writes the base-256 digits of [z] in front of [acc]. *)
Lemma be_bytes_spec (fuel : nat) :
  forall z acc, 0 <= z < 256 ^ Z.of_nat fuel ->
    exists bs, be_bytes fuel z acc = bs ++ acc
               /\ be_value bs 0 = z
               /\ (length bs <= fuel)%nat
               /\ (0 < z -> (0 < length bs)%nat).
Proof.
  induction fuel as [|fuel IH]; intros z acc Hz.
  - exists []. cbn in *. repeat split; lia.
  - cbn [be_bytes]. destruct (z <=? 0) eqn:E.
    + apply Z.leb_le in E. exists []. cbn. repeat split; lia.
    + apply Z.leb_gt in E.
      rewrite Nat2Z.inj_succ, Z.pow_succ_r in Hz by lia.
      destruct (IH (z / 256) (byte_of_Z z :: acc)) as (bs & Hbs & Hv & Hl & _).
      { split; [apply Z.div_pos; lia|]. apply Z.div_lt_upper_bound; lia. }
      exists (bs ++ [byte_of_Z z]). rewrite Hbs, <- app_assoc. cbn [app].
      repeat split.
      * rewrite be_value_app. cbn. rewrite Hv, Z_of_byte_of_Z.
        pose proof (Z.div_mod z 256 ltac:(lia)). lia.
      * rewrite length_app. cbn. lia.
      * intros _. rewrite length_app. cbn. lia.
Qed.

End HexFacts.

(** ** The ethers utilities *)

Module EthersFacts.
Import Ethers.
Local Open Scope result_scope.

Lemma keccak256_length (data : list byte) : length (keccak256 data) = 32%nat.
Proof. reflexivity. Qed.

Lemma hexlify_length (bs : list byte) :
  String.length (hexlify bs) = (2 + 2 * length bs)%nat.
Proof.
  unfold hexlify. change ("0x" +:+ Hex.digits bs) with (String "0" (String "x" (Hex.digits bs))).
  cbn [String.length]. rewrite HexFacts.digits_length. lia.
Qed.

Lemma hexlify_not_empty (bs : list byte) : hexlify bs <> "".
Proof. discriminate. Qed.

Lemma getBytes_hexlify (bs : list byte) : getBytes (hexlify bs) = Ok bs.
Proof.
  unfold hexlify. change ("0x" +:+ Hex.digits bs) with (String "0" (String "x" (Hex.digits bs))).
  unfold getBytes. cbn [Ascii.eqb Bool.eqb orb andb]. rewrite HexFacts.parse_digits. reflexivity.
Qed.

Lemma isHexString_hexlify (bs : list byte) :
  isHexString (hexlify bs) (length bs) = true.
Proof.
  unfold hexlify. change ("0x" +:+ Hex.digits bs) with (String "0" (String "x" (Hex.digits bs))).
  cbn [isHexString Ascii.eqb Bool.eqb andb]. rewrite HexFacts.parse_digits.
  apply Nat.eqb_refl.
Qed.

Lemma isHexString_length (s : string) (len : nat) :
  isHexString s len = true -> String.length s = (2 + 2 * len)%nat.
Proof.
  unfold isHexString. intros H.
  destruct s as [|c0 [|c1 rest]]; try discriminate.
  apply andb_prop in H as [_ H].
  destruct (Hex.parse rest) as [bs|] eqn:E; [|discriminate].
  apply Nat.eqb_eq in H. subst len. cbn [String.length].
  rewrite (HexFacts.parse_length rest bs E). lia.
Qed.

Lemma hexlify_inj (a b : list byte) : hexlify a = hexlify b -> a = b.
Proof.
  intros H. apply (f_equal getBytes) in H. rewrite !getBytes_hexlify in H.
  congruence.
Qed.

Lemma MAX_SAFE_INTEGER_lt : MAX_SAFE_INTEGER < 256 ^ 8.
Proof. reflexivity. Qed.

Lemma getUint_inv (v n : Z) : getUint v = Ok n -> n = v /\ 0 <= v <= MAX_SAFE_INTEGER.
Proof.
  unfold getUint. intros H.
  destruct ((v <? - MAX_SAFE_INTEGER) || (MAX_SAFE_INTEGER <? v)) eqn:E1; [discriminate|].
  destruct (v <? 0) eqn:E2; [discriminate|].
  injection H as <-. apply orb_false_iff in E1 as [_ E1].
  apply Z.ltb_ge in E1, E2. auto.
Qed.

Lemma getUint_ok (v : Z) : 0 <= v <= MAX_SAFE_INTEGER -> getUint v = Ok v.
Proof.
  intros [H0 H1]. unfold getUint.
  assert (0 < MAX_SAFE_INTEGER) by reflexivity.
  replace (v <? - MAX_SAFE_INTEGER) with false by (symmetry; apply Z.ltb_ge; lia).
  replace (MAX_SAFE_INTEGER <? v) with false by (symmetry; apply Z.ltb_ge; lia).
  replace (v <? 0) with false by (symmetry; apply Z.ltb_ge; lia).
  reflexivity.
Qed.

(** [toBeHex] succeeds exactly on the non-negative safe integers, with
    one to eight bytes. *)
Lemma toBeHex_ok (v : Z) :
  0 <= v <= MAX_SAFE_INTEGER ->
  exists bs, toBeHex v = Ok bs /\ (1 <= length bs <= 8)%nat
             /\ Hex.be_value bs 0 = v.
Proof.
  intros Hv. unfold toBeHex. rewrite (getUint_ok v Hv). cbn [rbind].
  destruct (v =? 0) eqn:E.
  - apply Z.eqb_eq in E. subst v. exists [x00]. cbn. repeat split; lia.
  - apply Z.eqb_neq in E.
    destruct (HexFacts.be_bytes_spec 8 v []) as (bs & Hbs & Hval & Hlen & Hpos).
    { pose proof MAX_SAFE_INTEGER_lt. change (Z.of_nat 8) with 8. lia. }
    rewrite app_nil_r in Hbs. exists bs. rewrite Hbs.
    repeat split; try assumption. apply Hpos. lia.
Qed.

Lemma toBeHex_inv (v : Z) (bs : list byte) :
  toBeHex v = Ok bs ->
  0 <= v <= MAX_SAFE_INTEGER /\ (1 <= length bs <= 8)%nat /\ Hex.be_value bs 0 = v.
Proof.
  intros H. assert (Hv : 0 <= v <= MAX_SAFE_INTEGER).
  { unfold toBeHex in H. destruct (getUint v) as [n|] eqn:E; [|discriminate].
    apply getUint_inv in E. tauto. }
  destruct (toBeHex_ok v Hv) as (bs' & H' & Hl & Hval).
  rewrite H in H'. injection H' as <-. auto.
Qed.

Lemma zeroPadValue_ok (data : list byte) (len : nat) :
  (length data <= len)%nat ->
  zeroPadValue data len = Ok (repeat x00 (len - length data) ++ data).
Proof.
  intros H. unfold zeroPadValue.
  replace (len <? length data)%nat with false; [reflexivity|].
  symmetry. apply Nat.ltb_ge. exact H.
Qed.

Lemma zeroPadValue_inv (data : list byte) (len : nat) (bs : list byte) :
  zeroPadValue data len = Ok bs ->
  bs = repeat x00 (len - length data) ++ data /\ length bs = len.
Proof.
  unfold zeroPadValue. destruct (len <? length data)%nat eqn:E; [discriminate|].
  intros H. injection H as <-. apply Nat.ltb_ge in E.
  split; [reflexivity|]. rewrite length_app, repeat_length. lia.
Qed.

(** The value padded to [len] bytes, when [len] is at least eight. *)
Lemma padded_value_ok (v : Z) (len : nat) :
  0 <= v <= MAX_SAFE_INTEGER -> (8 <= len)%nat ->
  exists hex bs, toBeHex v = Ok hex /\ zeroPadValue hex len = Ok bs
                 /\ length bs = len /\ Hex.be_value bs 0 = v.
Proof.
  intros Hv Hlen. destruct (toBeHex_ok v Hv) as (hex & Hhex & Hl & Hval).
  exists hex, (repeat x00 (len - length hex) ++ hex).
  split; [exact Hhex|]. split; [apply zeroPadValue_ok; lia|].
  split; [rewrite length_app, repeat_length; lia|].
  rewrite HexFacts.be_value_zeros. exact Hval.
Qed.

Lemma word_spec (z : Z) :
  0 <= z < 256 ^ 32 -> length (word z) = 32%nat /\ Hex.be_value (word z) 0 = z.
Proof.
  intros Hz. unfold word.
  destruct (HexFacts.be_bytes_spec 32 z []) as (bs & Hbs & Hval & Hlen & _).
  { exact Hz. }
  rewrite app_nil_r in Hbs. rewrite Hbs, length_app, repeat_length.
  split; [lia|]. rewrite HexFacts.be_value_zeros. exact Hval.
Qed.

End EthersFacts.

(** ** Addresses *)

Module AddressFacts.
Import Ethers.

Lemma hex_digit_lower (c : ascii) :
  is_hex_digit c = true ->
  is_hex_digit (to_lower c) = true /\ is_hex_digit (to_upper (to_lower c)) = true.
Proof.
  destruct c as [[] [] [] [] [] [] [] []]; vm_compute; intros H;
    try discriminate; auto.
Qed.

Lemma hex_digit_upper (c : ascii) :
  is_hex_digit c = true -> is_hex_digit (to_upper c) = true.
Proof.
  destruct c as [[] [] [] [] [] [] [] []]; vm_compute; intros H;
    try discriminate; auto.
Qed.

Lemma lower_upper_lower (c : ascii) :
  to_lower (to_upper (to_lower c)) = to_lower c
  /\ to_lower (to_lower c) = to_lower c.
Proof. destruct c as [[] [] [] [] [] [] [] []]; vm_compute; auto. Qed.

(** A parsed digit prints back in lower case. *)
Lemma digit_of_value (c : ascii) (h : Z) :
  Hex.digit_value c = Some h -> 0 <= h < 16 /\ Hex.digit h = to_lower c.
Proof.
  destruct c as [[] [] [] [] [] [] [] []]; vm_compute; intros H;
    try discriminate; injection H as <-; vm_compute; intuition congruence.
Qed.

Lemma printed_digit (b : byte) :
  let hi := Hex.digit (Hex.Z_of_byte b / 16) in
  let lo := Hex.digit (Hex.Z_of_byte b mod 16) in
  is_hex_digit hi = true /\ is_upper_hex hi = false
  /\ is_hex_digit lo = true /\ is_upper_hex lo = false.
Proof. destruct b; vm_compute; auto. Qed.

Lemma checksum_chars_nil (chars : list ascii) : checksum_chars chars [] = chars.
Proof. destruct chars as [|c1 [|c2 rest]]; reflexivity. Qed.

Lemma checksum_chars_length (hashed : list byte) :
  forall chars, length (checksum_chars chars hashed) = length chars.
Proof.
  induction hashed as [|h hs IH]; intros chars.
  - rewrite checksum_chars_nil. reflexivity.
  - destruct chars as [|c1 [|c2 rest]]; cbn; try reflexivity.
    rewrite IH. reflexivity.
Qed.

Lemma checksum_chars_hex (hashed : list byte) :
  forall chars, forallb is_hex_digit chars = true ->
    forallb is_hex_digit (checksum_chars chars hashed) = true.
Proof.
  induction hashed as [|h hs IH]; intros chars H.
  - rewrite checksum_chars_nil. exact H.
  - destruct chars as [|c1 [|c2 rest]]; try exact H.
    cbn [forallb] in H. apply andb_prop in H as [H1 H]. apply andb_prop in H as [H2 H].
    cbn [checksum_chars forallb]. rewrite (IH rest H).
    destruct (8 <=? Hex.Z_of_byte h / 16), (8 <=? Hex.Z_of_byte h mod 16);
      rewrite ?(hex_digit_upper _ H1), ?(hex_digit_upper _ H2), ?H1, ?H2; reflexivity.
Qed.

(** Lower-casing undoes the checksum of lower-case characters. *)
Lemma checksum_chars_lower (hashed : list byte) :
  forall chars,
    map to_lower (checksum_chars (map to_lower chars) hashed) = map to_lower chars.
Proof.
  induction hashed as [|h hs IH]; intros chars.
  - rewrite checksum_chars_nil, map_map.
    apply map_ext. intros c. apply lower_upper_lower.
  - destruct chars as [|c1 [|c2 rest]]; try reflexivity.
    + cbn. f_equal. apply lower_upper_lower.
    + cbn [map checksum_chars]. rewrite IH. f_equal; [|f_equal].
      * destruct (8 <=? Hex.Z_of_byte h / 16); apply lower_upper_lower.
      * destruct (8 <=? Hex.Z_of_byte h mod 16); apply lower_upper_lower.
Qed.

Lemma forallb_map_lower (chars : list ascii) :
  forallb is_hex_digit chars = true ->
  forallb is_hex_digit (map to_lower chars) = true.
Proof.
  induction chars as [|c chars IH]; [reflexivity|]. cbn [forallb map].
  intros H. apply andb_prop in H as [H1 H2].
  rewrite (proj1 (hex_digit_lower c H1)), (IH H2). reflexivity.
Qed.

(** Pairs of hex digits always parse. *)
Lemma parse_hex_ok (n : nat) :
  forall chars, length chars = (2 * n)%nat -> forallb is_hex_digit chars = true ->
    exists bs, Hex.parse (string_of_list_ascii chars) = Some bs /\ length bs = n.
Proof.
  induction n as [|n IH]; intros chars Hlen Hhex.
  - destruct chars; [|discriminate]. exists []. split; reflexivity.
  - destruct chars as [|c1 [|c2 rest]]; cbn in Hlen; try lia.
    cbn [forallb] in Hhex. apply andb_prop in Hhex as [H1 H].
    apply andb_prop in H as [H2 H].
    destruct (IH rest ltac:(lia) H) as (bs & Hbs & Hl).
    unfold is_hex_digit in H1, H2.
    destruct (Hex.digit_value c1) as [h|] eqn:E1; [|discriminate].
    destruct (Hex.digit_value c2) as [l|] eqn:E2; [|discriminate].
    exists (Hex.byte_of_Z (16 * h + l) :: bs).
    cbn [string_of_list_ascii Hex.parse]. rewrite E1, E2, Hbs.
    split; [reflexivity|]. cbn. lia.
Qed.

Lemma hex_pair (h l : Z) :
  0 <= h < 16 -> 0 <= l < 16 ->
  (16 * h + l) mod 256 = 16 * h + l
  /\ (16 * h + l) / 16 = h
  /\ (16 * h + l) mod 16 = l.
Proof.
  intros Hh Hl. repeat split.
  - apply Z.mod_small. lia.
  - symmetry. apply (Z.div_unique_pos _ 16 h l); lia.
  - symmetry. apply (Z.mod_unique_pos _ 16 h l); lia.
Qed.

(** What parses, prints back in lower case. *)
Lemma digits_of_parse (n : nat) :
  forall s bs, (String.length s <= n)%nat -> Hex.parse s = Some bs ->
    list_ascii_of_string (Hex.digits bs) = map to_lower (list_ascii_of_string s).
Proof.
  induction n as [|n IH]; intros s bs Hn H.
  - destruct s; [|cbn in Hn; lia]. cbn in H. injection H as <-. reflexivity.
  - destruct s as [|hi [|lo rest]]; cbn [Hex.parse] in H.
    + injection H as <-. reflexivity.
    + discriminate.
    + destruct (Hex.digit_value hi) as [h|] eqn:E1; [|discriminate].
      destruct (Hex.digit_value lo) as [l|] eqn:E2; [|discriminate].
      destruct (Hex.parse rest) as [bs'|] eqn:E; [|discriminate].
      injection H as <-.
      apply digit_of_value in E1 as [Hh E1], E2 as [Hl E2].
      cbn [Hex.digits list_ascii_of_string map].
      rewrite HexFacts.Z_of_byte_of_Z.
      destruct (hex_pair h l Hh Hl) as (P1 & P2 & P3). rewrite P1, P2, P3.
      rewrite E1, E2. f_equal. f_equal. apply (IH rest bs'); [cbn in Hn; lia|exact E].
Qed.

Lemma digits_chars (bs : list byte) :
  length (list_ascii_of_string (Hex.digits bs)) = (2 * length bs)%nat
  /\ forallb is_hex_digit (list_ascii_of_string (Hex.digits bs)) = true
  /\ existsb is_upper_hex (list_ascii_of_string (Hex.digits bs)) = false.
Proof.
  induction bs as [|b bs (IH1 & IH2 & IH3)]; [repeat split|].
  destruct (printed_digit b) as (H1 & H2 & H3 & H4).
  cbn [Hex.digits list_ascii_of_string length forallb existsb].
  rewrite H1, H2, H3, H4, IH2, IH3. repeat split. lia.
Qed.

Lemma getAddress_inv (s a : string) :
  getAddress s = Ok a ->
  length (list_ascii_of_string (strip_0x s)) = 40%nat
  /\ forallb is_hex_digit (list_ascii_of_string (strip_0x s)) = true
  /\ a = getChecksumAddress (strip_0x s).
Proof.
  unfold getAddress.
  destruct (length (list_ascii_of_string (strip_0x s)) =? 40)%nat eqn:E1;
    [|discriminate].
  destruct (forallb is_hex_digit (list_ascii_of_string (strip_0x s))) eqn:E2;
    [|discriminate].
  cbn [andb]. apply Nat.eqb_eq in E1.
  destruct (existsb is_upper_hex _ && existsb is_lower_hex _ && negb _);
    [discriminate|].
  intros H. injection H as <-. auto.
Qed.

(** The bytes of a checksummed address: twenty of them. *)
Lemma getAddress_bytes (s a : string) :
  getAddress s = Ok a ->
  exists bs, getBytes a = Ok bs /\ length bs = 20%nat
             /\ getAddress (hexlify bs) = Ok a.
Proof.
  intros H. apply getAddress_inv in H as (Hlen & Hhex & ->).
  set (chars := list_ascii_of_string (strip_0x s)) in *.
  unfold getChecksumAddress. fold chars.
  set (hashed := keccak256 (map byte_of_ascii (map to_lower chars))).
  set (out := checksum_chars (map to_lower chars) hashed).
  assert (Hout_len : length out = 40%nat).
  { unfold out. rewrite checksum_chars_length, length_map. exact Hlen. }
  assert (Hout_hex : forallb is_hex_digit out = true).
  { unfold out. apply checksum_chars_hex, forallb_map_lower, Hhex. }
  destruct (parse_hex_ok 20 out Hout_len Hout_hex) as (bs & Hbs & Hl).
  exists bs.
  change ("0x" +:+ string_of_list_ascii out)
    with (String "0" (String "x" (string_of_list_ascii out))).
  split; [|split; [exact Hl|]].
  - unfold getBytes. cbn [Ascii.eqb Bool.eqb orb andb]. rewrite Hbs. reflexivity.
  - destruct (digits_chars bs) as (D1 & D2 & D3).
    unfold getAddress, hexlify.
    change (strip_0x ("0x" +:+ Hex.digits bs)) with (Hex.digits bs).
    rewrite D1, Hl, D2, D3. cbn [Nat.eqb Nat.mul Nat.add andb].
    f_equal. unfold getChecksumAddress.
    assert (Hlower : map to_lower (list_ascii_of_string (Hex.digits bs))
                     = map to_lower chars).
    { rewrite (digits_of_parse (String.length (string_of_list_ascii out))
                 (string_of_list_ascii out) bs (le_n _) Hbs).
      rewrite list_ascii_of_string_of_list_ascii, map_map.
      transitivity (map to_lower out).
      - apply map_ext. intros c. apply lower_upper_lower.
      - apply checksum_chars_lower. }
    rewrite Hlower. reflexivity.
Qed.

End AddressFacts.

(** ** The ABI coder on static types *)

Module AbiFacts.
Import Ethers.
Local Open Scope result_scope.

Lemma encode_one_spec (t : abi_type) (a : abi_arg) (w : list byte) :
  encode_one t a = Ok w ->
  length w = 32%nat /\ exists v, decode_one t w = Ok v /\ represents t a v.
Proof.
  destruct t as [| |bits| |], a as [bs|s|z|b]; cbn [encode_one]; try discriminate.
  - (* bytes32 *)
    destruct (length bs =? 32)%nat eqn:E; [|discriminate].
    intros H. injection H as <-. apply Nat.eqb_eq in E.
    split; [exact E|]. exists (ValBytes32 bs). split; reflexivity.
  - (* address *)
    destruct (getAddress s) as [checksummed|] eqn:Ea; [|discriminate].
    cbn [rbind].
    destruct (AddressFacts.getAddress_bytes s checksummed Ea) as (bs & Hbs & Hl & Hback).
    rewrite Hbs. cbn [rbind]. intros H. injection H as <-.
    split; [cbn [repeat app length]; lia|].
    exists (ValAddress checksummed). split; [|exact Ea].
    unfold decode_one.
    change (Hex.be_value (_ :: _ :: _ :: _ :: _ :: _ :: _ :: _ :: _ :: _ :: _ :: _ :: bs) 0)
      with (Hex.be_value (repeat x00 12 ++ bs) 0).
    rewrite HexFacts.be_value_zeros.
    pose proof (HexFacts.be_value_bound bs 0 ltac:(lia)) as Hb. rewrite Hl in Hb.
    replace (2 ^ 160 <=? Hex.be_value bs 0) with false
      by (symmetry; apply Z.leb_gt; change (2 ^ 160) with (256 ^ Z.of_nat 20); lia).
    match goal with |- context [skipn 12 ?l] => change (skipn 12 l) with bs end.
    rewrite Hback. reflexivity.
  - (* uint *)
    destruct ((z <? - MAX_SAFE_INTEGER) || (MAX_SAFE_INTEGER <? z)) eqn:E1;
      [discriminate|].
    destruct ((z <? 0) || (2 ^ bits - 1 <? z)) eqn:E2; [discriminate|].
    intros H. injection H as <-.
    apply orb_false_iff in E1 as [_ E1]. apply orb_false_iff in E2 as [E2 E3].
    apply Z.ltb_ge in E1, E2, E3.
    assert (Hz : 0 <= z < 256 ^ 32).
    { pose proof EthersFacts.MAX_SAFE_INTEGER_lt.
      assert (256 ^ 8 < 256 ^ 32) by reflexivity. lia. }
    destruct (EthersFacts.word_spec z Hz) as [Hl Hv].
    split; [exact Hl|]. exists (ValUint z). split; [|reflexivity].
    unfold decode_one. rewrite Hv, Z.mod_small by lia. reflexivity.
  - (* bool *)
    intros H. injection H as <-. split; [destruct b; reflexivity|].
    exists (ValBool b). split; [|reflexivity]. destruct b; reflexivity.
Qed.

Lemma layout_static (ws : list (list byte)) (offset : Z) :
  layout (map (pair false) ws) offset = (concat ws, []).
Proof.
  induction ws as [|w ws IH]; [reflexivity|].
  cbn [map layout concat]. rewrite IH. reflexivity.
Qed.

Lemma encode_parts_static (ts : list abi_type) :
  forall args parts,
    forallb is_static ts = true -> encode_parts ts args = Ok parts ->
    exists ws, parts = map (pair false) ws
               /\ Forall3 (fun t a w => encode_one t a = Ok w) ts args ws.
Proof.
  induction ts as [|t ts IH]; intros args parts Hs H.
  - destruct args; [|discriminate]. injection H as <-.
    exists []. split; [reflexivity|constructor].
  - destruct args as [|a args]; [discriminate|].
    cbn [forallb] in Hs. apply andb_prop in Hs as [Ht Hs].
    cbn [encode_parts] in H.
    assert (Hp : encode_part t a = (w <-? encode_one t a; Ok (false, w))).
    { destruct t; try reflexivity; try discriminate; destruct a; reflexivity. }
    rewrite Hp in H. destruct (encode_one t a) as [w|] eqn:Ew; [|discriminate].
    cbn [rbind] in H.
    destruct (encode_parts ts args) as [rest|] eqn:Er; [|discriminate].
    cbn [rbind] in H. injection H as <-.
    destruct (IH args rest Hs Er) as (ws & -> & HF).
    exists (w :: ws). split; [reflexivity|]. constructor; assumption.
Qed.

Lemma decode_words (ts : list abi_type) (args : list abi_arg) (ws : list (list byte)) :
  Forall3 (fun t a w => encode_one t a = Ok w) ts args ws ->
  length (concat ws) = (32 * length ts)%nat
  /\ exists vs, decode ts (concat ws) = Ok vs /\ Forall3 represents ts args vs.
Proof.
  induction 1 as [|t a w ts args ws Hw _ (IHl & vs & IHd & IHr)].
  - split; [reflexivity|]. exists []. split; [reflexivity|constructor].
  - destruct (encode_one_spec t a w Hw) as (Hl & v & Hd & Hr).
    cbn [concat length]. rewrite length_app, Hl, IHl.
    split; [lia|]. exists (v :: vs). split; [|constructor; assumption].
    cbn [decode]. rewrite length_app, Hl.
    replace (32 + length (concat ws) <? 32)%nat with false
      by (symmetry; apply Nat.ltb_ge; lia).
    rewrite firstn_app, skipn_app.
    rewrite (firstn_all2 w) by lia. rewrite (skipn_all2 w) by lia.
    rewrite Hl, Nat.sub_diag, firstn_O, skipn_O, app_nil_r. cbn [app].
    rewrite Hd, IHd. reflexivity.
Qed.

(** An encoding of static types is whole words, and decodes to the
    arguments it was made of. *)
Theorem decode_encode (ts : list abi_type) (args : list abi_arg) (data : list byte) :
  forallb is_static ts = true ->
  encode ts args = Ok data ->
  length data = (32 * length ts)%nat
  /\ exists vs, decode ts data = Ok vs /\ Forall3 represents ts args vs.
Proof.
  intros Hs H. unfold encode in H.
  destruct (encode_parts ts args) as [parts|] eqn:Ep; [|discriminate].
  cbn [rbind] in H.
  destruct (encode_parts_static ts args parts Hs Ep) as (ws & -> & HF).
  rewrite layout_static in H. injection H as <-. rewrite app_nil_r.
  apply decode_words, HF.
Qed.

(** When every argument encodes, so does the tuple. *)
Lemma encode_ok (ts : list abi_type) (args : list abi_arg) :
  forallb is_static ts = true ->
  Forall2 (fun t a => is_ok (encode_one t a) = true) ts args ->
  exists data, encode ts args = Ok data.
Proof.
  intros Hs HF. unfold encode.
  assert (exists parts, encode_parts ts args = Ok parts) as [parts ->].
  { induction HF as [|t a ts args Hta _ IH]; [eexists; reflexivity|].
    cbn [forallb] in Hs. apply andb_prop in Hs as [Ht Hs].
    destruct (IH Hs) as [rest Hrest]. cbn [encode_parts].
    destruct (encode_one t a) as [w|] eqn:Ew; [|discriminate].
    assert (Hp : encode_part t a = Ok (false, w)).
    { destruct t; try discriminate; cbn [encode_part]; try rewrite Ew;
        try reflexivity; destruct a; cbn [encode_part]; rewrite ?Ew; reflexivity. }
    rewrite Hp, Hrest. eexists. reflexivity. }
  cbn [rbind]. destruct (layout parts _). eexists. reflexivity.
Qed.

End AbiFacts.

(** ** The encrypted-input builder *)

Ltac run_monad :=
  unfold bind, try_catch, ret, throw, lift, ask, ask_result, rpc, modify,
    get_state, all2 in *.

Module ClientFacts.
Import Client.
Local Open Scope result_scope.

(** A 32-byte handle, written as 66 characters. *)
Definition bytes32_text (s : string) : Prop :=
  Ethers.isHexString s 32 = true /\ String.length s = 66%nat.

Lemma bytes32_text_hexlify (bs : list byte) :
  length bs = 32%nat -> bytes32_text (Ethers.hexlify bs).
Proof.
  intros H. split.
  - rewrite <- H. apply EthersFacts.isHexString_hexlify.
  - rewrite EthersFacts.hexlify_length, H. reflexivity.
Qed.

(** *** The three encodings *)

Lemma sdkEncoding_inv (answer : result Encrypted) (r : EncryptedInput) :
  sdkEncoding answer = Ok r ->
  exists encrypted,
    answer = Ok encrypted
    /\ head (handles encrypted) = Some (handle r)
    /\ inputProof encrypted = Some (proof r)
    /\ handle r <> "" /\ proof r <> "".
Proof.
  unfold sdkEncoding. destruct answer as [encrypted|]; [|discriminate].
  destruct (head (handles encrypted)) as [h|] eqn:Eh; [|discriminate].
  destruct (inputProof encrypted) as [p|] eqn:Ep;
    [|cbn; rewrite orb_true_r; discriminate].
  cbn [truthy]. destruct (String.eqb h "") eqn:E1; [discriminate|].
  destruct (String.eqb p "") eqn:E2; [discriminate|].
  cbn. intros H. injection H as <-. cbn.
  apply String.eqb_neq in E1, E2. exists encrypted. auto.
Qed.

Lemma sdkEncoding_shape (instance : FhevmInstance) (t : nat)
    (contractAddress userAddress : string) (adds : list added_value)
    (r : EncryptedInput) :
  engine_contract instance ->
  sdkEncoding (encrypt_input instance t contractAddress userAddress adds) = Ok r ->
  bytes32_text (handle r) /\ proof r <> "".
Proof.
  intros Hengine H. apply sdkEncoding_inv in H as (e & He & Hh & _ & _ & Hp).
  split; [|exact Hp]. assert (Hin : In (handle r) (handles e)).
  { destruct (handles e); [discriminate|]. injection Hh as ->. left. reflexivity. }
  pose proof (Hengine _ _ _ _ _ _ He Hin) as Hhex.
  split; [exact Hhex|]. apply (EthersFacts.isHexString_length _ _ Hhex).
Qed.

Lemma minimalEncoding_inv (contractAddress : string) (value : Z) (r : EncryptedInput) :
  minimalEncoding contractAddress value = Ok r ->
  exists hb pb,
    handle r = Ethers.hexlify hb /\ length hb = 32%nat /\ Hex.be_value hb 0 = value
    /\ proof r = Ethers.hexlify pb /\ length pb = 64%nat
    /\ Ethers.encode [Ethers.uint 256; Ethers.address]
         [Ethers.ArgNumber value; Ethers.ArgString contractAddress] = Ok pb.
Proof.
  unfold minimalEncoding. intros H.
  destruct (Ethers.toBeHex value) as [hex|] eqn:E1; [|discriminate]. cbn [rbind] in H.
  destruct (Ethers.zeroPadValue hex 32) as [hb|] eqn:E2; [|discriminate].
  cbn [rbind] in H.
  destruct (Ethers.encode _ _) as [pb|] eqn:E3; [|discriminate].
  cbn [rbind] in H. injection H as <-. cbn [handle proof].
  apply EthersFacts.toBeHex_inv in E1 as (_ & _ & Hv).
  apply EthersFacts.zeroPadValue_inv in E2 as [-> Hl].
  destruct (AbiFacts.decode_encode [Ethers.uint 256; Ethers.address] _ _ eq_refl E3)
    as [Hpl _].
  exists (repeat x00 (32 - length hex) ++ hex), pb.
  rewrite HexFacts.be_value_zeros. repeat split; auto.
Qed.

Lemma compatibleEncoding_inv (contractAddress userAddress : string) (value : Z)
    (type : fhe_type) (timestamp nonce : Z) (r : EncryptedInput) :
  compatibleEncoding contractAddress userAddress value type timestamp nonce = Ok r ->
  exists hb pb,
    handle r = Ethers.hexlify hb /\ length hb = 32%nat
    /\ proof r = Ethers.hexlify pb /\ length pb = 192%nat.
Proof.
  unfold compatibleEncoding. intros H. destruct type.
  - destruct (euint32_preimage _ _ _ _ _) as [pre|]; [|discriminate].
    cbn [rbind] in H.
    destruct (Ethers.encode _ _) as [pb|] eqn:E; [|discriminate].
    cbn [rbind] in H. injection H as <-.
    destruct (AbiFacts.decode_encode euint32_proof_types _ _ eq_refl E) as [Hpl _].
    eexists _, pb. cbn [handle proof]. repeat split; auto.
  - destruct (ebool_preimage _ _ _ _) as [pre|]; [|discriminate].
    cbn [rbind] in H.
    destruct (Ethers.encode _ _) as [pb|] eqn:E; [|discriminate].
    cbn [rbind] in H. injection H as <-.
    destruct (AbiFacts.decode_encode ebool_proof_types _ _ eq_refl E) as [Hpl _].
    eexists _, pb. cbn [handle proof]. repeat split; auto.
  - destruct (ebool_preimage _ _ _ _) as [pre|]; [|discriminate].
    cbn [rbind] in H.
    destruct (Ethers.encode _ _) as [pb|] eqn:E; [|discriminate].
    cbn [rbind] in H. injection H as <-.
    destruct (AbiFacts.decode_encode ebool_proof_types _ _ eq_refl E) as [Hpl _].
    eexists _, pb. cbn [handle proof]. repeat split; auto.
Qed.

Lemma hexlify_words_not_empty (pb : list byte) (n : nat) :
  length pb = S n -> Ethers.hexlify pb <> "0x" /\ Ethers.hexlify pb <> "".
Proof.
  intros H. split; [|discriminate]. intros E.
  apply (f_equal String.length) in E.
  rewrite EthersFacts.hexlify_length, H in E. cbn in E. lia.
Qed.

Lemma minimalEncoding_shape (contractAddress : string) (value : Z) (r : EncryptedInput) :
  minimalEncoding contractAddress value = Ok r ->
  bytes32_text (handle r) /\ proof r <> "".
Proof.
  intros H. apply minimalEncoding_inv in H as (hb & pb & -> & Hl & _ & -> & _).
  split; [apply bytes32_text_hexlify, Hl|discriminate].
Qed.

Lemma compatibleEncoding_shape (contractAddress userAddress : string) (value : Z)
    (type : fhe_type) (timestamp nonce : Z) (r : EncryptedInput) :
  compatibleEncoding contractAddress userAddress value type timestamp nonce = Ok r ->
  bytes32_text (handle r) /\ proof r <> "".
Proof.
  intros H. apply compatibleEncoding_inv in H as (hb & pb & -> & Hl & -> & _).
  split; [apply bytes32_text_hexlify, Hl|discriminate].
Qed.

(** *** Which encoding a result comes from *)

Lemma createCompatibleEncryptedInput_unfold (env : Env) (c : FHEVMClient)
    (contractAddress : string) (value : Z) (type : fhe_type) (w : World) :
  createCompatibleEncryptedInput env c contractAddress value type w
  = match compatiblePath env c contractAddress value type w with
    | (Ok r, w1) => (Ok r, w1)
    | (Throw _, w1) => (minimalEncoding contractAddress value, w1)
    end.
Proof. reflexivity. Qed.

Lemma compatiblePath_inv (env : Env) (c : FHEVMClient)
    (contractAddress : string) (value : Z) (type : fhe_type) (w w1 : World)
    (r : EncryptedInput) :
  compatiblePath env c contractAddress value type w = (Ok r, w1) ->
  exists userAddress timestamp nonce,
    compatibleEncoding contractAddress userAddress value type timestamp nonce = Ok r.
Proof.
  unfold compatiblePath, userAddressOf. run_monad.
  destruct (provider c).
  - intros H. eexists _, _, _.
    destruct (compatibleEncoding _ _ _ _ _ _) eqn:E in H; [|discriminate].
    injection H as <- _. exact E.
  - destruct (signerAddress env (tick w)) as [user|]; [|discriminate].
    intros H. eexists _, _, _.
    destruct (compatibleEncoding _ _ _ _ _ _) eqn:E in H; [|discriminate].
    injection H as <- _. exact E.
Qed.

Lemma createCompatibleEncryptedInput_shape (env : Env) (c : FHEVMClient)
    (contractAddress : string) (value : Z) (type : fhe_type) (w w1 : World)
    (r : EncryptedInput) :
  createCompatibleEncryptedInput env c contractAddress value type w = (Ok r, w1) ->
  bytes32_text (handle r) /\ proof r <> "".
Proof.
  rewrite createCompatibleEncryptedInput_unfold.
  destruct (compatiblePath env c contractAddress value type w) as [[r0|e] w0] eqn:E.
  - intros H. injection H as <- _.
    apply compatiblePath_inv in E as (u & t & n & E).
    apply (compatibleEncoding_shape _ _ _ _ _ _ _ E).
  - intros H. injection H as H _. apply (minimalEncoding_shape _ _ _ H).
Qed.

Lemma sdkPath_shape (env : Env) (c : FHEVMClient) (instance : FhevmInstance)
    (contractAddress : string) (value : Z) (type : fhe_type) (w w1 : World)
    (r : EncryptedInput) :
  engine_contract instance ->
  sdkPath env c instance contractAddress value type w = (Ok r, w1) ->
  bytes32_text (handle r) /\ proof r <> "".
Proof.
  intros Hengine. unfold sdkPath, userAddressOf. run_monad.
  destruct (provider c).
  - intros H. injection H as H _. apply (sdkEncoding_shape _ _ _ _ _ _ Hengine H).
  - destruct (signerAddress env (tick w)) as [user|]; [|discriminate].
    intros H. injection H as H _. apply (sdkEncoding_shape _ _ _ _ _ _ Hengine H).
Qed.

Lemma createCompatibleEncryptedInput_origin (env : Env) (c : FHEVMClient)
    (contractAddress : string) (value : Z) (type : fhe_type) (w w1 : World)
    (r : EncryptedInput) :
  createCompatibleEncryptedInput env c contractAddress value type w = (Ok r, w1) ->
  origin c contractAddress value type r.
Proof.
  rewrite createCompatibleEncryptedInput_unfold.
  destruct (compatiblePath env c contractAddress value type w) as [[r0|e] w0] eqn:E.
  - intros H. injection H as <- _.
    apply compatiblePath_inv in E as (u & t & n & E).
    apply (from_fallback _ _ _ _ _ u t n E).
  - intros H. injection H as H _. apply (from_minimal_fallback _ _ _ _ _ H).
Qed.

Lemma sdkPath_origin (env : Env) (c : FHEVMClient) (instance : FhevmInstance)
    (contractAddress : string) (value : Z) (type : fhe_type) (w w1 : World)
    (r : EncryptedInput) :
  fhevmInstance c = Some instance -> chainId c = SEPOLIA ->
  sdkPath env c instance contractAddress value type w = (Ok r, w1) ->
  origin c contractAddress value type r.
Proof.
  intros Hi Hc. unfold sdkPath, userAddressOf. run_monad.
  destruct (provider c).
  - intros H. injection H as H _.
    apply sdkEncoding_inv in H as (e & He & Hh & Hp & Hne & Hnp).
    apply (from_engine _ _ _ _ _ instance _ _ e Hi Hc He Hh Hp Hne Hnp).
  - destruct (signerAddress env (tick w)) as [user|]; [|discriminate].
    intros H. injection H as H _.
    apply sdkEncoding_inv in H as (e & He & Hh & Hp & Hne & Hnp).
    apply (from_engine _ _ _ _ _ instance _ _ e Hi Hc He Hh Hp Hne Hnp).
Qed.

(** The shape of a result, by where it comes from. *)
Lemma origin_shape (c : FHEVMClient) (contractAddress : string) (value : Z)
    (type : fhe_type) (r : EncryptedInput) :
  (forall instance, fhevmInstance c = Some instance -> engine_contract instance) ->
  origin c contractAddress value type r ->
  bytes32_text (handle r) /\ proof r <> "".
Proof.
  intros Hengine [instance t user e Hi Hc He Hh Hp Hne Hnp|user t n H|H].
  - split; [|exact Hnp].
    assert (Hin : In (handle r) (handles e)).
    { destruct (handles e); [discriminate|]. injection Hh as ->. left. reflexivity. }
    pose proof (Hengine instance Hi _ _ _ _ _ _ He Hin) as Hhex.
    split; [exact Hhex|apply (EthersFacts.isHexString_length _ _ Hhex)].
  - apply (compatibleEncoding_shape _ _ _ _ _ _ _ H).
  - apply (minimalEncoding_shape _ _ _ H).
Qed.

End ClientFacts.

Module BuilderFacts.
Import Client ClientFacts.
Local Open Scope result_scope.

Lemma encode_one_address_ok (s : string) :
  Ethers.isAddress s = true ->
  is_ok (Ethers.encode_one Ethers.address (Ethers.ArgString s)) = true.
Proof.
  unfold Ethers.isAddress. intros H. cbn [Ethers.encode_one].
  destruct (Ethers.getAddress s) as [a|] eqn:E; [|discriminate].
  destruct (AddressFacts.getAddress_bytes s a E) as (bs & Hbs & _).
  cbn [rbind]. rewrite Hbs. reflexivity.
Qed.

Lemma encode_one_uint_ok (bits z : Z) :
  0 <= z <= Ethers.MAX_SAFE_INTEGER -> z <= 2 ^ bits - 1 ->
  is_ok (Ethers.encode_one (Ethers.uint bits) (Ethers.ArgNumber z)) = true.
Proof.
  intros Hz Hb. cbn [Ethers.encode_one].
  assert (0 < Ethers.MAX_SAFE_INTEGER) by reflexivity.
  replace (z <? - Ethers.MAX_SAFE_INTEGER) with false by (symmetry; apply Z.ltb_ge; lia).
  replace (Ethers.MAX_SAFE_INTEGER <? z) with false by (symmetry; apply Z.ltb_ge; lia).
  replace (z <? 0) with false by (symmetry; apply Z.ltb_ge; lia).
  replace (2 ^ bits - 1 <? z) with false by (symmetry; apply Z.ltb_ge; lia).
  reflexivity.
Qed.

Lemma encode_one_bytes32_ok (bs : list byte) :
  length bs = 32%nat ->
  is_ok (Ethers.encode_one Ethers.bytes32 (Ethers.ArgHex bs)) = true.
Proof. intros H. cbn [Ethers.encode_one]. rewrite H. reflexivity. Qed.

Lemma safe_integer_is_uint256 (z : Z) :
  z <= Ethers.MAX_SAFE_INTEGER -> z <= 2 ^ 256 - 1.
Proof.
  intros H. assert (Ethers.MAX_SAFE_INTEGER <= 2 ^ 256 - 1) by (vm_compute; discriminate).
  lia.
Qed.

(** The minimal fallback returns on every well-typed input. *)
Lemma minimalEncoding_ok (contractAddress : string) (value : Z) :
  well_typed contractAddress value ->
  exists r, minimalEncoding contractAddress value = Ok r.
Proof.
  intros [Ha Hv]. unfold minimalEncoding.
  destruct (EthersFacts.padded_value_ok value 32 Hv ltac:(lia))
    as (hex & hb & Hhex & Hpad & _).
  rewrite Hhex. cbn [rbind]. rewrite Hpad. cbn [rbind].
  destruct (AbiFacts.encode_ok [Ethers.uint 256; Ethers.address]
              [Ethers.ArgNumber value; Ethers.ArgString contractAddress] eq_refl)
    as [pb ->].
  { repeat (apply List.Forall2_cons || apply List.Forall2_nil).
    - apply encode_one_uint_ok; [exact Hv|apply safe_integer_is_uint256; lia].
    - apply encode_one_address_ok, Ha. }
  cbn [rbind]. eexists. reflexivity.
Qed.

Lemma createCompatibleEncryptedInput_total (env : Env) (c : FHEVMClient)
    (contractAddress : string) (value : Z) (type : fhe_type) (w : World) :
  well_typed contractAddress value ->
  exists r w1,
    createCompatibleEncryptedInput env c contractAddress value type w = (Ok r, w1).
Proof.
  intros Hwt. rewrite createCompatibleEncryptedInput_unfold.
  destruct (compatiblePath env c contractAddress value type w) as [[r|e] w1].
  - eauto.
  - destruct (minimalEncoding_ok contractAddress value Hwt) as [r ->]. eauto.
Qed.

Lemma createEncryptedInput_origin (env : Env) (c : FHEVMClient)
    (contractAddress : string) (value : Z) (type : fhe_type)
    (w w1 : World) (r : EncryptedInput) :
  createEncryptedInput env c contractAddress value type w = (Ok r, w1) ->
  origin c contractAddress value type r.
Proof.
  intros H. unfold createEncryptedInput, try_catch in H.
  destruct (fhevmInstance c) as [instance|] eqn:Ei.
  - destruct (chainId c =? SEPOLIA) eqn:Ec.
    + apply Z.eqb_eq in Ec.
      destruct (sdkPath env c instance contractAddress value type w)
        as [[r0|e] w0] eqn:E.
      * injection H as <- _. apply (sdkPath_origin _ _ _ _ _ _ _ _ _ Ei Ec E).
      * apply (createCompatibleEncryptedInput_origin _ _ _ _ _ _ _ _ H).
    + destruct (createCompatibleEncryptedInput env c contractAddress value type w)
        as [[r0|e] w0] eqn:E.
      * injection H as <- _. apply (createCompatibleEncryptedInput_origin _ _ _ _ _ _ _ _ E).
      * apply (createCompatibleEncryptedInput_origin _ _ _ _ _ _ _ _ H).
  - destruct (createCompatibleEncryptedInput env c contractAddress value type w)
      as [[r0|e] w0] eqn:E.
    + injection H as <- _. apply (createCompatibleEncryptedInput_origin _ _ _ _ _ _ _ _ E).
    + apply (createCompatibleEncryptedInput_origin _ _ _ _ _ _ _ _ H).
Qed.


(** C2.  On well-typed inputs [createEncryptedInput] never rejects: a
    failure of the engine path is caught and the deterministic fallback
    runs in its place; when the deterministic fallback throws, the
    minimal fallback (the zero-padded value, and the ABI encoding of
    (uint256, address)) is what is returned; and in every case there is
    a result. *)
Theorem createEncryptedInput_never_rejects (env : Env) (c : FHEVMClient)
    (contractAddress : string) (value : Z) (type : fhe_type) (w : World) :
  well_typed contractAddress value ->
  (forall instance e w1,
      fhevmInstance c = Some instance -> chainId c = SEPOLIA ->
      sdkPath env c instance contractAddress value type w = (Throw e, w1) ->
      createEncryptedInput env c contractAddress value type w
      = createCompatibleEncryptedInput env c contractAddress value type w1)
  /\ (forall e w1,
      compatiblePath env c contractAddress value type w = (Throw e, w1) ->
      exists hex hb pb,
        Ethers.toBeHex value = Ok hex
        /\ Ethers.zeroPadValue hex 32 = Ok hb
        /\ Ethers.encode [Ethers.uint 256; Ethers.address]
             [Ethers.ArgNumber value; Ethers.ArgString contractAddress] = Ok pb
        /\ createCompatibleEncryptedInput env c contractAddress value type w
           = (Ok {| handle := Ethers.hexlify hb; proof := Ethers.hexlify pb |}, w1))
  /\ exists r w1,
      createEncryptedInput env c contractAddress value type w = (Ok r, w1).
Proof.
  intros Hwt. split; [|split].
  - intros instance e w1 Hi Hc Hs. unfold createEncryptedInput, try_catch.
    rewrite Hi, Hc, Z.eqb_refl, Hs. reflexivity.
  - intros e w1 Hp. rewrite createCompatibleEncryptedInput_unfold, Hp.
    destruct (minimalEncoding_ok contractAddress value Hwt) as [r Hr].
    rewrite Hr. unfold minimalEncoding in Hr.
    destruct (Ethers.toBeHex value) as [hex|] eqn:E1; [|discriminate].
    cbn [rbind] in Hr.
    destruct (Ethers.zeroPadValue hex 32) as [hb|] eqn:E2; [|discriminate].
    cbn [rbind] in Hr.
    destruct (Ethers.encode _ _) as [pb|] eqn:E3; [|discriminate].
    cbn [rbind] in Hr. injection Hr as <-.
    exists hex, hb, pb. repeat split; assumption || reflexivity.
  - unfold createEncryptedInput, try_catch.
    match goal with
    | |- context [let (_, _) := ?m in _] => destruct m as [[r|e] w1]
    end.
    + exists r, w1. reflexivity.
    + apply createCompatibleEncryptedInput_total, Hwt.
Qed.

End BuilderFacts.

(** ** The deterministic fallback *)

Module FallbackFacts.
Import Client ClientFacts BuilderFacts.
Local Open Scope result_scope.

Lemma getBytes_of_hex_address (s : string) :
  hex_address s = true ->
  Ethers.isAddress s = true /\ exists bs, Ethers.getBytes s = Ok bs.
Proof.
  unfold hex_address. intros H. apply andb_prop in H as [Ha Hb].
  split; [exact Ha|]. destruct (Ethers.getBytes s) as [bs|]; [eauto|discriminate].
Qed.

Lemma euint32_preimage_ok (contractAddress userAddress : string)
    (value timestamp nonce : Z) :
  hex_address contractAddress = true -> hex_address userAddress = true ->
  0 <= value <= Ethers.MAX_SAFE_INTEGER ->
  0 <= timestamp <= Ethers.MAX_SAFE_INTEGER ->
  0 <= nonce <= Ethers.MAX_SAFE_INTEGER ->
  exists preimage,
    euint32_preimage contractAddress userAddress value timestamp nonce = Ok preimage.
Proof.
  intros Hc Hu Hv Ht Hn. unfold euint32_preimage.
  destruct (EthersFacts.padded_value_ok value 32 Hv ltac:(lia)) as (h1 & b1 & E1 & P1 & _).
  destruct (EthersFacts.padded_value_ok timestamp 8 Ht ltac:(lia)) as (h2 & b2 & E2 & P2 & _).
  destruct (EthersFacts.padded_value_ok nonce 8 Hn ltac:(lia)) as (h3 & b3 & E3 & P3 & _).
  destruct (getBytes_of_hex_address _ Hc) as [_ [cb Ecb]].
  destruct (getBytes_of_hex_address _ Hu) as [_ [ub Eub]].
  rewrite E1. cbn [rbind]. rewrite P1. cbn [rbind]. rewrite Ecb. cbn [rbind].
  rewrite Eub. cbn [rbind]. rewrite E2. cbn [rbind]. rewrite P2. cbn [rbind].
  rewrite E3. cbn [rbind]. rewrite P3. cbn [rbind]. eexists. reflexivity.
Qed.

Ltac invert_represents :=
  repeat match goal with
         | H : Forall3 _ (_ :: _) _ _ |- _ => inversion H; subst; clear H
         | H : Forall3 _ [] _ _ |- _ => inversion H; subst; clear H
         | H : represents _ _ ?v |- _ =>
             destruct v; cbn [represents] in H; try contradiction; subst
         end.

(** The [euint32] branch on sane inputs: the handle is a hash, and the
    proof reads back as the six fields it was made of. *)
Lemma compatibleEncoding_euint32_ok (contractAddress userAddress : string)
    (value timestamp nonce : Z) :
  hex_address contractAddress = true -> hex_address userAddress = true ->
  0 <= value <= 2 ^ 32 - 1 ->
  0 <= timestamp <= Ethers.MAX_SAFE_INTEGER ->
  0 <= nonce <= Ethers.MAX_SAFE_INTEGER ->
  exists hb pb ca ua hash,
    compatibleEncoding contractAddress userAddress value euint32 timestamp nonce
    = Ok {| handle := Ethers.hexlify hb; proof := Ethers.hexlify pb |}
    /\ length hb = 32%nat
    /\ Ethers.getAddress contractAddress = Ok ca
    /\ Ethers.getAddress userAddress = Ok ua
    /\ Ethers.decode euint32_proof_types pb
       = Ok [Ethers.ValBytes32 hb; Ethers.ValAddress ca; Ethers.ValAddress ua;
             Ethers.ValUint value; Ethers.ValUint timestamp; Ethers.ValBytes32 hash].
Proof.
  intros Hc Hu Hv Ht Hn.
  assert (Hsafe : 0 <= value <= Ethers.MAX_SAFE_INTEGER).
  { assert (2 ^ 32 - 1 <= Ethers.MAX_SAFE_INTEGER) by (vm_compute; discriminate). lia. }
  destruct (euint32_preimage_ok _ _ _ _ _ Hc Hu Hsafe Ht Hn) as [pre Hpre].
  unfold compatibleEncoding. rewrite Hpre. cbn [rbind].
  destruct (getBytes_of_hex_address _ Hc) as [Hca _].
  destruct (getBytes_of_hex_address _ Hu) as [Hua _].
  match goal with
  | |- context [Ethers.encode ?ts ?args] =>
      destruct (AbiFacts.encode_ok ts args eq_refl) as [pb Hpb]
  end.
  { repeat (apply List.Forall2_cons || apply List.Forall2_nil).
    - apply encode_one_bytes32_ok, EthersFacts.keccak256_length.
    - apply encode_one_address_ok, Hca.
    - apply encode_one_address_ok, Hua.
    - apply encode_one_uint_ok; [exact Hsafe|lia].
    - apply encode_one_uint_ok; [exact Ht|apply safe_integer_is_uint256; lia].
    - apply encode_one_bytes32_ok, EthersFacts.keccak256_length. }
  rewrite Hpb. cbn [rbind].
  destruct (AbiFacts.decode_encode euint32_proof_types _ _ eq_refl Hpb)
    as (_ & vs & Hdec & Hrep).
  unfold euint32_proof_types in Hrep. invert_represents.
  eexists _, pb, _, _, _. repeat split; eassumption.
Qed.

Lemma timestamp_safe (now : Z) :
  0 <= now <= Ethers.MAX_SAFE_INTEGER -> 0 <= now / 1000 <= Ethers.MAX_SAFE_INTEGER.
Proof.
  intros [H0 H1]. split; [apply Z.div_pos; lia|].
  apply Z.div_le_upper_bound; lia.
Qed.

(** C4.  With no engine instance, encrypting 5 as a U32 for a contract
    and a user address takes the fallback path; the handle is "0x" and
    64 hex digits, and the proof decodes as (bytes32, address, address,
    uint32, uint256, bytes32) with 5 in the uint32 field, third from
    the end. *)
Theorem fallback_u32_scenario (env : Env) (c : FHEVMClient)
    (contractAddress userAddress : string) (w wu : World) :
  fhevmInstance c = None ->
  userAddressOf env c w = (Ok userAddress, wu) ->
  hex_address contractAddress = true ->
  hex_address userAddress = true ->
  0 <= dateNow env (tick wu) <= Ethers.MAX_SAFE_INTEGER ->
  0 <= randomNonce env (S (tick wu)) <= Ethers.MAX_SAFE_INTEGER ->
  exists handleBytes proofBytes f0 f1 f2 f4 f5,
    createEncryptedInput env c contractAddress 5 euint32 w
    = (Ok {| handle := Ethers.hexlify handleBytes;
             proof := Ethers.hexlify proofBytes |}, next (next wu))
    /\ createEncryptedInput env c contractAddress 5 euint32 w
       = createCompatibleEncryptedInput env c contractAddress 5 euint32 w
    /\ String.length (Ethers.hexlify handleBytes) = 66%nat
    /\ Ethers.isHexString (Ethers.hexlify handleBytes) 32 = true
    /\ Ethers.decode
         [Ethers.bytes32; Ethers.address; Ethers.address; Ethers.uint 32;
          Ethers.uint 256; Ethers.bytes32] proofBytes
       = Ok [f0; f1; f2; Ethers.ValUint 5; f4; f5].
Proof.
  intros Hi Hu Hca Hua Hnow Hnonce.
  destruct (compatibleEncoding_euint32_ok contractAddress userAddress 5
              (dateNow env (tick wu) / 1000) (randomNonce env (S (tick wu)))
              Hca Hua ltac:(lia) (timestamp_safe _ Hnow) Hnonce)
    as (hb & pb & ca & ua & hash & Henc & Hl & _ & _ & Hdec).
  assert (Hfallback :
    createCompatibleEncryptedInput env c contractAddress 5 euint32 w
    = (Ok {| handle := Ethers.hexlify hb; proof := Ethers.hexlify pb |},
       next (next wu))).
  { rewrite createCompatibleEncryptedInput_unfold. unfold compatiblePath.
    unfold bind at 1. rewrite Hu. run_monad. cbn [tick next]. rewrite Henc.
    reflexivity. }
  assert (Hsame :
    createEncryptedInput env c contractAddress 5 euint32 w
    = createCompatibleEncryptedInput env c contractAddress 5 euint32 w).
  { unfold createEncryptedInput, try_catch. rewrite Hi, Hfallback. reflexivity. }
  exists hb, pb, (Ethers.ValBytes32 hb), (Ethers.ValAddress ca),
    (Ethers.ValAddress ua), (Ethers.ValUint (dateNow env (tick wu) / 1000)),
    (Ethers.ValBytes32 hash).
  destruct (bytes32_text_hexlify hb Hl) as [Hhex Hlen].
  rewrite Hsame, Hfallback. repeat split; assumption.
Qed.

(** The bytes hashed by the [euint32] branch determine the timestamp
    and the nonce: two calls that differ in either hash different
    bytes. *)
Lemma euint32_preimage_fresh (contractAddress userAddress : string)
    (value t1 n1 t2 n2 : Z) (p1 p2 : list byte) :
  euint32_preimage contractAddress userAddress value t1 n1 = Ok p1 ->
  euint32_preimage contractAddress userAddress value t2 n2 = Ok p2 ->
  p1 = p2 -> t1 = t2 /\ n1 = n2.
Proof.
  unfold euint32_preimage. intros H1 H2 Heq.
  destruct (Ethers.toBeHex value) as [hv|]; [|discriminate]. cbn [rbind] in *.
  destruct (Ethers.zeroPadValue hv 32) as [vb|]; [|discriminate]. cbn [rbind] in *.
  destruct (Ethers.getBytes contractAddress) as [cb|]; [|discriminate].
  cbn [rbind] in *.
  destruct (Ethers.getBytes userAddress) as [ub|]; [|discriminate].
  cbn [rbind] in *.
  destruct (Ethers.toBeHex t1) as [ht1|] eqn:Et1; [|discriminate]. cbn [rbind] in H1.
  destruct (Ethers.zeroPadValue ht1 8) as [tb1|] eqn:Pt1; [|discriminate].
  cbn [rbind] in H1.
  destruct (Ethers.toBeHex n1) as [hn1|] eqn:En1; [|discriminate]. cbn [rbind] in H1.
  destruct (Ethers.zeroPadValue hn1 8) as [nb1|] eqn:Pn1; [|discriminate].
  cbn [rbind] in H1.
  destruct (Ethers.toBeHex t2) as [ht2|] eqn:Et2; [|discriminate]. cbn [rbind] in H2.
  destruct (Ethers.zeroPadValue ht2 8) as [tb2|] eqn:Pt2; [|discriminate].
  cbn [rbind] in H2.
  destruct (Ethers.toBeHex n2) as [hn2|] eqn:En2; [|discriminate]. cbn [rbind] in H2.
  destruct (Ethers.zeroPadValue hn2 8) as [nb2|] eqn:Pn2; [|discriminate].
  cbn [rbind] in H2.
  injection H1 as <-. injection H2 as <-.
  apply (app_inv_head (Ethers.toUtf8Bytes "FHEVM_EUINT32")) in Heq.
  repeat apply app_inv_head in Heq.
  apply EthersFacts.toBeHex_inv in Et1 as (_ & _ & V1), En1 as (_ & _ & V2),
    Et2 as (_ & _ & V3), En2 as (_ & _ & V4).
  apply EthersFacts.zeroPadValue_inv in Pt1 as [-> L1], Pn1 as [-> L2],
    Pt2 as [-> L3], Pn2 as [-> L4].
  apply app_inj_1 in Heq as [Ht Hn]; [|congruence].
  apply (f_equal (fun bs => Hex.be_value bs 0)) in Ht, Hn.
  rewrite !HexFacts.be_value_zeros in Ht, Hn. split; congruence.
Qed.

(** C3 (the code departs from it).  The [ebool] branch never reads the
    nonce: two calls that agree on the addresses, the value and the
    second of the clock return the same handle and the same proof,
    whatever their nonces -- here for contract 0xAA..AA, user 0xBB..BB,
    value 1, nonces 111111 and 999999.  The [euint32] branch does hash
    the nonce ([euint32_preimage_fresh]). *)
Theorem ebool_encoding_ignores_nonce :
  (forall contractAddress userAddress value timestamp nonce1 nonce2,
      compatibleEncoding contractAddress userAddress value ebool timestamp nonce1
      = compatibleEncoding contractAddress userAddress value ebool timestamp nonce2)
  /\ exists r,
      fst (createCompatibleEncryptedInput (Scenario.env 11155111 111111)
             Scenario.client_without_engine Scenario.contractAA 1 ebool
             Scenario.world0) = Ok r
      /\ fst (createCompatibleEncryptedInput (Scenario.env 11155111 999999)
               Scenario.client_without_engine Scenario.contractAA 1 ebool
               Scenario.world0) = Ok r
      /\ handle r
         = "0xba658ece57f7a2561c7194493838035f762faa63993f500af3ca379812ef2954".
Proof.
  split; [reflexivity|]. eexists. vm_compute. repeat split.
Qed.

End FallbackFacts.

(** ** The builder on the concrete run *)

Module BuilderRuns.
Import Client.



Lemma createEncryptedInput_never_rejects_witness :
  well_typed Scenario.contractAA 5
  /\ exists r w1,
      createEncryptedInput (Scenario.env 11155111 424242)
        Scenario.client_without_engine Scenario.contractAA 5 euint32
        Scenario.world0 = (Ok r, w1).
Proof.
  assert (Hwt : well_typed Scenario.contractAA 5).
  { split; [vm_compute; reflexivity|]. vm_compute. split; discriminate. }
  split; [exact Hwt|].
  apply (BuilderFacts.createEncryptedInput_never_rejects
           (Scenario.env 11155111 424242) Scenario.client_without_engine
           Scenario.contractAA 5 euint32 Scenario.world0 Hwt).
Defined.

Lemma fallback_u32_scenario_witness :
  exists handleBytes proofBytes f0 f1 f2 f4 f5,
    createEncryptedInput (Scenario.env 11155111 424242)
      Scenario.client_without_engine Scenario.contractAA 5 euint32 Scenario.world0
    = (Ok {| handle := Ethers.hexlify handleBytes;
             proof := Ethers.hexlify proofBytes |},
       next (next (next (request "getSigner" Scenario.world0))))
    /\ createEncryptedInput (Scenario.env 11155111 424242)
         Scenario.client_without_engine Scenario.contractAA 5 euint32 Scenario.world0
       = createCompatibleEncryptedInput (Scenario.env 11155111 424242)
           Scenario.client_without_engine Scenario.contractAA 5 euint32
           Scenario.world0
    /\ String.length (Ethers.hexlify handleBytes) = 66%nat
    /\ Ethers.isHexString (Ethers.hexlify handleBytes) 32 = true
    /\ Ethers.decode
         [Ethers.bytes32; Ethers.address; Ethers.address; Ethers.uint 32;
          Ethers.uint 256; Ethers.bytes32] proofBytes
       = Ok [f0; f1; f2; Ethers.ValUint 5; f4; f5].
Proof.
  apply (FallbackFacts.fallback_u32_scenario
           (Scenario.env 11155111 424242) Scenario.client_without_engine
           Scenario.contractAA Scenario.userBB Scenario.world0
           (next (request "getSigner" Scenario.world0))).
  - reflexivity.
  - reflexivity.
  - vm_compute. reflexivity.
  - vm_compute. reflexivity.
  - vm_compute. split; discriminate.
  - vm_compute. split; discriminate.
Defined.

(** Outside the well-typed inputs both fallbacks throw: -1 is a
    [number], but [toBeHex] refuses it, so the call rejects. *)
Example createEncryptedInput_rejects_negative :
  fst (createEncryptedInput (Scenario.env 11155111 424242)
         Scenario.client_without_engine Scenario.contractAA (-1) euint32
         Scenario.world0)
  = Throw "unsigned value cannot be negative".
Proof. vm_compute. reflexivity. Qed.

(** A value too large for uint32 is where the minimal fallback shows. *)
Example createEncryptedInput_minimal_fallback :
  fst (createEncryptedInput (Scenario.env 11155111 424242)
         Scenario.client_without_engine Scenario.contractAA (2 ^ 32) euint32
         Scenario.world0)
  = Ok {| handle := "0x0000000000000000000000000000000000000000000000000000000100000000";
          proof := "0x0000000000000000000000000000000000000000000000000000000100000000000000000000000000000000aaaaaaaaaaaaaaaaaaaaaaaaaaaaaaaaaaaaaaaa" |}.
Proof. vm_compute. reflexivity. Qed.

End BuilderRuns.

(** ** The lifecycle of a meta transaction *)

Module LifecycleFacts.
Import Lifecycle.

Lemma terminal_is_final (s s' : TxStatus) :
  HookActions.is_terminal s = true -> moves s s' -> s' = s.
Proof.
  intros Ht [H|H]; [exact H|]. destruct s, s'; cbn in *; try discriminate; lia.
Qed.

(** The assignments one call of [executeMetaTransaction] makes to the
    status of its transaction, oldest first: none when the call fails
    before the transaction exists; otherwise [pending], then
    [processing] unless the signer or the function lookup failed, then
    [completed] or [failed]. *)
Ltac failed_after writes :=
  exists writes; cbn;
  split; [reflexivity|]; split; [auto|]; split; [discriminate|];
  let message := fresh "message" in
  let H := fresh "H" in
  intros message H; injection H as <-; right; split; [reflexivity|eauto].

Lemma executeMetaTransaction_writes (env : Env) (m : FHEVMMetaManager)
    (functionName : string) (encryptedParams : list EncryptedParameter) (w : World) :
  exists txId writes,
    status_writes (snd (Manager.executeMetaTransaction env m functionName
                          encryptedParams w))
    = map (pair txId) (rev writes) ++ status_writes w
    /\ (writes = [] \/ writes = [pending; failed]
        \/ writes = [pending; processing; failed]
        \/ writes = [pending; processing; completed])
    /\ (forall tx,
          fst (Manager.executeMetaTransaction env m functionName encryptedParams w)
          = Ok tx ->
          tx_id tx = txId /\ last writes = Some (tx_status tx)
          /\ HookActions.is_terminal (tx_status tx) = true)
    /\ (forall message,
          fst (Manager.executeMetaTransaction env m functionName encryptedParams w)
          = Throw message ->
          writes = []
          \/ (last writes = Some failed
              /\ exists cause, message = "Meta transaction failed: " +:+ cause)).
Proof.
  unfold Manager.executeMetaTransaction.
  destruct (m_fhevmClient m); [|exists "", []; cbn; intuition discriminate].
  destruct (m_isInitialized m); cbn [negb];
    [|exists "", []; cbn; intuition discriminate].
  unfold Manager.write_status. run_monad. cbn [tick next request].
  destruct (signerAddress env (tick w)) as [user|];
    [|exists "", []; cbn; intuition discriminate].
  cbn [tick next request status_writes].
  set (txId := "fhe_meta_" +:+ _ +:+ "_" +:+ _). exists txId.
  destruct (signerAddress env _) as [signer|];
    [|failed_after [pending; failed]].
  destruct (contractHas env functionName); cbn [negb];
    [|failed_after [pending; failed]].
  cbn [tick next request status_writes].
  destruct (sendTransaction env _ _ _) as [txHash|];
    [|failed_after [pending; processing; failed]].
  cbn [tick next request status_writes].
  destruct (waitReceipt env _) as [receipt|];
    [|failed_after [pending; processing; failed]].
  destruct (receipt_gasUsed receipt) as [g|];
    [|failed_after [pending; processing; failed]].
  cbn [tick next request status_writes].
  destruct (receipt_status receipt =? 1).
  - exists [pending; processing; completed]. cbn.
    split; [reflexivity|]. split; [auto|]. split; [|discriminate].
    intros tx H. injection H as <-. cbn. auto.
  - exists [pending; processing; failed]. cbn.
    split; [reflexivity|]. split; [auto|]. split; [|discriminate].
    intros tx H. injection H as <-. cbn. auto.
Qed.










End LifecycleFacts.

(** ** The key material cache *)

Module CacheFacts.
Import PublicKeyStorage.

(** [get] never throws. *)
Lemma get_never_throws (env : Env) (aclAddress : string) (w : World) :
  exists cached, fst (get env aclAddress w) = Ok cached.
Proof.
  unfold get. destruct (opens (idb env (tick w))); eexists; reflexivity.
Qed.

(** [set] never throws either, whatever the store does. *)
Lemma set_never_throws (env : Env) (aclAddress : string)
    (publicKey : option FhevmStoredPublicKey)
    (publicParams : option FhevmStoredPublicParams) (w : World) :
  fst (set env aclAddress publicKey publicParams w) = Ok tt.
Proof.
  unfold set. destruct (opens (idb env (tick w)) && commits (idb env (tick w)));
    reflexivity.
Qed.

(** On a store that answers, an address never written comes back with no
    [publicKey] property at all, not with [publicKey: null]. *)
Lemma get_unknown_is_not_null_null :
  fst (get (Scenario.env 11155111 0) Scenario.contractAA Scenario.world0)
  = Ok {| cached_publicKey := Absent; cached_publicParams := None |}
  /\ fst (get (Scenario.env 11155111 0) Scenario.contractAA Scenario.world0)
     <> Ok {| cached_publicKey := Null; cached_publicParams := None |}.
Proof. split; [reflexivity|discriminate]. Qed.

(** C6, amended.  On a working store, [set] of a key (with a non-empty
    id) and of parameters, followed by [get], returns that key as
    [{id, data}] and those parameters.  [get] of an address never
    written does not throw: it returns an object without [publicKey] and
    with [publicParams: null] when the store opens, and
    [{publicKey: null, publicParams: null}] when it does not. *)
Theorem cache_round_trip (env : Env) (aclAddress : string)
    (pk : FhevmStoredPublicKey) (pp : FhevmStoredPublicParams) (w : World) :
  working (idb env (tick w)) = true ->
  working (idb env (S (tick w))) = true ->
  publicKeyId pk <> "" ->
  (let w1 := snd (set env aclAddress (Some pk) (Some pp) w) in
   fst (get env aclAddress w1)
   = Ok {| cached_publicKey :=
             Present {| id := publicKeyId pk; data := publicKey pk |};
           cached_publicParams := Some pp |})
  /\ (forall other w0,
        publicKeyStore w0 !! other = None -> paramsStore w0 !! other = None ->
        fst (get env other w0)
        = Ok (if opens (idb env (tick w0))
              then {| cached_publicKey := Absent; cached_publicParams := None |}
              else {| cached_publicKey := Null; cached_publicParams := None |})).
Proof.
  intros Hset Hget Hid. unfold working in Hset, Hget.
  apply andb_prop in Hset as [Hset Hcommit]. apply andb_prop in Hset as [Hset _].
  apply andb_prop in Hset as [Hopen _].
  apply andb_prop in Hget as [Hget _]. apply andb_prop in Hget as [Hget Hparams].
  apply andb_prop in Hget as [Hopen' Hkey].
  split.
  - unfold set, get. rewrite Hopen, Hcommit.
    cbn [andb snd tick next put_all publicKeyStore paramsStore].
    rewrite Hopen', Hkey, Hparams, !lookup_insert_eq.
    apply String.eqb_neq in Hid. rewrite Hid. reflexivity.
  - intros other w0 Hk Hp. unfold get.
    destruct (opens (idb env (tick w0))); [|reflexivity].
    rewrite Hk, Hp.
    destruct (key_request_ok (idb env (tick w0))),
      (params_request_ok (idb env (tick w0))); reflexivity.
Qed.

Lemma cache_round_trip_witness :
  let pk := {| publicKeyId := "key-1"; publicKey := [x01; x02] |} in
  let pp := {| publicParamsId := "params-1"; publicParams := [x03] |} in
  working (idb (Scenario.env 11155111 0) (tick Scenario.world0)) = true
  /\ publicKeyId pk <> ""
  /\ fst (get (Scenario.env 11155111 0) Scenario.contractAA
            (snd (set (Scenario.env 11155111 0) Scenario.contractAA
                    (Some pk) (Some pp) Scenario.world0)))
     = Ok {| cached_publicKey := Present {| id := "key-1"; data := [x01; x02] |};
             cached_publicParams := Some pp |}.
Proof.
  intros pk pp. split; [reflexivity|]. split; [discriminate|].
  apply (cache_round_trip (Scenario.env 11155111 0) Scenario.contractAA pk pp
           Scenario.world0); [reflexivity|reflexivity|discriminate].
Defined.

End CacheFacts.

(** ** Cancellation of [createFhevmInstance] *)

Module CancellationFacts.
Import Factory.
Local Open Scope monad_scope.






























End CancellationFacts.

(** ** Readiness *)

Module ReadinessFacts.

Lemma isReady_iff (c : FHEVMClient) :
  Client.isReady c = true <-> chainId c = 11155111 \/ chainId c = 31337.
Proof.
  unfold Client.isReady, Client.SEPOLIA, Client.HARDHAT.
  rewrite orb_true_iff, !Z.eqb_eq. reflexivity.
Qed.

Lemma isNetworkSupported_iff (chain : Z) :
  Manager.isNetworkSupported chain = true <-> chain = 11155111 \/ chain = 31337.
Proof.
  unfold Manager.isNetworkSupported, Manager.getSupportedNetworks. cbn [existsb].
  rewrite !orb_true_iff, !Z.eqb_eq. intuition discriminate.
Qed.

(** [FHEVMClient.initialize] never throws and never touches the chain id. *)
Lemma initialize_keeps_chain (env : Env) (c : FHEVMClient) (w : World) :
  exists c',
    fst (Factory.initialize env c w) = Ok c'
    /\ chainId c' = chainId c
    /\ provider c' = provider c
    /\ (forall e w1,
          Factory.createFhevmInstance (Factory.never_aborted env) (provider c)
            Factory.default_mockChains w = (Throw e, w1) ->
          fhevmInstance c' = None).
Proof.
  unfold Factory.initialize, try_catch, bind, ret.
  destruct (Factory.createFhevmInstance _ _ _ w) as [[instance|e] w1].
  - eexists. repeat split. intros e w2 H. discriminate.
  - eexists. repeat split.
Qed.

(** C10.  [FHEVMClient.isReady] looks at the chain id alone: it is true
    exactly on 11155111 and 31337.  [initialize] swallows a failed
    creation of the instance, leaving it [null], and changes neither the
    chain id nor, therefore, readiness.  Once [FHEVMMetaManager.initialize]
    has succeeded, the manager is ready exactly when the chain id of its
    client is one of the two. *)
Theorem isReady_depends_on_chain_only :
  (forall c, Client.isReady c = true <-> chainId c = 11155111 \/ chainId c = 31337)
  /\ (forall env c w,
        exists c',
          fst (Factory.initialize env c w) = Ok c'
          /\ Client.isReady c' = Client.isReady c
          /\ (forall e w1,
                Factory.createFhevmInstance (Factory.never_aborted env) (provider c)
                  Factory.default_mockChains w = (Throw e, w1) ->
                fhevmInstance c' = None))
  /\ (forall env m w m',
        fst (Manager.initialize env m w) = Ok m' ->
        exists client,
          m_fhevmClient m' = Some client
          /\ Manager.isReady m' = Client.isReady client
          /\ (Manager.isReady m' = true
              <-> chainId client = 11155111 \/ chainId client = 31337)).
Proof.
  split; [exact isReady_iff|]. split.
  - intros env c w.
    destruct (initialize_keeps_chain env c w) as (c' & H & Hc & _ & Hn).
    exists c'. split; [exact H|]. split; [|exact Hn].
    unfold Client.isReady. rewrite Hc. reflexivity.
  - intros env m w m'. unfold Manager.initialize, try_catch, bind, ret, throw.
    destruct (Factory.createFHEVMClient env BrowserProvider w) as [[client|e] w1];
      cbn [fst]; [|discriminate].
    intros H. injection H as <-. exists client.
    split; [reflexivity|]. split; [reflexivity|].
    cbn [Manager.isReady m_isInitialized m_fhevmClient andb]. apply isReady_iff.
Qed.

(** On Sepolia with the relayer out of reach: no instance, and ready. *)
Lemma isReady_depends_on_chain_only_witness :
  exists m' client,
    fst (Manager.initialize (Scenario.env 11155111 424242)
           (Manager.new 11155111 Scenario.contractAA) Scenario.world0) = Ok m'
    /\ m_fhevmClient m' = Some client
    /\ fhevmInstance client = None
    /\ Manager.isReady m' = true.
Proof.
  eexists _, _. split; [vm_compute; reflexivity|].
  split; [reflexivity|]. split; [reflexivity|].
  destruct isReady_depends_on_chain_only as (_ & _ & H).
  destruct (H (Scenario.env 11155111 424242)
              (Manager.new 11155111 Scenario.contractAA) Scenario.world0 _ eq_refl)
    as (client & Hc & _ & Hready).
  apply Hready. injection Hc as <-. left. reflexivity.
Defined.

End ReadinessFacts.

(** ** The hook: unsupported networks and failed transactions *)

Module HookFacts.
Import HookActions.







(** What the hook makes of the manager's answer. *)
Lemma executeMetaTransaction_outcome (env : Env) (captured : FHEVMMetaHookState)
    (functionName : string) (params : list Param) (h : Hook) (w : World)
    (manager : FHEVMMetaManager) :
  metaManagerRef h = Some manager ->
  match executeMetaTransaction env captured functionName params (h, w) with
  | (Ok tx, (h', _)) =>
      transactions (state h') = tx :: transactions captured
      /\ currentTransaction (state h') = Some tx
      /\ error (state h') = None
      /\ exists encryptedParams w1,
          fst (Manager.executeMetaTransaction env manager functionName
                 encryptedParams w1) = Ok tx
  | (Throw message, (h', _)) =>
      transactions (state h') = transactions (state h)
      /\ error (state h') = Some ("Transaction failed: " +:+ message)
  end.
Proof.
  intros Hm. unfold executeMetaTransaction, setState, in_world. run_monad.
  cbn [fst]. rewrite Hm.
  destruct (Manager.createEncryptedParams env manager functionName params w)
    as [[encryptedParams|e] w1]; [|split; reflexivity].
  destruct (Manager.executeMetaTransaction env manager functionName encryptedParams w1)
    as [[tx|e] w2] eqn:E; [|split; reflexivity].
  repeat split. exists encryptedParams, w1. rewrite E. reflexivity.
Qed.




End HookFacts.

(** ** What the fallback encodings carry *)

Module EncodingFacts.
Import Client ClientFacts BuilderFacts FallbackFacts.
Local Open Scope result_scope.

(** The bytes hashed by the boolean branch, on sane inputs. *)
Lemma ebool_preimage_ok (contractAddress userAddress : string)
    (boolValue timestamp : Z) :
  hex_address contractAddress = true -> hex_address userAddress = true ->
  0 <= boolValue <= Ethers.MAX_SAFE_INTEGER ->
  0 <= timestamp <= Ethers.MAX_SAFE_INTEGER ->
  exists preimage,
    ebool_preimage contractAddress userAddress boolValue timestamp = Ok preimage.
Proof.
  intros Hc Hu Hv Ht. unfold ebool_preimage.
  destruct (EthersFacts.padded_value_ok boolValue 32 Hv ltac:(lia))
    as (h1 & b1 & E1 & P1 & _).
  destruct (EthersFacts.padded_value_ok timestamp 8 Ht ltac:(lia))
    as (h2 & b2 & E2 & P2 & _).
  destruct (getBytes_of_hex_address _ Hc) as [_ [cb Ecb]].
  destruct (getBytes_of_hex_address _ Hu) as [_ [ub Eub]].
  rewrite E1. cbn [rbind]. rewrite P1. cbn [rbind]. rewrite Ecb. cbn [rbind].
  rewrite Eub. cbn [rbind]. rewrite E2. cbn [rbind]. rewrite P2. cbn [rbind].
  eexists. reflexivity.
Qed.

(** X1.  The boolean branch of the fallback, on addresses written in
    hex and a sane clock: whatever the number passed as value, the
    handle is the hash of the bytes of [ebool_preimage], and the proof
    decodes as (bytes32, address, address, bool, uint256, bytes32) into
    that handle, the two addresses (checksummed), the truth value of the
    number, and the timestamp.  The branch is taken for every type other
    than [euint32]. *)
Theorem compatibleEncoding_bool_round_trip (contractAddress userAddress : string)
    (value timestamp nonce : Z) (type : fhe_type) :
  type <> euint32 ->
  hex_address contractAddress = true -> hex_address userAddress = true ->
  0 <= timestamp <= Ethers.MAX_SAFE_INTEGER ->
  exists preimage pb ca ua hash,
    ebool_preimage contractAddress userAddress
      (if truthy_number value then 1 else 0) timestamp = Ok preimage
    /\ compatibleEncoding contractAddress userAddress value type timestamp nonce
       = Ok {| handle := Ethers.hexlify (Ethers.keccak256 preimage);
               proof := Ethers.hexlify pb |}
    /\ Ethers.getAddress contractAddress = Ok ca
    /\ Ethers.getAddress userAddress = Ok ua
    /\ Ethers.decode ebool_proof_types pb
       = Ok [Ethers.ValBytes32 (Ethers.keccak256 preimage); Ethers.ValAddress ca;
             Ethers.ValAddress ua; Ethers.ValBool (truthy_number value);
             Ethers.ValUint timestamp; Ethers.ValBytes32 hash].
Proof.
  intros Htype Hc Hu Ht.
  assert (Hb : 0 <= (if truthy_number value then 1 else 0) <= Ethers.MAX_SAFE_INTEGER).
  { assert (1 <= Ethers.MAX_SAFE_INTEGER) by (vm_compute; discriminate).
    destruct (truthy_number value); lia. }
  destruct (ebool_preimage_ok _ _ _ _ Hc Hu Hb Ht) as [pre Hpre].
  destruct (getBytes_of_hex_address _ Hc) as [Hca _].
  destruct (getBytes_of_hex_address _ Hu) as [Hua _].
  assert (Henc : exists pb,
    Ethers.encode ebool_proof_types
      [Ethers.ArgHex (Ethers.keccak256 pre); Ethers.ArgString contractAddress;
       Ethers.ArgString userAddress; Ethers.ArgBool (truthy_number value);
       Ethers.ArgNumber timestamp;
       Ethers.ArgHex (Ethers.keccak256 (Ethers.toUtf8Bytes
         ("bool_proof_" +:+ string_of_Z (if truthy_number value then 1 else 0)
            +:+ "_" +:+ string_of_Z timestamp)))] = Ok pb).
  { apply (AbiFacts.encode_ok ebool_proof_types _ eq_refl).
    repeat (apply List.Forall2_cons || apply List.Forall2_nil).
    - apply encode_one_bytes32_ok, EthersFacts.keccak256_length.
    - apply encode_one_address_ok, Hca.
    - apply encode_one_address_ok, Hua.
    - reflexivity.
    - apply encode_one_uint_ok; [exact Ht|apply safe_integer_is_uint256; lia].
    - apply encode_one_bytes32_ok, EthersFacts.keccak256_length. }
  destruct Henc as [pb Hpb].
  destruct (AbiFacts.decode_encode ebool_proof_types _ _ eq_refl Hpb)
    as (_ & vs & Hdec & Hrep).
  unfold ebool_proof_types in Hrep. invert_represents.
  eexists pre, pb, _, _, _. split; [exact Hpre|].
  split; [|repeat split; eassumption].
  unfold compatibleEncoding.
  destruct type; [contradiction| |]; rewrite Hpre; cbn [rbind]; rewrite Hpb;
    reflexivity.
Qed.

Lemma compatibleEncoding_bool_round_trip_witness :
  exists preimage pb ca ua hash,
    ebool_preimage Scenario.contractAA Scenario.userBB 1 1700000000 = Ok preimage
    /\ compatibleEncoding Scenario.contractAA Scenario.userBB 7 ebool 1700000000 0
       = Ok {| handle := Ethers.hexlify (Ethers.keccak256 preimage);
               proof := Ethers.hexlify pb |}
    /\ Ethers.getAddress Scenario.contractAA = Ok ca
    /\ Ethers.getAddress Scenario.userBB = Ok ua
    /\ Ethers.decode ebool_proof_types pb
       = Ok [Ethers.ValBytes32 (Ethers.keccak256 preimage); Ethers.ValAddress ca;
             Ethers.ValAddress ua; Ethers.ValBool true;
             Ethers.ValUint 1700000000; Ethers.ValBytes32 hash].
Proof.
  apply (compatibleEncoding_bool_round_trip Scenario.contractAA Scenario.userBB
           7 1700000000 0 ebool).
  - discriminate.
  - vm_compute. reflexivity.
  - vm_compute. reflexivity.
  - vm_compute. split; discriminate.
Defined.


(** X2.  The [euint32] branch of [createCompatibleEncryptedInput], for
    any value that fits 32 bits: the call returns after three questions
    (the signer, the clock, the random generator); the handle is the
    hash of the bytes of [euint32_preimage]; and the proof decodes as
    (bytes32, address, address, uint32, uint256, bytes32) into that
    handle, the two addresses, the value and the second of the clock. *)
Theorem createCompatibleEncryptedInput_u32_round_trip (env : Env) (c : FHEVMClient)
    (contractAddress userAddress : string) (value : Z) (w wu : World) :
  userAddressOf env c w = (Ok userAddress, wu) ->
  hex_address contractAddress = true -> hex_address userAddress = true ->
  0 <= value <= 2 ^ 32 - 1 ->
  0 <= dateNow env (tick wu) <= Ethers.MAX_SAFE_INTEGER ->
  0 <= randomNonce env (S (tick wu)) <= Ethers.MAX_SAFE_INTEGER ->
  let timestamp := dateNow env (tick wu) / 1000 in
  let nonce := randomNonce env (S (tick wu)) in
  exists preimage pb ca ua hash,
    euint32_preimage contractAddress userAddress value timestamp nonce = Ok preimage
    /\ createCompatibleEncryptedInput env c contractAddress value euint32 w
       = (Ok {| handle := Ethers.hexlify (Ethers.keccak256 preimage);
                proof := Ethers.hexlify pb |}, next (next wu))
    /\ Ethers.getAddress contractAddress = Ok ca
    /\ Ethers.getAddress userAddress = Ok ua
    /\ Ethers.decode euint32_proof_types pb
       = Ok [Ethers.ValBytes32 (Ethers.keccak256 preimage); Ethers.ValAddress ca;
             Ethers.ValAddress ua; Ethers.ValUint value; Ethers.ValUint timestamp;
             Ethers.ValBytes32 hash].
Proof.
  intros Hu Hca Hua Hv Hnow Hnonce timestamp nonce.
  assert (Hsafe : 0 <= value <= Ethers.MAX_SAFE_INTEGER).
  { assert (2 ^ 32 - 1 <= Ethers.MAX_SAFE_INTEGER) by (vm_compute; discriminate). lia. }
  pose proof (timestamp_safe _ Hnow) as Ht. fold timestamp in Ht.
  destruct (euint32_preimage_ok _ _ _ _ _ Hca Hua Hsafe Ht Hnonce) as [pre Hpre].
  fold nonce in Hpre.
  destruct (getBytes_of_hex_address _ Hca) as [Ha1 _].
  destruct (getBytes_of_hex_address _ Hua) as [Ha2 _].
  assert (Henc : exists pb,
    Ethers.encode euint32_proof_types
      [Ethers.ArgHex (Ethers.keccak256 pre); Ethers.ArgString contractAddress;
       Ethers.ArgString userAddress; Ethers.ArgNumber value;
       Ethers.ArgNumber timestamp;
       Ethers.ArgHex (Ethers.keccak256 (Ethers.toUtf8Bytes
         ("proof_" +:+ string_of_Z value +:+ "_" +:+ string_of_Z timestamp
            +:+ "_" +:+ string_of_Z nonce)))] = Ok pb).
  { apply (AbiFacts.encode_ok euint32_proof_types _ eq_refl).
    repeat (apply List.Forall2_cons || apply List.Forall2_nil).
    - apply encode_one_bytes32_ok, EthersFacts.keccak256_length.
    - apply encode_one_address_ok, Ha1.
    - apply encode_one_address_ok, Ha2.
    - apply encode_one_uint_ok; [exact Hsafe|lia].
    - apply encode_one_uint_ok; [exact Ht|apply safe_integer_is_uint256; lia].
    - apply encode_one_bytes32_ok, EthersFacts.keccak256_length. }
  destruct Henc as [pb Hpb].
  destruct (AbiFacts.decode_encode euint32_proof_types _ _ eq_refl Hpb)
    as (_ & vs & Hdec & Hrep).
  unfold euint32_proof_types in Hrep. invert_represents.
  eexists pre, pb, _, _, _. split; [exact Hpre|].
  split; [|repeat split; eassumption].
  rewrite createCompatibleEncryptedInput_unfold. unfold compatiblePath.
  unfold bind at 1. rewrite Hu. run_monad. cbn [tick next].
  fold timestamp nonce. unfold compatibleEncoding. rewrite Hpre. cbn [rbind].
  rewrite Hpb. reflexivity.
Qed.

Lemma createCompatibleEncryptedInput_u32_round_trip_witness :
  exists preimage pb ca ua hash,
    euint32_preimage Scenario.contractAA Scenario.userBB 4000000000 1700000000 424242
    = Ok preimage
    /\ createCompatibleEncryptedInput (Scenario.env 11155111 424242)
         Scenario.client_without_engine Scenario.contractAA 4000000000 euint32
         Scenario.world0
       = (Ok {| handle := Ethers.hexlify (Ethers.keccak256 preimage);
                proof := Ethers.hexlify pb |},
          next (next (next (request "getSigner" Scenario.world0))))
    /\ Ethers.getAddress Scenario.contractAA = Ok ca
    /\ Ethers.getAddress Scenario.userBB = Ok ua
    /\ Ethers.decode euint32_proof_types pb
       = Ok [Ethers.ValBytes32 (Ethers.keccak256 preimage); Ethers.ValAddress ca;
             Ethers.ValAddress ua; Ethers.ValUint 4000000000;
             Ethers.ValUint 1700000000; Ethers.ValBytes32 hash].
Proof.
  apply (createCompatibleEncryptedInput_u32_round_trip
           (Scenario.env 11155111 424242) Scenario.client_without_engine
           Scenario.contractAA Scenario.userBB 4000000000 Scenario.world0
           (next (request "getSigner" Scenario.world0))).
  - reflexivity.
  - vm_compute. reflexivity.
  - vm_compute. reflexivity.
  - vm_compute. split; discriminate.
  - vm_compute. split; discriminate.
  - vm_compute. split; discriminate.
Defined.

(** Three blocks of known lengths, read back from their concatenation. *)
Lemma three_blocks (a1 b1 c1 a2 b2 c2 : list byte) :
  length a1 = length a2 -> length b1 = length b2 ->
  a1 ++ b1 ++ c1 = a2 ++ b2 ++ c2 -> a1 = a2 /\ b1 = b2 /\ c1 = c2.
Proof.
  intros La Lb H. apply app_inj_1 in H as [-> H]; [|exact La].
  apply app_inj_1 in H as [-> ->]; [|exact Lb]. auto.
Qed.

(** X3.  What the [euint32] branch hashes into a handle determines the
    value, the timestamp and the nonce: for one contract and one user,
    two calls that differ in any of the three hash different bytes. *)
Theorem euint32_preimage_injective (contractAddress userAddress : string)
    (v1 t1 n1 v2 t2 n2 : Z) (p1 p2 : list byte) :
  euint32_preimage contractAddress userAddress v1 t1 n1 = Ok p1 ->
  euint32_preimage contractAddress userAddress v2 t2 n2 = Ok p2 ->
  v1 <> v2 \/ t1 <> t2 \/ n1 <> n2 ->
  p1 <> p2.
Proof.
  unfold euint32_preimage. intros H1 H2 Hdiff Heq.
  destruct (Ethers.toBeHex v1) as [hv1|] eqn:Ev1; [|discriminate]. cbn [rbind] in H1.
  destruct (Ethers.zeroPadValue hv1 32) as [vb1|] eqn:Pv1; [|discriminate].
  cbn [rbind] in H1.
  destruct (Ethers.toBeHex v2) as [hv2|] eqn:Ev2; [|discriminate]. cbn [rbind] in H2.
  destruct (Ethers.zeroPadValue hv2 32) as [vb2|] eqn:Pv2; [|discriminate].
  cbn [rbind] in H2.
  destruct (Ethers.getBytes contractAddress) as [cb|]; [|discriminate].
  cbn [rbind] in *.
  destruct (Ethers.getBytes userAddress) as [ub|]; [|discriminate].
  cbn [rbind] in *.
  destruct (Ethers.toBeHex t1) as [ht1|] eqn:Et1; [|discriminate]. cbn [rbind] in H1.
  destruct (Ethers.zeroPadValue ht1 8) as [tb1|] eqn:Pt1; [|discriminate].
  cbn [rbind] in H1.
  destruct (Ethers.toBeHex n1) as [hn1|] eqn:En1; [|discriminate]. cbn [rbind] in H1.
  destruct (Ethers.zeroPadValue hn1 8) as [nb1|] eqn:Pn1; [|discriminate].
  cbn [rbind] in H1.
  destruct (Ethers.toBeHex t2) as [ht2|] eqn:Et2; [|discriminate]. cbn [rbind] in H2.
  destruct (Ethers.zeroPadValue ht2 8) as [tb2|] eqn:Pt2; [|discriminate].
  cbn [rbind] in H2.
  destruct (Ethers.toBeHex n2) as [hn2|] eqn:En2; [|discriminate]. cbn [rbind] in H2.
  destruct (Ethers.zeroPadValue hn2 8) as [nb2|] eqn:Pn2; [|discriminate].
  cbn [rbind] in H2.
  injection H1 as <-. injection H2 as <-.
  apply (app_inv_head (Ethers.toUtf8Bytes "FHEVM_EUINT32")) in Heq.
  do 2 apply app_inv_head in Heq.
  apply EthersFacts.toBeHex_inv in Ev1 as (_ & _ & V1), Ev2 as (_ & _ & V2),
    Et1 as (_ & _ & V3), En1 as (_ & _ & V4), Et2 as (_ & _ & V5), En2 as (_ & _ & V6).
  apply EthersFacts.zeroPadValue_inv in Pv1 as [-> L1], Pv2 as [-> L2],
    Pt1 as [-> L3], Pn1 as [-> L4], Pt2 as [-> L5], Pn2 as [-> L6].
  apply three_blocks in Heq as (Hv & Ht & Hn); [|congruence|congruence].
  apply (f_equal (fun bs => Hex.be_value bs 0)) in Hv, Ht, Hn.
  rewrite !HexFacts.be_value_zeros in Hv, Ht, Hn.
  destruct Hdiff as [D|[D|D]]; apply D; congruence.
Qed.

Lemma euint32_preimage_injective_witness :
  exists p1 p2,
    euint32_preimage Scenario.contractAA Scenario.userBB 5 1700000000 111111 = Ok p1
    /\ euint32_preimage Scenario.contractAA Scenario.userBB 5 1700000000 999999 = Ok p2
    /\ p1 <> p2.
Proof.
  eexists _, _. split; [vm_compute; reflexivity|]. split; [vm_compute; reflexivity|].
  apply (euint32_preimage_injective Scenario.contractAA Scenario.userBB
           5 1700000000 111111 5 1700000000 999999);
    [vm_compute; reflexivity|vm_compute; reflexivity|right; right; discriminate].
Defined.

(** X4.  The minimal fallback keeps nothing secret: whenever it
    returns, the 32 bytes of the handle are the value itself, written
    big-endian, and the proof decodes as (uint256, address) into the
    value and the contract address. *)
Theorem minimalEncoding_round_trip (contractAddress : string) (value : Z)
    (r : EncryptedInput) :
  minimalEncoding contractAddress value = Ok r ->
  exists hb pb ca,
    handle r = Ethers.hexlify hb /\ length hb = 32%nat /\ Hex.be_value hb 0 = value
    /\ proof r = Ethers.hexlify pb
    /\ Ethers.getAddress contractAddress = Ok ca
    /\ Ethers.decode [Ethers.uint 256; Ethers.address] pb
       = Ok [Ethers.ValUint value; Ethers.ValAddress ca].
Proof.
  intros H. apply minimalEncoding_inv in H as (hb & pb & Hh & Hl & Hv & Hp & _ & Henc).
  destruct (AbiFacts.decode_encode [Ethers.uint 256; Ethers.address] _ _ eq_refl Henc)
    as (_ & vs & Hdec & Hrep).
  invert_represents. exists hb, pb. eexists. repeat split; eassumption.
Qed.

Lemma minimalEncoding_round_trip_witness :
  exists r hb pb ca,
    minimalEncoding Scenario.contractAA (2 ^ 32) = Ok r
    /\ handle r = Ethers.hexlify hb /\ length hb = 32%nat
    /\ Hex.be_value hb 0 = 2 ^ 32
    /\ proof r = Ethers.hexlify pb
    /\ Ethers.getAddress Scenario.contractAA = Ok ca
    /\ Ethers.decode [Ethers.uint 256; Ethers.address] pb
       = Ok [Ethers.ValUint (2 ^ 32); Ethers.ValAddress ca].
Proof.
  eexists.
  assert (E : minimalEncoding Scenario.contractAA (2 ^ 32)
              = Ok {| handle := "0x0000000000000000000000000000000000000000000000000000000100000000";
                      proof := "0x0000000000000000000000000000000000000000000000000000000100000000000000000000000000000000aaaaaaaaaaaaaaaaaaaaaaaaaaaaaaaaaaaaaaaa" |})
    by (vm_compute; reflexivity).
  destruct (minimalEncoding_round_trip _ _ _ E) as (hb & pb & ca & H).
  exists hb, pb, ca. split; [exact E|exact H].
Defined.

(** X5.  In the fallback a value of any type other than [euint32] is
    read as a boolean: the encoding depends on the number only through
    whether it is zero, an [euint64] is encoded exactly as an [ebool],
    and so two non-zero 64-bit values are indistinguishable in handle
    and proof. *)
Theorem fallback_reads_other_types_as_boolean (contractAddress userAddress : string)
    (v1 v2 timestamp nonce1 nonce2 : Z) (type1 type2 : fhe_type) :
  type1 <> euint32 -> type2 <> euint32 ->
  truthy_number v1 = truthy_number v2 ->
  compatibleEncoding contractAddress userAddress v1 type1 timestamp nonce1
  = compatibleEncoding contractAddress userAddress v2 type2 timestamp nonce2.
Proof.
  intros H1 H2 Hv. unfold compatibleEncoding.
  destruct type1; [contradiction| |]; destruct type2; try contradiction;
    rewrite Hv; reflexivity.
Qed.

Lemma fallback_reads_other_types_as_boolean_witness :
  compatibleEncoding Scenario.contractAA Scenario.userBB 5 euint64 1700000000 1
  = compatibleEncoding Scenario.contractAA Scenario.userBB 7000000000 ebool
      1700000000 2.
Proof.
  apply (fallback_reads_other_types_as_boolean Scenario.contractAA Scenario.userBB
           5 7000000000 1700000000 1 2 euint64 ebool);
    [discriminate|discriminate|reflexivity].
Defined.

End EncodingFacts.

(** ** The key store, beyond the round trip *)

Module StorageFacts.
Import PublicKeyStorage.

(** X6.  [set] never throws and is all or nothing.  Either the
    transaction commits, and then the entry of the address holds each
    item that was given while an item passed as [null] leaves what was
    stored; or both stores are as they were.  The entries of every
    other address are left alone in both cases. *)
Theorem set_all_or_nothing (env : Env) (aclAddress : string)
    (pk : option FhevmStoredPublicKey) (pp : option FhevmStoredPublicParams)
    (w : World) :
  let w1 := snd (set env aclAddress pk pp w) in
  fst (set env aclAddress pk pp w) = Ok tt
  /\ (forall other, other <> aclAddress ->
        publicKeyStore w1 !! other = publicKeyStore w !! other
        /\ paramsStore w1 !! other = paramsStore w !! other)
  /\ ((publicKeyStore w1 !! aclAddress
       = match pk with
         | Some k => Some k
         | None => publicKeyStore w !! aclAddress
         end
       /\ paramsStore w1 !! aclAddress
          = match pp with
            | Some p => Some p
            | None => paramsStore w !! aclAddress
            end)
      \/ same_cache w w1).
Proof.
  unfold set. destruct (opens (idb env (tick w)) && commits (idb env (tick w)));
    cbn [fst snd]; (split; [reflexivity|]).
  - split.
    + intros other Hne. cbn [next put_all publicKeyStore paramsStore].
      destruct pk, pp; rewrite ?lookup_insert_ne by congruence; auto.
    + left. cbn [next put_all publicKeyStore paramsStore].
      destruct pk, pp; rewrite ?lookup_insert_eq; auto.
  - split; [intros other _; split; reflexivity|]. right. split; reflexivity.
Qed.

(** X7.  The last write wins, item by item.  On a working store, after
    a first [set] of a key and parameters and a second [set] of
    anything, [get] returns, for each item, the one of the second call
    when it was given and the one of the first call when the second
    passed [null].  A key whose id is the empty string is stored but
    never shown: [get] then returns an object without [publicKey]. *)
Theorem cache_last_write_wins (env : Env) (aclAddress : string)
    (pk1 : FhevmStoredPublicKey) (pp1 : FhevmStoredPublicParams)
    (pk2 : option FhevmStoredPublicKey) (pp2 : option FhevmStoredPublicParams)
    (w : World) :
  working (idb env (tick w)) = true ->
  working (idb env (S (tick w))) = true ->
  working (idb env (S (S (tick w)))) = true ->
  let w1 := snd (set env aclAddress (Some pk1) (Some pp1) w) in
  let w2 := snd (set env aclAddress pk2 pp2 w1) in
  fst (get env aclAddress w2)
  = Ok {| cached_publicKey :=
            shown match pk2 with Some k => k | None => pk1 end;
          cached_publicParams :=
            Some match pp2 with Some p => p | None => pp1 end |}.
Proof.
  intros H0 H1 H2. unfold working in H0, H1, H2.
  apply andb_prop in H0 as [H0 C0]. apply andb_prop in H0 as [H0 _].
  apply andb_prop in H0 as [O0 _].
  apply andb_prop in H1 as [H1 C1]. apply andb_prop in H1 as [H1 _].
  apply andb_prop in H1 as [O1 _].
  apply andb_prop in H2 as [H2 _]. apply andb_prop in H2 as [H2 P2].
  apply andb_prop in H2 as [O2 K2].
  unfold set. rewrite O0, C0. cbn [andb snd tick next put_all]. rewrite O1, C1.
  cbn [andb snd]. unfold get. cbn [tick next put_all]. rewrite O2, K2, P2.
  cbn [fst put_all publicKeyStore paramsStore next]. unfold shown.
  destruct pk2 as [k|], pp2 as [p|]; rewrite ?lookup_insert_eq;
    match goal with
    | |- context [String.eqb ?s ""] => destruct (String.eqb s "")
    end; reflexivity.
Qed.

Lemma cache_last_write_wins_witness :
  fst (get (Scenario.env 11155111 0) Scenario.contractAA
         (snd (set (Scenario.env 11155111 0) Scenario.contractAA
                 None (Some {| publicParamsId := "params-2"; publicParams := [x04] |})
                 (snd (set (Scenario.env 11155111 0) Scenario.contractAA
                         (Some Scenario.engine_key) (Some Scenario.engine_params)
                         Scenario.world0)))))
  = Ok {| cached_publicKey := Present {| id := "key-1"; data := [x01; x02] |};
          cached_publicParams :=
            Some {| publicParamsId := "params-2"; publicParams := [x04] |} |}.
Proof.
  apply (cache_last_write_wins (Scenario.env 11155111 0) Scenario.contractAA
           Scenario.engine_key Scenario.engine_params None
           (Some {| publicParamsId := "params-2"; publicParams := [x04] |})
           Scenario.world0); reflexivity.
Defined.

End StorageFacts.

(** ** Loading the SDK script *)

Module LoaderFacts.
Import Loader.

(** X8.  [load] resolves only with a valid SDK on [window]; with a
    valid SDK already there it resolves at once and changes nothing;
    and once the script element is in the document it never adds
    another nor asks for the script again. *)
Theorem load_postcondition (env : Env) (w : World) :
  (fst (load env w) = Ok tt -> isValidRelayerSDK (snd (load env w)) = true)
  /\ (isValidRelayerSDK w = true -> load env w = (Ok tt, w))
  /\ (script_tag w = true -> snd (load env w) = w)
  /\ (relayerSDK w <> None -> snd (load env w) = w).
Proof.
  unfold load, isValidRelayerSDK. destruct (relayerSDK w) as [o|] eqn:Eo.
  - destruct (isFhevmRelayerSDKType o) eqn:Ev; cbn [fst snd]; rewrite ?Eo, ?Ev;
      repeat split; try discriminate; auto.
  - destruct (script_tag w) eqn:Et; cbn [fst snd].
    { rewrite Eo. repeat split; try discriminate; congruence. }
    destruct (scriptLoad env (tick w)) as [o|e]; cbn [fst snd].
    + destruct (match relayerSDK (next (install o w)) with
                | Some o0 => isFhevmRelayerSDKType o0
                | None => false
                end) eqn:Ev; cbn [fst snd]; rewrite ?Ev;
        repeat split; try discriminate; congruence.
    + repeat split; try discriminate; congruence.
Qed.



End LoaderFacts.

(** ** The factory of instances *)

Module FactoryFacts.
Import Factory.
Local Open Scope monad_scope.

(** [getChainId] only asks the provider. *)
Lemma getChainId_frame (env : Env) (p : Provider) (w : World) :
  let w1 := snd (getChainId env p w) in
  publicKeyStore w1 = publicKeyStore w /\ paramsStore w1 = paramsStore w
  /\ relayerSDK w1 = relayerSDK w /\ script_tag w1 = script_tag w
  /\ status_writes w1 = status_writes w.
Proof.
  destruct p; cbn [getChainId]; unfold try_catch, rpc; [cbn; auto|].
  destruct (networkChainId env (tick w)); cbn; auto.
Qed.

(** X10.  On a mock chain -- the chain id has an entry in the mock
    table, where the caller's entries come before the default one for
    31337, and the URL that goes with it is not empty -- the operation
    is the chain id and one check of the signal: it returns the mock
    instance, or the cancellation error when the signal is set, and it
    neither loads the SDK nor reads or writes the key store. *)
Theorem createFhevmInstance_mock (env : Env) (providerOrUrl : Provider)
    (mockChains : gmap Z string) (w w1 : World) (chain : Z) (mockUrl : string) :
  getChainId env providerOrUrl w = (Ok chain, w1) ->
  (mockChains ∪ default_mockChains) !! chain = Some mockUrl ->
  match providerOrUrl with
  | RpcUrl url => url <> ""
  | BrowserProvider => mockUrl <> ""
  end ->
  createFhevmInstance env providerOrUrl mockChains w
  = (if aborted env (tick w1) then Throw CANCELLED else Ok (mockInstance env), w1)
  /\ relayerSDK w1 = relayerSDK w /\ script_tag w1 = script_tag w
  /\ same_cache w w1.
Proof.
  intros Hc Hm Hurl.
  pose proof (getChainId_frame env providerOrUrl w) as F. rewrite Hc in F.
  cbn [snd] in F. destruct F as (F1 & F2 & F3 & F4 & _).
  split; [|split; [exact F3|split; [exact F4|split; assumption]]].
  unfold createFhevmInstance. unfold bind at 1. rewrite Hc, Hm.
  rewrite bool_decide_eq_true_2 by (eexists; reflexivity).
  assert (Ht : truthy match providerOrUrl with
                      | RpcUrl url => Some url
                      | BrowserProvider => Some mockUrl
                      end = true).
  { destruct providerOrUrl; cbn [truthy]; apply negb_true_iff, String.eqb_neq, Hurl. }
  rewrite Ht. cbn [andb]. unfold bind, throwIfAborted, ret.
  destruct (aborted env (tick w1)); reflexivity.
Qed.

Lemma createFhevmInstance_mock_witness :
  createFhevmInstance (Scenario.env 31337 0) BrowserProvider ∅ Scenario.world0
  = (if aborted (Scenario.env 31337 0) (tick (next (request "getNetwork" Scenario.world0)))
     then Throw CANCELLED else Ok (mockInstance (Scenario.env 31337 0)),
     next (request "getNetwork" Scenario.world0))
  /\ relayerSDK (next (request "getNetwork" Scenario.world0)) = relayerSDK Scenario.world0
  /\ script_tag (next (request "getNetwork" Scenario.world0)) = script_tag Scenario.world0
  /\ same_cache Scenario.world0 (next (request "getNetwork" Scenario.world0)).
Proof.
  apply (createFhevmInstance_mock (Scenario.env 31337 0) BrowserProvider ∅
           Scenario.world0 (next (request "getNetwork" Scenario.world0)) 31337
           "http://localhost:8545").
  - reflexivity.
  - vm_compute. reflexivity.
  - discriminate.
Defined.






End FactoryFacts.

(** ** The engine is consulted on Sepolia only *)

Module EngineUseFacts.
Import Client.

(** X12.  Off Sepolia the instance of the client is never consulted:
    [createEncryptedInput] does what it would do with any other
    instance, or with none.  In particular the mock instance that
    [createFhevmInstance] builds for the local chain 31337 is never
    asked to encrypt; what is returned there is the fallback encoding. *)
Theorem createEncryptedInput_off_sepolia (env : Env) (c : FHEVMClient)
    (other : option FhevmInstance) (contractAddress : string) (value : Z)
    (type : fhe_type) (w : World) :
  chainId c <> SEPOLIA ->
  createEncryptedInput env c contractAddress value type w
  = createEncryptedInput env
      {| provider := provider c; chainId := chainId c; fhevmInstance := other |}
      contractAddress value type w
  /\ createEncryptedInput env c contractAddress value type w
     = try_catch (createCompatibleEncryptedInput env c contractAddress value type)
         (fun _ => createCompatibleEncryptedInput env c contractAddress value type) w.
Proof.
  intros Hc. apply Z.eqb_neq in Hc.
  unfold createEncryptedInput. cbn [fhevmInstance chainId]. rewrite Hc.
  split.
  - destruct (fhevmInstance c), other; reflexivity.
  - destruct (fhevmInstance c); reflexivity.
Qed.

Lemma createEncryptedInput_off_sepolia_witness :
  let hardhat := {| provider := BrowserProvider; chainId := 31337;
                    fhevmInstance :=
                      Some (Factory.mockInstance (Scenario.env 31337 424242)) |} in
  chainId hardhat <> SEPOLIA
  /\ createEncryptedInput (Scenario.env 31337 424242) hardhat Scenario.contractAA 5
       euint32 Scenario.world0
     = createEncryptedInput (Scenario.env 31337 424242)
         {| provider := provider hardhat; chainId := chainId hardhat;
            fhevmInstance := None |}
         Scenario.contractAA 5 euint32 Scenario.world0.
Proof.
  intros hardhat.
  assert (Hc : chainId hardhat <> SEPOLIA) by discriminate.
  split; [exact Hc|].
  exact (proj1 (createEncryptedInput_off_sepolia (Scenario.env 31337 424242) hardhat
                  None Scenario.contractAA 5 euint32 Scenario.world0 Hc)).
Defined.

End EngineUseFacts.

(** ** The manager of meta transactions *)

Module ManagerFacts.
Import Manager.
Local Open Scope monad_scope.

Lemma createEncryptedInput_total (env : Env) (c : FHEVMClient)
    (contractAddress : string) (value : Z) (type : fhe_type) (w : World) :
  well_typed contractAddress value ->
  exists r w1, Client.createEncryptedInput env c contractAddress value type w = (Ok r, w1).
Proof.
  intros Hwt. unfold Client.createEncryptedInput, try_catch.
  match goal with
  | |- context [let (_, _) := ?m in _] => destruct m as [[r|e] w1]
  end.
  - exists r, w1. reflexivity.
  - apply BuilderFacts.createCompatibleEncryptedInput_total, Hwt.
Qed.

Lemma encryptParam_unfold (env : Env) (client : FHEVMClient)
    (contractAddress : string) (p : Param) (w : World) :
  encryptParam env client contractAddress p w
  = match Client.createEncryptedInput env client contractAddress (plain_value p)
            (param_type p) w with
    | (Ok r, w1) =>
        (Ok {| ep_name := param_name p; ep_type := param_type p;
               ep_handle := handle r; ep_proof := proof r;
               ep_originalValue := param_value p |}, w1)
    | (Throw e, w1) =>
        (Throw ("Failed to encrypt parameter " +:+ param_name p +:+ ": " +:+ e), w1)
    end.
Proof.
  unfold encryptParam, plain_value, Client.createEncryptedBoolInput, try_catch, bind,
    ret, throw.
  destruct (param_type p);
    match goal with
    | |- context [Client.createEncryptedInput ?e ?c ?a ?v ?t ?w] =>
        destruct (Client.createEncryptedInput e c a v t w) as [[r|err] w1]
    end; reflexivity.
Qed.

Lemma encryptAll_inv (env : Env) (client : FHEVMClient) (contractAddress : string)
    (params : list Param) :
  forall w eps w', encryptAll env client contractAddress params w = (Ok eps, w') ->
    Forall2 (encrypts client contractAddress) params eps.
Proof.
  induction params as [|p params IH]; intros w eps w' H.
  - injection H as <- _. constructor.
  - cbn [encryptAll] in H. unfold bind at 1 in H. rewrite encryptParam_unfold in H.
    destruct (Client.createEncryptedInput env client contractAddress (plain_value p)
                (param_type p) w) as [[r|e] w1] eqn:E; [|discriminate].
    unfold bind at 1 in H.
    destruct (encryptAll env client contractAddress params w1) as [[rest|e] w2] eqn:Er;
      [|discriminate].
    injection H as <- _. constructor; [|apply (IH _ _ _ Er)].
    repeat split. cbn [ep_handle ep_proof].
    apply BuilderFacts.createEncryptedInput_origin in E. destruct r. exact E.
Qed.

(** X13.  What [createEncryptedParams] returns: one encrypted
    parameter for each parameter, in the same order, with the same
    name, type and original value, and with a handle and a proof that
    [createEncryptedInput] made for the contract of the manager from
    the number the parameter stands for (0 or 1 for an [ebool]).  When
    the engine keeps to its interface, every handle is the hex text of
    32 bytes and no proof is empty. *)
Theorem createEncryptedParams_shape (env : Env) (m : FHEVMMetaManager)
    (functionName : string) (params : list Param) (w w' : World)
    (eps : list EncryptedParameter) :
  createEncryptedParams env m functionName params w = (Ok eps, w') ->
  exists client,
    m_fhevmClient m = Some client /\ m_isInitialized m = true
    /\ Forall2 (encrypts client (m_contractAddress m)) params eps
    /\ length eps = length params
    /\ ((forall instance, fhevmInstance client = Some instance ->
           engine_contract instance) ->
        Forall (fun ep => Ethers.isHexString (ep_handle ep) 32 = true
                          /\ ep_proof ep <> "") eps).
Proof.
  unfold createEncryptedParams.
  destruct (m_fhevmClient m) as [client|]; [|discriminate].
  destruct (m_isInitialized m); [|discriminate].
  intros H. apply encryptAll_inv in H. exists client.
  split; [reflexivity|]. split; [reflexivity|]. split; [exact H|].
  split; [symmetry; apply (Forall2_length _ _ _ H)|].
  intros Hengine. induction H as [|p ep params eps (_ & _ & _ & Ho) _ IH];
    constructor; [|exact IH].
  destruct (ClientFacts.origin_shape _ _ _ _ _ Hengine Ho) as [[Hhex _] Hp].
  split; assumption.
Qed.

Lemma createEncryptedParams_shape_witness :
  let manager := {| m_fhevmClient := Some Scenario.client_without_engine;
                    m_chainId := 11155111;
                    m_contractAddress := Scenario.contractAA;
                    m_isInitialized := true |} in
  exists eps w',
    createEncryptedParams (Scenario.env 11155111 424242) manager "vote"
      Scenario.vote_params Scenario.world0 = (Ok eps, w')
    /\ Forall2 (encrypts Scenario.client_without_engine Scenario.contractAA)
         Scenario.vote_params eps
    /\ length eps = length Scenario.vote_params.
Proof.
  intros manager. eexists _, _.
  split; [vm_compute; reflexivity|].
  edestruct (createEncryptedParams_shape (Scenario.env 11155111 424242)
               manager "vote" Scenario.vote_params Scenario.world0)
    as (client & Hc & _ & HF & Hl & _); [vm_compute; reflexivity|].
  injection Hc as <-. split; assumption.
Defined.

(** X14.  With a client, the initialized flag, a contract address that
    is an address, and for every parameter that is not an [ebool] a
    value that is a non-negative safe integer, [createEncryptedParams]
    never rejects, whatever the wallet, the clock and the engine do. *)
Theorem createEncryptedParams_total (env : Env) (m : FHEVMMetaManager)
    (client : FHEVMClient) (functionName : string) (params : list Param)
    (w : World) :
  m_fhevmClient m = Some client -> m_isInitialized m = true ->
  Ethers.isAddress (m_contractAddress m) = true ->
  Forall (fun p => param_type p = ebool
                   \/ 0 <= to_number (param_value p) <= Ethers.MAX_SAFE_INTEGER)
    params ->
  exists eps w', createEncryptedParams env m functionName params w = (Ok eps, w').
Proof.
  intros Hc Hi Ha HF. unfold createEncryptedParams. rewrite Hc, Hi.
  revert w. induction HF as [|p params Hp _ IH]; intros w.
  - eexists _, _. reflexivity.
  - cbn [encryptAll]. unfold bind at 1. rewrite encryptParam_unfold.
    destruct (createEncryptedInput_total env client (m_contractAddress m)
                (plain_value p) (param_type p) w) as (r & w1 & ->).
    { split; [exact Ha|]. unfold plain_value.
      assert (1 <= Ethers.MAX_SAFE_INTEGER) by (vm_compute; discriminate).
      destruct Hp as [-> | Hp].
      - destruct (to_boolean (param_value p)); lia.
      - destruct (param_type p); [exact Hp| |exact Hp].
        destruct (to_boolean (param_value p)); lia. }
    unfold bind at 1. destruct (IH w1) as (eps & w2 & ->).
    eexists _, _. reflexivity.
Qed.

Lemma createEncryptedParams_total_witness :
  exists eps w',
    createEncryptedParams (Scenario.env 11155111 424242)
      {| m_fhevmClient := Some Scenario.client_with_engine; m_chainId := 11155111;
         m_contractAddress := Scenario.contractAA; m_isInitialized := true |}
      "setLimit"
      [{| param_name := "limit"; param_value := JNumber 9000000000;
          param_type := euint64 |};
       {| param_name := "open"; param_value := JBool false; param_type := ebool |}]
      Scenario.world0 = (Ok eps, w').
Proof.
  apply (createEncryptedParams_total (Scenario.env 11155111 424242) _
           Scenario.client_with_engine).
  - reflexivity.
  - reflexivity.
  - vm_compute. reflexivity.
  - repeat constructor; vm_compute; discriminate.
Defined.

End ManagerFacts.

(** ** One transaction, request by request *)

Module TransactionFacts.
Import Manager.
Local Open Scope monad_scope.

Ltac stopped_after calls :=
  exists calls; cbn;
  repeat match goal with
         | |- _ /\ _ => split
         end;
  try reflexivity; auto 6; try discriminate;
  try (intros H; intuition discriminate).

(** X15.  The requests one call of [executeMetaTransaction] makes, in
    order: the signer, the signer again, the transaction, its receipt;
    the call may stop after any of them.  So at most one transaction is
    sent per call; none is sent when the contract has no such function;
    a manager that is not initialized asks nothing and changes nothing;
    and a transaction is returned only after all four. *)
Theorem executeMetaTransaction_requests (env : Env) (m : FHEVMMetaManager)
    (functionName : string) (encryptedParams : list EncryptedParameter) (w : World) :
  let run := executeMetaTransaction env m functionName encryptedParams w in
  exists calls,
    network_calls (snd run) = calls ++ network_calls w
    /\ (calls = [] \/ calls = ["getSigner"] \/ calls = ["getSigner"; "getSigner"]
        \/ calls = ["sendTransaction"; "getSigner"; "getSigner"]
        \/ calls = ["wait"; "sendTransaction"; "getSigner"; "getSigner"])
    /\ (contractHas env functionName = false -> ~ In "sendTransaction" calls)
    /\ (m_fhevmClient m = None \/ m_isInitialized m = false ->
        run = (Throw NOT_INITIALIZED, w))
    /\ (forall tx, fst run = Ok tx ->
          calls = ["wait"; "sendTransaction"; "getSigner"; "getSigner"]).
Proof.
  unfold executeMetaTransaction.
  destruct (m_fhevmClient m) as [client|]; [|stopped_after (@nil string)].
  destruct (m_isInitialized m); cbn [negb]; [|stopped_after (@nil string)].
  unfold write_status. run_monad. cbn [tick next request].
  destruct (signerAddress env (tick w)) as [user|];
    [|stopped_after ["getSigner"]].
  cbn [tick next request network_calls].
  destruct (signerAddress env _) as [signer|];
    [|stopped_after ["getSigner"; "getSigner"]].
  destruct (contractHas env functionName) eqn:Ehas; cbn [negb];
    [|stopped_after ["getSigner"; "getSigner"]].
  cbn [tick next request network_calls].
  destruct (sendTransaction env _ _ _) as [txHash|];
    [|stopped_after ["sendTransaction"; "getSigner"; "getSigner"]].
  cbn [tick next request network_calls].
  destruct (waitReceipt env _) as [receipt|];
    [|stopped_after ["wait"; "sendTransaction"; "getSigner"; "getSigner"]].
  destruct (receipt_gasUsed receipt) as [g|];
    stopped_after ["wait"; "sendTransaction"; "getSigner"; "getSigner"].
Qed.

Lemma txParamsOf_length (encryptedParams : list EncryptedParameter) :
  length (txParamsOf encryptedParams) = (2 * length encryptedParams)%nat.
Proof.
  unfold txParamsOf. induction encryptedParams as [|p ps IH]; [reflexivity|].
  cbn [flat_map app length]. rewrite IH. lia.
Qed.

(** X16.  A transaction that [executeMetaTransaction] returns is the
    record of what happened on chain: the contract function was called
    with the handle and the proof of each parameter, in order, two
    arguments a parameter; the hash is the one that call returned; block
    number and gas are those of the receipt; and the status is
    [completed] exactly when the receipt's status is 1, [failed]
    otherwise.  Contract, chain id and parameters are those of the
    manager and of the call, the user is the signer's address. *)
Theorem executeMetaTransaction_result (env : Env) (m : FHEVMMetaManager)
    (functionName : string) (encryptedParams : list EncryptedParameter)
    (w w' : World) (tx : FHEMetaTransaction) :
  executeMetaTransaction env m functionName encryptedParams w = (Ok tx, w') ->
  exists t txHash receipt gas,
    sendTransaction env t functionName (txParamsOf encryptedParams) = Ok txHash
    /\ waitReceipt env (S t) = Ok receipt
    /\ receipt_gasUsed receipt = Some gas
    /\ tx_txHash tx = Some txHash
    /\ tx_blockNumber tx = Some (receipt_blockNumber receipt)
    /\ tx_gasUsed tx = Some (string_of_Z gas)
    /\ (tx_status tx = completed <-> receipt_status receipt = 1)
    /\ (tx_status tx = failed <-> receipt_status receipt <> 1)
    /\ tx_encryptedParams tx = encryptedParams
    /\ tx_functionName tx = functionName
    /\ tx_contractAddress tx = m_contractAddress m
    /\ tx_chainId tx = m_chainId m
    /\ signerAddress env (tick w) = Ok (tx_userAddress tx)
    /\ length (txParamsOf encryptedParams) = (2 * length encryptedParams)%nat.
Proof.
  unfold executeMetaTransaction.
  destruct (m_fhevmClient m) as [client|]; [|cbn; discriminate].
  destruct (m_isInitialized m); cbn [negb]; [|cbn; discriminate].
  unfold write_status. run_monad. cbn [tick next request].
  destruct (signerAddress env (tick w)) as [user|] eqn:Euser; [|cbn; discriminate].
  cbn [tick next request].
  destruct (signerAddress env (S (S (S (S (tick w)))))) as [signer|];
    [|cbn; discriminate].
  destruct (contractHas env functionName); cbn [negb]; [|cbn; discriminate].
  cbn [tick next request].
  destruct (sendTransaction env _ _ _) as [txHash|] eqn:Esend; [|cbn; discriminate].
  cbn [tick next request].
  destruct (waitReceipt env _) as [receipt|] eqn:Ewait; [|cbn; discriminate].
  destruct (receipt_gasUsed receipt) as [g|] eqn:Egas; [|cbn; discriminate].
  intros H. injection H as <- _.
  eexists _, txHash, receipt, g.
  split; [exact Esend|]. split; [exact Ewait|]. split; [exact Egas|].
  cbn [with_receipt tx_txHash tx_blockNumber tx_gasUsed tx_status
       tx_encryptedParams tx_functionName tx_contractAddress tx_chainId
       tx_userAddress].
  repeat (split; [reflexivity|]).
  split; [|split; [|repeat (split; [reflexivity|]); apply txParamsOf_length]].
  - destruct (receipt_status receipt =? 1) eqn:E.
    + apply Z.eqb_eq in E. tauto.
    + apply Z.eqb_neq in E. split; [discriminate|contradiction].
  - destruct (receipt_status receipt =? 1) eqn:E.
    + apply Z.eqb_eq in E. split; [discriminate|contradiction].
    + apply Z.eqb_neq in E. tauto.
Qed.

Lemma executeMetaTransaction_result_witness :
  let manager := {| m_fhevmClient := Some Scenario.client_without_engine;
                    m_chainId := 11155111;
                    m_contractAddress := Scenario.contractAA;
                    m_isInitialized := true |} in
  let support := {| ep_name := "support"; ep_type := ebool; ep_handle := "0x01";
                    ep_proof := "0x02"; ep_originalValue := JBool true |} in
  exists tx w',
    executeMetaTransaction (Scenario.env 11155111 424242) manager "vote" [support]
      Scenario.world0 = (Ok tx, w')
    /\ tx_txHash tx = Some "0x11"
    /\ tx_blockNumber tx = Some 100
    /\ tx_status tx = completed
    /\ tx_encryptedParams tx = [support].
Proof.
  intros manager support. eexists _, _.
  split; [vm_compute; reflexivity|].
  edestruct (executeMetaTransaction_result (Scenario.env 11155111 424242) manager
               "vote" [support] Scenario.world0)
    as (t & txHash & receipt & gas & Hsend & Hwait & _ & Hh & Hb & _ & Hs & _ & Hp & _);
    [vm_compute; reflexivity|].
  injection Hsend as <-. injection Hwait as <-.
  split; [exact Hh|]. split; [exact Hb|]. split; [|exact Hp].
  apply Hs. reflexivity.
Defined.

(** The id of a transaction is made the way [generateTransactionId]
    makes one, from the clock and the random generator as they are right
    after the signer has answered. *)
Lemma executeMetaTransaction_id (env : Env) (m : FHEVMMetaManager)
    (functionName : string) (encryptedParams : list EncryptedParameter)
    (w w' : World) (tx : FHEMetaTransaction) :
  executeMetaTransaction env m functionName encryptedParams w = (Ok tx, w') ->
  fst (generateTransactionId env (next (request "getSigner" w))) = Ok (tx_id tx).
Proof.
  unfold executeMetaTransaction, generateTransactionId.
  destruct (m_fhevmClient m) as [client|]; [|discriminate].
  destruct (m_isInitialized m); cbn [negb]; [|discriminate].
  unfold write_status. run_monad. cbn [tick next request fst].
  destruct (signerAddress env (tick w)) as [user|]; [|discriminate].
  cbn [tick next request].
  destruct (signerAddress env (S (S (S (S (tick w)))))) as [signer|];
    [|cbn; discriminate].
  destruct (contractHas env functionName); cbn [negb]; [|cbn; discriminate].
  cbn [tick next request].
  destruct (sendTransaction env _ _ _) as [txHash|]; [|cbn; discriminate].
  cbn [tick next request].
  destruct (waitReceipt env _) as [receipt|]; [|cbn; discriminate].
  destruct (receipt_gasUsed receipt) as [g|]; [|cbn; discriminate].
  intros H. injection H as <- _. reflexivity.
Qed.

(** X17.  [verifyTransaction] never rejects and asks for the receipt
    once.  It answers [isValid: true] exactly when the node returned a
    receipt (with its gas), and then block number, gas, status and
    recipient are the receipt's; in every other case -- no receipt yet,
    or an error of the provider -- the answer is [isValid: false] with
    every other field [null]. *)
Theorem verifyTransaction_never_rejects (env : Env) (txHash : string) (w : World) :
  exists v,
    verifyTransaction env txHash w
    = (Ok v, next (request "getTransactionReceipt" w))
    /\ (isValid v = true <->
        exists r gas,
          getTransactionReceipt env (tick w) = Ok (Some r)
          /\ receipt_gasUsed r = Some gas)
    /\ (forall r gas,
          getTransactionReceipt env (tick w) = Ok (Some r) ->
          receipt_gasUsed r = Some gas ->
          v = {| isValid := true;
                 v_blockNumber := Some (receipt_blockNumber r);
                 v_gasUsed := Some (string_of_Z gas);
                 v_status := Some (receipt_status r);
                 v_contractAddress := Some (receipt_to r) |})
    /\ (isValid v = false -> v = no_verification).
Proof.
  unfold verifyTransaction. run_monad.
  destruct (getTransactionReceipt env (tick w)) as [[r|]|e].
  - destruct (receipt_gasUsed r) as [g|] eqn:Eg.
    + eexists. split; [reflexivity|]. cbn [isValid].
      split; [split; [eauto|reflexivity]|].
      split; [|discriminate]. intros r0 g0 H0 Hg. injection H0 as <-.
      rewrite Eg in Hg. injection Hg as <-. reflexivity.
    + eexists. split; [reflexivity|]. cbn [isValid no_verification].
      split; [split; [discriminate|]|].
      * intros (r0 & g0 & H0 & Hg). injection H0 as <-. congruence.
      * split; [|reflexivity]. intros r0 g0 H0 Hg. injection H0 as <-. congruence.
  - eexists. split; [reflexivity|]. cbn [isValid no_verification].
    split; [split; [discriminate|intros (r0 & g0 & H0 & _); discriminate]|].
    split; [discriminate|reflexivity].
  - eexists. split; [reflexivity|]. cbn [isValid no_verification].
    split; [split; [discriminate|intros (r0 & g0 & H0 & _); discriminate]|].
    split; [discriminate|reflexivity].
Qed.


End TransactionFacts.

(** ** Creating the manager, and the networks it accepts *)

Module SetupFacts.
Import Manager.
Local Open Scope monad_scope.

Lemma createFHEVMClient_unfold (env : Env) (p : Provider) (w : World) :
  Factory.createFHEVMClient env p w
  = match Factory.getChainId env p w with
    | (Ok c, w1) =>
        Factory.initialize env
          {| provider := p; chainId := c; fhevmInstance := None |} w1
    | (Throw e, w1) => (Throw e, w1)
    end.
Proof. reflexivity. Qed.

Lemma createFHEVMMetaManager_unfold (env : Env) (chain : Z)
    (contractAddress : string) (w : World) :
  createFHEVMMetaManager env chain contractAddress w
  = match Factory.createFHEVMClient env BrowserProvider w with
    | (Ok client, w1) =>
        (Ok {| m_fhevmClient := Some client; m_chainId := chain;
               m_contractAddress := contractAddress; m_isInitialized := true |}, w1)
    | (Throw e, w1) =>
        (Throw ("FHEVM Meta Manager initialization failed: " +:+ e), w1)
    end.
Proof.
  unfold createFHEVMMetaManager, initialize, try_catch, bind, ret, throw.
  destruct (Factory.createFHEVMClient env BrowserProvider w) as [[client|e] w1];
    reflexivity.
Qed.

(** X19.  Creating a manager fails in one case only: the chain id
    cannot be read from the wallet, and then the error is "FHEVM Meta
    Manager initialization failed: " followed by the cause.  Whenever
    the chain id can be read the manager comes back initialized, with a
    client for the chain the wallet reported -- whatever happens to the
    SDK, the relayer and the key store, and whatever chain id the caller
    passed, which is kept as it is next to the client's. *)
Theorem createFHEVMMetaManager_outcome (env : Env) (chain : Z)
    (contractAddress : string) (w : World) :
  (forall c w1,
      Factory.getChainId env BrowserProvider w = (Ok c, w1) ->
      exists m w2 client,
        createFHEVMMetaManager env chain contractAddress w = (Ok m, w2)
        /\ m_isInitialized m = true /\ m_chainId m = chain
        /\ m_contractAddress m = contractAddress
        /\ m_fhevmClient m = Some client
        /\ chainId client = c /\ provider client = BrowserProvider)
  /\ (forall e w1,
        Factory.getChainId env BrowserProvider w = (Throw e, w1) ->
        createFHEVMMetaManager env chain contractAddress w
        = (Throw ("FHEVM Meta Manager initialization failed: " +:+ e), w1)).
Proof.
  rewrite createFHEVMMetaManager_unfold, createFHEVMClient_unfold. split.
  - intros c w1 Hc. rewrite Hc.
    destruct (ReadinessFacts.initialize_keeps_chain env
                {| provider := BrowserProvider; chainId := c; fhevmInstance := None |}
                w1) as (client & Hi & Hchain & Hp & _).
    destruct (Factory.initialize env _ w1) as [[client'|e] w2]; cbn [fst] in Hi;
      [|discriminate].
    injection Hi as ->. eexists _, w2, client.
    split; [reflexivity|]. cbn. repeat split; assumption.
  - intros e w1 Hc. rewrite Hc. reflexivity.
Qed.

(** On Sepolia with the relayer out of reach the manager is created all
    the same. *)
Lemma createFHEVMMetaManager_outcome_witness :
  exists m w2 client,
    createFHEVMMetaManager (Scenario.env 11155111 424242) 11155111
      Scenario.contractAA Scenario.world0 = (Ok m, w2)
    /\ m_isInitialized m = true
    /\ m_fhevmClient m = Some client
    /\ chainId client = 11155111.
Proof.
  destruct (createFHEVMMetaManager_outcome (Scenario.env 11155111 424242) 11155111
              Scenario.contractAA Scenario.world0) as [H _].
  destruct (H 11155111 (next (request "getNetwork" Scenario.world0)) eq_refl)
    as (m & w2 & client & H1 & H2 & _ & _ & H5 & H6 & _).
  exists m, w2, client. auto.
Defined.

(** X20.  The places that decide whether a network is supported agree:
    [FHEVMMetaManager.isNetworkSupported], the list of
    [getSupportedNetworks], [FHEVMClient.isFHEVMSupported] and
    [isReady] of a client accept the same chain ids, 11155111 and 31337.
    System contracts and explorer links are narrower: of the supported
    networks only Sepolia has either, so the local chain 31337 is
    supported, yet [getSystemContracts] is [null] and the link is "#"
    there; and chain 1 has a link without being supported. *)
Theorem supported_networks_agree (chain : Z) :
  isNetworkSupported chain = Client.isFHEVMSupported chain
  /\ (forall c, chainId c = chain -> Client.isReady c = isNetworkSupported chain)
  /\ (isNetworkSupported chain = true <-> In chain getSupportedNetworks)
  /\ (isNetworkSupported chain = true <-> chain = 11155111 \/ chain = 31337)
  /\ (forall process_env,
        Client.getSystemContracts process_env chain <> None <-> chain = 11155111)
  /\ (forall txHash,
        getEtherscanUrl chain txHash <> "#" <-> chain = 11155111 \/ chain = 1).
Proof.
  assert (Hs : isNetworkSupported chain
               = (chain =? 11155111) || (chain =? 31337)).
  { unfold isNetworkSupported, getSupportedNetworks. cbn [existsb].
    rewrite orb_false_r. reflexivity. }
  split; [exact Hs|]. split; [intros c <-; rewrite Hs; reflexivity|].
  split.
  { rewrite Hs, orb_true_iff, !Z.eqb_eq. unfold getSupportedNetworks. cbn [In].
    intuition congruence. }
  split; [rewrite Hs, orb_true_iff, !Z.eqb_eq; reflexivity|].
  split.
  - intros process_env. unfold Client.getSystemContracts.
    destruct (chain =? 11155111) eqn:E.
    + apply Z.eqb_eq in E. split; [auto|discriminate].
    + apply Z.eqb_neq in E. split; [intros H; contradiction|contradiction].
  - intros txHash. unfold getEtherscanUrl.
    destruct (chain =? 11155111) eqn:E1.
    { apply Z.eqb_eq in E1. split; [auto|discriminate]. }
    destruct (chain =? 1) eqn:E2.
    { apply Z.eqb_eq in E2. split; [auto|discriminate]. }
    apply Z.eqb_neq in E1, E2. split; [intros H; contradiction|].
    intros [H|H]; contradiction.
Qed.

End SetupFacts.

(** ** The state of the hook *)

Module HookStateFacts.
Import HookActions.
Local Open Scope monad_scope.

Lemma createFHEVMMetaManager_inv (env : Env) (chain : Z) (contractAddress : string)
    (w w' : World) (m : FHEVMMetaManager) :
  Manager.createFHEVMMetaManager env chain contractAddress w = (Ok m, w') ->
  m_isInitialized m = true /\ m_chainId m = chain
  /\ m_contractAddress m = contractAddress /\ m_fhevmClient m <> None.
Proof.
  unfold Manager.createFHEVMMetaManager, Manager.initialize, try_catch, bind, ret, throw.
  destruct (Factory.createFHEVMClient env BrowserProvider w) as [[client|e] w1];
    [|discriminate].
  intros H. injection H as <- _. repeat split. discriminate.
Qed.

(** [initialize] of the hook always returns, not loading, with the
    history it found. *)
Lemma initialize_settles (env : Env) (contractAddress : string)
    (h : Hook) (w : World) :
  fst (initialize env contractAddress (h, w)) = Ok tt
  /\ isLoading (state (fst (snd (initialize env contractAddress (h, w))))) = false
  /\ same_history h (fst (snd (initialize env contractAddress (h, w)))).
Proof.
  unfold initialize, setState, setChainId, setManager, in_world. run_monad.
  cbn [fst snd].
  destruct (networkChainId env (tick w)) as [chain|e];
    [|repeat split; reflexivity].
  destruct (Manager.isNetworkSupported chain); cbn [negb];
    [|repeat split; reflexivity].
  destruct (Manager.createFHEVMMetaManager env chain contractAddress _)
    as [[m|e] w1]; repeat split; reflexivity.
Qed.

(** X21.  [initialize] never rejects and never leaves the hook loading.
    It ends in one of two states.  Initialized: no error, and the
    manager in the ref is initialized, for the contract given and for a
    supported chain, which is also the chain id in the other ref.  Or
    not initialized: the error is "Initialization failed: " and the
    cause, and the ref keeps the manager it had before, if any.  The
    history is not touched in either case. *)
Theorem initialize_outcome (env : Env) (contractAddress : string)
    (h : Hook) (w : World) :
  exists h' w',
    initialize env contractAddress (h, w) = (Ok tt, (h', w'))
    /\ isLoading (state h') = false
    /\ same_history h h'
    /\ ((isInitialized (state h') = true /\ error (state h') = None
         /\ exists m,
             metaManagerRef h' = Some m /\ m_isInitialized m = true
             /\ m_contractAddress m = contractAddress
             /\ Manager.isNetworkSupported (m_chainId m) = true
             /\ chainIdRef h' = Some (m_chainId m))
        \/ (isInitialized (state h') = false
            /\ (exists cause,
                  error (state h') = Some ("Initialization failed: " +:+ cause))
            /\ metaManagerRef h' = metaManagerRef h)).
Proof.
  unfold initialize, setState, setChainId, setManager, in_world. run_monad.
  cbn [fst snd].
  destruct (networkChainId env (tick w)) as [chain|e].
  2:{ eexists _, _. split; [reflexivity|]. cbn. split; [reflexivity|].
      split; [split; reflexivity|]. right. eauto. }
  destruct (Manager.isNetworkSupported chain) eqn:Es; cbn [negb].
  2:{ eexists _, _. split; [reflexivity|]. cbn. split; [reflexivity|].
      split; [split; reflexivity|]. right. eauto. }
  destruct (Manager.createFHEVMMetaManager env chain contractAddress _)
    as [[m|e] w1] eqn:Em.
  2:{ eexists _, _. split; [reflexivity|]. cbn. split; [reflexivity|].
      split; [split; reflexivity|]. right. eauto. }
  apply createFHEVMMetaManager_inv in Em as (Hi & Hc & Ha & _).
  eexists _, _. split; [reflexivity|]. cbn. split; [reflexivity|].
  split; [split; reflexivity|]. left. split; [reflexivity|]. split; [reflexivity|].
  exists m. rewrite Hc. auto.
Qed.

(** X22.  The history keeps only the latest transaction.  The callback
    [executeMetaTransaction] is created once (its dependency list never
    changes), so the [state] it prepends to is the one of the first
    render, whose history is empty: after a successful call the history
    is the new transaction alone, and whatever was recorded before is
    dropped. *)
Theorem history_keeps_only_the_latest (env : Env) (functionName : string)
    (params : list Param) (h : Hook) (w : World) (manager : FHEVMMetaManager)
    (tx : FHEMetaTransaction) (h' : Hook) (w' : World) :
  metaManagerRef h = Some manager ->
  executeMetaTransaction env initialState functionName params (h, w)
  = (Ok tx, (h', w')) ->
  transactions (state h') = [tx] /\ currentTransaction (state h') = Some tx.
Proof.
  intros Hm H.
  pose proof (HookFacts.executeMetaTransaction_outcome env initialState functionName
                params h w manager Hm) as Ho.
  rewrite H in Ho. destruct Ho as (Ht & Hcur & _). split; assumption.
Qed.


Lemma history_keeps_only_the_latest_witness :
  exists h0 w0 manager tx1 h1 w1 tx2 h2 w2,
    initialize (Scenario.env 11155111 424242) Scenario.contractAA
      (initialHook, Scenario.world0) = (Ok tt, (h0, w0))
    /\ executeMetaTransaction (Scenario.env 11155111 424242) initialState "vote"
         Scenario.vote_params (h0, w0) = (Ok tx1, (h1, w1))
    /\ transactions (state h1) = [tx1]
    /\ metaManagerRef h1 = Some manager
    /\ executeMetaTransaction (Scenario.env 11155111 424242) initialState "vote"
         Scenario.vote_params (h1, w1) = (Ok tx2, (h2, w2))
    /\ transactions (state h2) = [tx2].
Proof.
  eexists _, _, _, _, _, _, _, _, _.
  split; [vm_compute; reflexivity|].
  split; [vm_compute; reflexivity|].
  split; [reflexivity|].
  split; [reflexivity|].
  match goal with
  | |- executeMetaTransaction ?env _ ?f ?ps (?h, ?w) = _ /\ _ =>
      edestruct (history_keeps_only_the_latest env f ps h w) as [Ht _];
        [reflexivity|vm_compute; reflexivity|]
  end.
  split; [vm_compute; reflexivity|exact Ht].
Defined.

(** X23.  No action leaves the hook loading.  [initialize],
    [executeMetaTransaction] and [readEncryptedValue] set [isLoading]
    while they run, and each of them has reset it when it completes,
    whether it returns or throws.  (Without a manager the last two throw
    before they touch the state.) *)
Theorem no_action_leaves_the_hook_loading (env : Env) (h : Hook) (w : World) :
  (forall contractAddress,
      isLoading (state (fst (snd (initialize env contractAddress (h, w))))) = false)
  /\ (forall captured functionName params,
        metaManagerRef h <> None ->
        isLoading (state (fst (snd (executeMetaTransaction env captured functionName
                                      params (h, w))))) = false)
  /\ (forall (A : Type) (call : nat -> string -> result A) functionName,
        metaManagerRef h <> None ->
        isLoading (state (fst (snd (readEncryptedValue env call functionName
                                      (h, w))))) = false)
  /\ (metaManagerRef h = None ->
      forall captured functionName params (A : Type)
             (call : nat -> string -> result A),
        snd (executeMetaTransaction env captured functionName params (h, w)) = (h, w)
        /\ snd (readEncryptedValue env call functionName (h, w)) = (h, w)).
Proof.
  split; [|split; [|split]].
  - intros contractAddress.
    apply (initialize_settles env contractAddress h w).
  - intros captured functionName params Hm.
    unfold executeMetaTransaction, setState, in_world. run_monad. cbn [fst snd].
    destruct (metaManagerRef h) as [manager|]; [|contradiction].
    destruct (Manager.createEncryptedParams env manager functionName params w)
      as [[encryptedParams|e] w1]; [|reflexivity].
    destruct (Manager.executeMetaTransaction env manager functionName encryptedParams
                w1) as [[tx|e] w2]; reflexivity.
  - intros A call functionName Hm.
    unfold readEncryptedValue, setState, in_world. run_monad. cbn [fst snd].
    destruct (metaManagerRef h) as [manager|]; [|contradiction].
    destruct (Manager.readEncryptedValue env call manager functionName w)
      as [[v|e] w1]; reflexivity.
  - intros Hm captured functionName params A call.
    unfold executeMetaTransaction, readEncryptedValue. run_monad. cbn [fst].
    rewrite Hm. split; reflexivity.
Qed.

(** X24.  Only three things change the history: a successful
    [executeMetaTransaction], [clearTransactions] and the refresh.
    [initialize], [verifyTransaction], [getTransactionStatus],
    [readEncryptedValue], [clearError] and an [executeMetaTransaction]
    that throws leave the transactions and the current transaction as
    they were; [clearTransactions] empties both and nothing else. *)
Theorem history_frame (env : Env) (h : Hook) (w : World) :
  (forall contractAddress,
      same_history h (fst (snd (initialize env contractAddress (h, w)))))
  /\ (forall txHash, same_history h (fst (snd (verifyTransaction env txHash (h, w)))))
  /\ (forall txHash, same_history h (fst (snd (getTransactionStatus env txHash (h, w)))))
  /\ (forall (A : Type) (call : nat -> string -> result A) functionName,
        same_history h (fst (snd (readEncryptedValue env call functionName (h, w)))))
  /\ same_history h (fst (snd (clearError (h, w))))
  /\ (forall captured functionName params e,
        fst (executeMetaTransaction env captured functionName params (h, w)) = Throw e ->
        same_history h (fst (snd (executeMetaTransaction env captured functionName
                                    params (h, w)))))
  /\ (let h' := fst (snd (clearTransactions (h, w))) in
      transactions (state h') = [] /\ currentTransaction (state h') = None
      /\ error (state h') = error (state h)
      /\ isInitialized (state h') = isInitialized (state h)
      /\ metaManagerRef h' = metaManagerRef h).
Proof.
  split; [|split; [|split; [|split; [|split; [|split]]]]].
  - intros contractAddress.
    apply (initialize_settles env contractAddress h w).
  - intros txHash. unfold verifyTransaction, setState, in_world. run_monad.
    cbn [fst snd]. destruct (metaManagerRef h); [|split; reflexivity].
    destruct (Manager.verifyTransaction env txHash w) as [[v|e] w1]; split; reflexivity.
  - intros txHash. unfold getTransactionStatus, in_world. run_monad. cbn [fst snd].
    destruct (metaManagerRef h); [|split; reflexivity].
    destruct (Manager.getTransactionStatus env txHash w) as [[v|e] w1];
      split; reflexivity.
  - intros A call functionName. unfold readEncryptedValue, setState, in_world.
    run_monad. cbn [fst snd]. destruct (metaManagerRef h) as [manager|];
      [|split; reflexivity].
    destruct (Manager.readEncryptedValue env call manager functionName w)
      as [[v|e] w1]; split; reflexivity.
  - split; reflexivity.
  - intros captured functionName params e.
    unfold executeMetaTransaction, setState, in_world. run_monad. cbn [fst snd].
    destruct (metaManagerRef h) as [manager|]; [|split; reflexivity].
    destruct (Manager.createEncryptedParams env manager functionName params w)
      as [[encryptedParams|e1] w1]; [|split; reflexivity].
    destruct (Manager.executeMetaTransaction env manager functionName encryptedParams
                w1) as [[tx|e2] w2]; [discriminate|split; reflexivity].
  - cbn. auto.
Qed.

(** X25.  [verifyTransaction] of the hook never rejects once there is a
    manager, asks for the receipt once, and leaves the hook exactly as
    it was -- the branch that would record "Verification failed" is
    never taken, because the manager's [verifyTransaction] catches
    everything.  Its answer is [true] exactly when the node returned a
    receipt whose status is 1; a missing receipt and an error of the
    provider both read [false]. *)
Theorem hook_verifyTransaction_answer (env : Env) (txHash : string)
    (h : Hook) (w : World) (manager : FHEVMMetaManager) :
  metaManagerRef h = Some manager ->
  exists answer,
    verifyTransaction env txHash (h, w)
    = (Ok answer, (h, next (request "getTransactionReceipt" w)))
    /\ (answer = true <->
        exists r gas,
          getTransactionReceipt env (tick w) = Ok (Some r)
          /\ receipt_gasUsed r = Some gas /\ receipt_status r = 1).
Proof.
  intros Hm. unfold verifyTransaction, in_world. run_monad. cbn [fst]. rewrite Hm.
  unfold Manager.verifyTransaction. run_monad.
  destruct (getTransactionReceipt env (tick w)) as [[r|]|e].
  - destruct (receipt_gasUsed r) as [g|] eqn:Eg.
    + eexists. split; [reflexivity|]. cbn [isValid v_status andb].
      rewrite Z.eqb_eq. split.
      * intros Hs. exists r, g. auto.
      * intros (r0 & g0 & H0 & _ & Hs). injection H0 as <-. exact Hs.
    + eexists. split; [reflexivity|]. cbn. split; [discriminate|].
      intros (r0 & g0 & H0 & Hg & _). injection H0 as <-. congruence.
  - eexists. split; [reflexivity|]. cbn. split; [discriminate|].
    intros (r0 & g0 & H0 & _). discriminate.
  - eexists. split; [reflexivity|]. cbn. split; [discriminate|].
    intros (r0 & g0 & H0 & _). discriminate.
Qed.

Lemma hook_verifyTransaction_answer_witness :
  exists h w,
    initialize (Scenario.env 11155111 424242) Scenario.contractAA
      (initialHook, Scenario.world0) = (Ok tt, (h, w))
    /\ verifyTransaction (Scenario.env 11155111 424242) "0x11" (h, w)
       = (Ok true, (h, next (request "getTransactionReceipt" w))).
Proof.
  eexists _, _. split; [vm_compute; reflexivity|].
  match goal with
  | |- verifyTransaction ?env ?txHash (?h, ?w) = _ =>
      edestruct (hook_verifyTransaction_answer env txHash h w)
        as (answer & Hrun & Hanswer); [reflexivity|]
  end.
  rewrite Hrun. f_equal. f_equal. apply Hanswer.
  eexists _, _. split; [reflexivity|]. split; reflexivity.
Defined.

End HookStateFacts.

(** ** The refresh loop and the reads *)

Module RefreshFacts.
Import HookActions.
Local Open Scope monad_scope.

Lemma refreshOne_settled (env : Env) (tx : FHEMetaTransaction) (hw : Hook * World) :
  settled_tx tx -> refreshOne env tx hw = (Ok tx, hw).
Proof.
  unfold refreshOne. intros [H|H]; rewrite H; [reflexivity|].
  cbn [negb]. rewrite orb_true_r. reflexivity.
Qed.

Lemma refreshAll_settled (env : Env) (txs : list FHEMetaTransaction)
    (hw : Hook * World) :
  Forall settled_tx txs -> refreshAll env txs hw = (Ok txs, hw).
Proof.
  induction 1 as [|tx txs Htx _ IH]; [reflexivity|].
  cbn [refreshAll]. unfold bind at 1. rewrite (refreshOne_settled _ _ _ Htx).
  unfold bind at 1. rewrite IH. reflexivity.
Qed.

(** X26.  The refresh has nothing to do on a history of transactions
    that are completed, failed or without a hash: it makes no request
    and changes nothing, neither the hook nor the browser.  Every
    transaction that [executeMetaTransaction] of the hook records is of
    that kind -- it is recorded only once its receipt is in, completed
    or failed -- so after a recorded transaction the refresh loop of the
    hook is idle. *)
Theorem refresh_is_idle (env : Env) :
  (forall rendered hw,
      Forall settled_tx (transactions rendered) ->
      updateTransactionStatuses env rendered hw = (Ok tt, hw))
  /\ (forall env0 captured functionName params h w manager tx h' w',
        metaManagerRef h = Some manager ->
        Forall settled_tx (transactions captured) ->
        executeMetaTransaction env0 captured functionName params (h, w)
        = (Ok tx, (h', w')) ->
        is_terminal (tx_status tx) = true
        /\ forall hw, updateTransactionStatuses env (state h') hw = (Ok tt, hw)).
Proof.
  assert (Hidle : forall rendered hw,
             Forall settled_tx (transactions rendered) ->
             updateTransactionStatuses env rendered hw = (Ok tt, hw)).
  { intros rendered hw H. unfold updateTransactionStatuses. unfold bind at 1.
    rewrite (refreshAll_settled _ _ _ H).
    rewrite bool_decide_eq_true_2 by reflexivity. reflexivity. }
  split; [exact Hidle|].
  intros env0 captured functionName params h w manager tx h' w' Hm Hc H.
  pose proof (HookFacts.executeMetaTransaction_outcome env0 captured functionName
                params h w manager Hm) as Ho.
  rewrite H in Ho. destruct Ho as (Ht & _ & _ & encryptedParams & w1 & Hrun).
  destruct (LifecycleFacts.executeMetaTransaction_writes env0 manager functionName
              encryptedParams w1) as (txId & writes & _ & _ & Htx & _).
  destruct (Htx tx Hrun) as (_ & _ & Hterminal).
  split; [exact Hterminal|]. intros hw. apply Hidle. rewrite Ht.
  constructor; [left; exact Hterminal|exact Hc].
Qed.

(** After the vote of the scenario the refresh finds nothing to do. *)
Lemma refresh_is_idle_witness :
  exists h0 w0 tx h1 w1,
    initialize (Scenario.env 11155111 424242) Scenario.contractAA
      (initialHook, Scenario.world0) = (Ok tt, (h0, w0))
    /\ executeMetaTransaction (Scenario.env 11155111 424242) initialState "vote"
         Scenario.vote_params (h0, w0) = (Ok tx, (h1, w1))
    /\ is_terminal (tx_status tx) = true
    /\ updateTransactionStatuses (Scenario.env 11155111 424242) (state h1) (h1, w1)
       = (Ok tt, (h1, w1)).
Proof.
  eexists _, _, _, _, _.
  split; [vm_compute; reflexivity|].
  destruct (refresh_is_idle (Scenario.env 11155111 424242)) as [_ H].
  match goal with
  | |- executeMetaTransaction ?env ?captured ?f ?ps (?h, ?w) = _ /\ _ =>
      edestruct (H env captured f ps h w) as [Hterminal Hidle];
        [reflexivity|constructor|vm_compute; reflexivity|]
  end.
  split; [vm_compute; reflexivity|]. split; [exact Hterminal|apply Hidle].
Defined.

(** X27.  [readEncryptedValue] of the hook, with a manager in the ref.
    When it returns, the value is what the contract function answered,
    after one call, and the error is cleared.  When it throws, the
    error of the state is "Read failed: " and the message thrown, and
    the message is the cause itself, not wrapped: that the manager is
    not initialized or that the contract has no such function -- and
    then nothing was asked of the node -- or whatever the call threw. *)
Theorem readEncryptedValue_outcome (A : Type) (env : Env)
    (call : nat -> string -> result A) (functionName : string)
    (h : Hook) (w : World) (manager : FHEVMMetaManager) :
  metaManagerRef h = Some manager ->
  match readEncryptedValue env call functionName (h, w) with
  | (Ok v, (h', w')) =>
      m_isInitialized manager = true /\ contractHas env functionName = true
      /\ call (tick w) functionName = Ok v
      /\ w' = next (request "call" w)
      /\ error (state h') = None
  | (Throw e, (h', w')) =>
      error (state h') = Some ("Read failed: " +:+ e)
      /\ ((m_isInitialized manager = false
           /\ e = "FHEVMMetaManager not initialized" /\ w' = w)
          \/ (m_isInitialized manager = true /\ contractHas env functionName = false
              /\ e = "Function " +:+ functionName +:+ " not found in contract"
              /\ w' = w)
          \/ (m_isInitialized manager = true /\ contractHas env functionName = true
              /\ call (tick w) functionName = Throw e
              /\ w' = next (request "call" w)))
  end.
Proof.
  intros Hm. unfold readEncryptedValue, Manager.readEncryptedValue, setState, in_world.
  run_monad. cbn [fst snd]. rewrite Hm.
  destruct (m_isInitialized manager); cbn [negb].
  - destruct (contractHas env functionName); cbn [negb].
    + destruct (call (tick w) functionName) as [v|e] eqn:Ecall.
      * repeat split; reflexivity.
      * split; [reflexivity|]. right. right. repeat split; reflexivity.
    + split; [reflexivity|]. right. left. repeat split; reflexivity.
  - split; [reflexivity|]. left. repeat split; reflexivity.
Qed.

Lemma readEncryptedValue_outcome_witness :
  let manager := {| m_fhevmClient := Some Scenario.client_without_engine;
                    m_chainId := 11155111;
                    m_contractAddress := Scenario.contractAA;
                    m_isInitialized := true |} in
  let h := {| state := initialState; metaManagerRef := Some manager;
              chainIdRef := Some 11155111 |} in
  let call := fun (_ : nat) (_ : string) => Ok 42 in
  match readEncryptedValue (Scenario.env 11155111 424242) call "getVotingInfo"
          (h, Scenario.world0) with
  | (Ok v, (h', w')) =>
      v = 42 /\ w' = next (request "call" Scenario.world0)
      /\ error (state h') = None
  | (Throw _, _) => False
  end.
Proof.
  intros manager h call.
  pose proof (readEncryptedValue_outcome Z (Scenario.env 11155111 424242) call
                "getVotingInfo" h Scenario.world0 manager eq_refl) as H.
  destruct (readEncryptedValue (Scenario.env 11155111 424242) call "getVotingInfo"
              (h, Scenario.world0)) as [[v|e] [h' w']] eqn:E.
  - destruct H as (_ & _ & Hv & Hw & He). injection Hv as <-. auto.
  - vm_compute in E. discriminate.
Defined.

End RefreshFacts.

(** ** Without the engine nothing is hidden *)

Module PrivacyFacts.
Import Client ClientFacts FallbackFacts.
Local Open Scope result_scope.

Lemma compatibleEncoding_readable (contractAddress userAddress : string)
    (value : Z) (type : fhe_type) (timestamp nonce : Z) (r : EncryptedInput) :
  compatibleEncoding contractAddress userAddress value type timestamp nonce = Ok r ->
  reveals value type (proof r).
Proof.
  unfold compatibleEncoding, reveals. intros H. destruct type.
  - destruct (euint32_preimage _ _ _ _ _) as [pre|]; [|discriminate].
    cbn [rbind] in H.
    destruct (Ethers.encode _ _) as [pb|] eqn:E; [|discriminate].
    cbn [rbind] in H. injection H as <-. cbn [proof].
    destruct (AbiFacts.decode_encode euint32_proof_types _ _ eq_refl E)
      as (_ & vs & Hdec & Hrep).
    unfold euint32_proof_types in Hrep. invert_represents.
    exists pb. split; [reflexivity|]. left. eexists _, _, _, _, _. exact Hdec.
  - destruct (ebool_preimage _ _ _ _) as [pre|]; [|discriminate].
    cbn [rbind] in H.
    destruct (Ethers.encode _ _) as [pb|] eqn:E; [|discriminate].
    cbn [rbind] in H. injection H as <-. cbn [proof].
    destruct (AbiFacts.decode_encode ebool_proof_types _ _ eq_refl E)
      as (_ & vs & Hdec & Hrep).
    unfold ebool_proof_types in Hrep. invert_represents.
    exists pb. split; [reflexivity|]. right. left. eexists _, _, _, _, _.
    split; [discriminate|exact Hdec].
  - destruct (ebool_preimage _ _ _ _) as [pre|]; [|discriminate].
    cbn [rbind] in H.
    destruct (Ethers.encode _ _) as [pb|] eqn:E; [|discriminate].
    cbn [rbind] in H. injection H as <-. cbn [proof].
    destruct (AbiFacts.decode_encode ebool_proof_types _ _ eq_refl E)
      as (_ & vs & Hdec & Hrep).
    unfold ebool_proof_types in Hrep. invert_represents.
    exists pb. split; [reflexivity|]. right. left. eexists _, _, _, _, _.
    split; [discriminate|exact Hdec].
Qed.

Lemma minimalEncoding_readable (contractAddress : string) (value : Z)
    (type : fhe_type) (r : EncryptedInput) :
  minimalEncoding contractAddress value = Ok r -> reveals value type (proof r).
Proof.
  intros H. apply minimalEncoding_inv in H as (hb & pb & _ & _ & _ & Hp & _ & Henc).
  destruct (AbiFacts.decode_encode [Ethers.uint 256; Ethers.address] _ _ eq_refl Henc)
    as (_ & vs & Hdec & Hrep).
  invert_represents. exists pb. split; [exact Hp|]. right. right.
  eexists. exact Hdec.
Qed.

(** X28.  Without the engine nothing is hidden.  When the client of the
    manager has no instance, or is on a chain other than Sepolia, every
    encrypted parameter that [createEncryptedParams] returns carries
    its plain value in its proof: the proof is the ABI encoding of a
    tuple that anyone can decode, and the value is a field of it -- the
    uint32 for an [euint32], the truth value for any other type, or the
    uint256 of the minimal fallback. *)
Theorem fallback_parameters_are_readable (env : Env) (m : FHEVMMetaManager)
    (client : FHEVMClient) (functionName : string) (params : list Param)
    (w w' : World) (eps : list EncryptedParameter) :
  m_fhevmClient m = Some client ->
  fhevmInstance client = None \/ chainId client <> SEPOLIA ->
  Manager.createEncryptedParams env m functionName params w = (Ok eps, w') ->
  Forall2 (fun p ep => ep_name ep = param_name p
                       /\ reveals (plain_value p) (param_type p) (ep_proof ep))
    params eps.
Proof.
  intros Hc Hoff H. unfold Manager.createEncryptedParams in H. rewrite Hc in H.
  destruct (m_isInitialized m); [|discriminate].
  apply ManagerFacts.encryptAll_inv in H.
  induction H as [|p ep params eps (Hn & _ & _ & Ho) _ IH]; constructor;
    [|exact IH].
  split; [exact Hn|].
  destruct Ho as [instance t user e Hi Hs _ _ _ _ _|user t n He|He].
  - destruct Hoff as [Hnone|Hchain]; [congruence|contradiction].
  - apply (compatibleEncoding_readable _ _ _ _ _ _ _ He).
  - apply (minimalEncoding_readable _ _ _ _ He).
Qed.

Lemma fallback_parameters_are_readable_witness :
  let manager := {| m_fhevmClient := Some Scenario.client_without_engine;
                    m_chainId := 11155111;
                    m_contractAddress := Scenario.contractAA;
                    m_isInitialized := true |} in
  exists eps w',
    Manager.createEncryptedParams (Scenario.env 11155111 424242) manager "vote"
      Scenario.vote_params Scenario.world0 = (Ok eps, w')
    /\ Forall2 (fun p ep => ep_name ep = param_name p
                            /\ reveals (plain_value p) (param_type p) (ep_proof ep))
         Scenario.vote_params eps.
Proof.
  intros manager. eexists _, _.
  split; [vm_compute; reflexivity|].
  eapply (fallback_parameters_are_readable (Scenario.env 11155111 424242) manager
            Scenario.client_without_engine "vote" Scenario.vote_params
            Scenario.world0).
  - reflexivity.
  - left. reflexivity.
  - vm_compute. reflexivity.
Defined.

End PrivacyFacts.

(** ** The context provider *)

Module ContextFacts.
Import ContextProvider.
Local Open Scope monad_scope.

(** The branches that end without a client. *)
Ltac stops_without_client :=
  eexists _, _; split; [reflexivity|];
  cbn [fst snd ctx_isReady ctx_networkSupported ctx_fhevmClient ctx_sdkStatus];
  split; [discriminate|]; split; [intros H; contradiction|];
  split;
  [let Hc := fresh "Hc" in
   let Hsup := fresh "Hsup" in
   intros ? ? Hc Hsup ? ? ?; try discriminate;
   try (injection Hc as <-);
   try (vm_compute in Hsup; discriminate); congruence
  |first [intros [H|H]; discriminate|intros _; repeat split; reflexivity]].

(** X29.  [initializeFHEVM] of the context provider never rejects, and
    what it leaves behind is coherent in one direction only.  If the
    context is ready, then the network is supported, there is a client,
    the client is ready and the status is "ready"; a client is there
    only with the status "ready"; the status "error" comes with no
    client; and "ready" is reached whenever chain id, provider and
    account are there, the chain is supported and its id can be read
    from the wallet -- whether or not the SDK could be loaded.  In the
    other direction there is nothing: without a chain id or a provider
    the client is dropped while the status keeps its last value. *)
Theorem initializeFHEVM_outcome (env : Env) (hasProvider : bool)
    (account : option string) (chain : option Z) (ctx : FHEVMContext) (w : World) :
  exists ctx' w',
    initializeFHEVM env hasProvider account chain (ctx, w) = (Ok tt, (ctx', w'))
    /\ (ctx_isReady ctx' = true ->
        ctx_networkSupported ctx' = true /\ ctx_sdkStatus ctx' = "ready"
        /\ exists client,
            ctx_fhevmClient ctx' = Some client /\ Client.isReady client = true)
    /\ (ctx_fhevmClient ctx' <> None ->
        ctx_sdkStatus ctx' = "ready" /\ ctx_networkSupported ctx' = true)
    /\ (forall c w1,
          chain = Some c -> Manager.isNetworkSupported c = true ->
          hasProvider = true -> truthy account = true ->
          Factory.getChainId env BrowserProvider w = (Ok c, w1) ->
          ctx_sdkStatus ctx' = "ready" /\ ctx_isReady ctx' = true)
    /\ (truthy_chain chain = false \/ hasProvider = false ->
        ctx_fhevmClient ctx' = None /\ ctx_isReady ctx' = false
        /\ ctx_networkSupported ctx' = false
        /\ ctx_sdkStatus ctx' = ctx_sdkStatus ctx /\ w' = w).
Proof.
  unfold initializeFHEVM, setNetworkSupported, setIsReady, setFhevmClient,
    setSdkStatus, in_world.
  destruct chain as [c|]; [|run_monad; stops_without_client].
  cbn [truthy_chain]. destruct (c =? 0) eqn:E0; cbn [negb orb].
  { apply Z.eqb_eq in E0. subst c. run_monad. stops_without_client. }
  destruct hasProvider; cbn [negb]; [|run_monad; stops_without_client].
  assert (Hs : Manager.isNetworkSupported c = (c =? 11155111) || (c =? 31337)).
  { unfold Manager.isNetworkSupported, Manager.getSupportedNetworks. cbn [existsb].
    rewrite orb_false_r. reflexivity. }
  rewrite <- Hs. destruct (Manager.isNetworkSupported c) eqn:Esup; cbn [andb];
    [|run_monad; stops_without_client].
  destruct (truthy account) eqn:Eacc; [|run_monad; stops_without_client].
  run_monad. cbn [fst snd].
  rewrite SetupFacts.createFHEVMClient_unfold.
  destruct (Factory.getChainId env BrowserProvider w) as [[c'|e] w1] eqn:Echain;
    [|stops_without_client].
  destruct (ReadinessFacts.initialize_keeps_chain env
              {| provider := BrowserProvider; chainId := c'; fhevmInstance := None |}
              w1) as (client & Hi & Hchain & _).
  destruct (Factory.initialize env _ w1) as [[client'|e] w2]; cbn [fst] in Hi;
    [|discriminate].
  injection Hi as ->. eexists _, _. split; [reflexivity|]. cbn.
  split; [intros Hr; repeat split; eauto|].
  split; [auto|]. split; [|intros [H|H]; discriminate].
  intros c0 w0 Hc0 Hsup0 _ _ Hw0. injection Hc0 as Hc0. injection Hw0 as Hw0 _.
  subst c0 c'. split; [reflexivity|].
  unfold Client.isReady, Client.SEPOLIA, Client.HARDHAT. rewrite Hchain.
  cbn [chainId]. symmetry. exact Hs.
Qed.

(** A wallet on Sepolia and a relayer out of reach: the status is
    "ready" and the context is ready. *)
Lemma initializeFHEVM_outcome_witness :
  let idle := {| ctx_isReady := false; ctx_networkSupported := false;
                 ctx_fhevmClient := None; ctx_sdkStatus := "idle" |} in
  exists ctx' w',
    initializeFHEVM (Scenario.env 11155111 424242) true (Some Scenario.userBB)
      (Some 11155111) (idle, Scenario.world0) = (Ok tt, (ctx', w'))
    /\ ctx_sdkStatus ctx' = "ready" /\ ctx_isReady ctx' = true.
Proof.
  intros idle.
  destruct (initializeFHEVM_outcome (Scenario.env 11155111 424242) true
              (Some Scenario.userBB) (Some 11155111) idle Scenario.world0)
    as (ctx' & w' & Hrun & _ & _ & H & _).
  exists ctx', w'. split; [exact Hrun|].
  apply (H 11155111 (next (request "getNetwork" Scenario.world0))); reflexivity.
Defined.

End ContextFacts.

(** ** When parameters cannot be encrypted *)

Module RejectionFacts.
Import Manager.
Local Open Scope monad_scope.




(** The default addresses of [getSystemContracts], seen by
    [checkIsAddress]: the executor and the ACL pass; the gateway and the
    KMS verifier are in mixed case with a wrong checksum. *)
Example default_system_contracts :
  let none := {| Client.REACT_APP_FHEVM_EXECUTOR_CONTRACT := None;
                 Client.REACT_APP_ACL_CONTRACT := None;
                 Client.REACT_APP_FHEVM_GATEWAY_CONTRACT := None;
                 Client.REACT_APP_KMS_VERIFIER_CONTRACT := None |} in
  match Client.getSystemContracts none 11155111 with
  | Some contracts =>
      Client.checkIsAddress (Some (Client.FHEVM_EXECUTOR contracts)) = true
      /\ Client.checkIsAddress (Some (Client.ACL_CONTRACT contracts)) = true
      /\ Client.checkIsAddress (Some (Client.FHEVM_GATEWAY contracts)) = false
      /\ Client.checkIsAddress (Some (Client.KMS_VERIFIER contracts)) = false
  | None => False
  end.
Proof. vm_compute. repeat split. Qed.

End RejectionFacts.
